(** * LSM9DS1 driver for Tiva devices: a shallow embedding of
      [SparkFunLSM9DS1.c] and the properties of its calibration, read and
      configuration paths.

    The driver keeps its state in file-level globals and talks to the sensor
    through the I2C interface of the board support package.  Here the globals
    become a record, every driver function becomes a function on that record,
    and the board's I2C primitives are parameters of the development. *)

From Stdlib Require Import ZArith List Bool Lia.
From Stdlib Require Import Floats.SpecFloat.
Import ListNotations.
Local Open Scope Z_scope.

(** ** Fixed-width C integers, carried by [Z] with the wrap-around written out *)

Module CInt.

(** Conversion to an unsigned type reduces modulo [2^w]; conversion to a
    narrower signed type is implementation-defined in C and reduces modulo
    [2^w] on the compilers of this target. *)
Definition to_uint8 (z : Z) : Z := z mod 256.
Definition to_uint16 (z : Z) : Z := z mod 65536.
Definition to_int16 (z : Z) : Z := (z + 32768) mod 65536 - 32768.
Definition to_int32 (z : Z) : Z := (z + 2147483648) mod 4294967296 - 2147483648.

Definition is_uint8 (z : Z) : Prop := 0 <= z <= 255.
Definition is_int16 (z : Z) : Prop := -32768 <= z <= 32767.

(** [a / b] of C on [int]: the quotient truncated toward zero. *)
Definition c_div (a b : Z) : Z := Z.quot a b.

End CInt.
Export CInt.

(** ** The C [float] (binary32) and [double] (binary64) values the driver uses *)

Module F32.

Definition float : Type := spec_float.

Definition prec : Z := 24.
Definition emax : Z := 128.
Definition dprec : Z := 53.
Definition demax : Z := 1024.

Definition zero : float := S754_zero false.

(** Conversion of an [int] to [float] (round to nearest even). *)
Definition of_int (z : Z) : float := binary_normalize prec emax z 0 false.

(** Conversion of a [double] to [float], as the assignment
    [gRes = SENSITIVITY_...] performs it. *)
Definition of_double (x : spec_float) : float :=
  match x with
  | S754_finite s m e => binary_round prec emax s m e
  | _ => x
  end.

(** The [double] denoted by the decimal literal [n / d] ([d] a power of ten):
    the correctly rounded quotient. *)
Definition double_literal (n d : Z) : spec_float :=
  SFdiv dprec demax (binary_normalize dprec demax n 0 false)
                    (binary_normalize dprec demax d 0 false).

Definition literal (n d : Z) : float := of_double (double_literal n d).

(** [r * raw] with [raw] an [int16_t]: the integer is converted, the product
    is a binary32 product. *)
Definition mul_int (r : float) (raw : Z) : float :=
  SFmul prec emax r (of_int raw).

(** Truncation of a finite [double] toward zero. *)
Definition trunc (x : spec_float) : option Z :=
  match x with
  | S754_zero _ => Some 0
  | S754_finite s m e =>
      let a := Z.shiftl (Zpos m) e in Some (if s then - a else a)
  | _ => None
  end.

(** [(int16_t)(1./r)]: [r] is promoted to [double], the division is a
    binary64 division and the cast truncates.  C leaves the cast undefined
    when the quotient is not finite or does not fit; the model then wraps a
    finite quotient and yields 0 for an infinite one. *)
Definition recip_int16 (r : float) : Z :=
  match trunc (SFdiv dprec demax (binary_normalize dprec demax 1 0 false) r) with
  | Some z => to_int16 z
  | None => 0
  end.

End F32.

(** Sensor sensitivity constants (table 3 of the datasheet), as the
    [#define]s of the source give them. *)
Definition SENSITIVITY_ACCELEROMETER_2  : F32.float := F32.literal 61 1000000.
Definition SENSITIVITY_ACCELEROMETER_4  : F32.float := F32.literal 122 1000000.
Definition SENSITIVITY_ACCELEROMETER_8  : F32.float := F32.literal 244 1000000.
Definition SENSITIVITY_ACCELEROMETER_16 : F32.float := F32.literal 732 1000000.
Definition SENSITIVITY_GYROSCOPE_245    : F32.float := F32.literal 875 100000.
Definition SENSITIVITY_GYROSCOPE_500    : F32.float := F32.literal 175 10000.
Definition SENSITIVITY_GYROSCOPE_2000   : F32.float := F32.literal 7 100.
Definition SENSITIVITY_MAGNETOMETER_4   : F32.float := F32.literal 14 100000.
Definition SENSITIVITY_MAGNETOMETER_8   : F32.float := F32.literal 29 100000.
Definition SENSITIVITY_MAGNETOMETER_12  : F32.float := F32.literal 43 100000.
Definition SENSITIVITY_MAGNETOMETER_16  : F32.float := F32.literal 58 100000.

(** ** Constants of the headers *)

(** Modelled from the spec: [LSM9DS1_Registers.h], [LSM9DS1_Types.h] and
    [drivers/i2c_if.h] are not among the sources.  The spec treats the
    register map as external static data, so the register addresses, the two
    identity responses and the enumerators the driver passes around are the
    fields of a record that every definition takes as a parameter. *)
Record Headers : Type := {
  WHO_AM_I_XG : Z;  WHO_AM_I_M : Z;
  WHO_AM_I_AG_RSP : Z;  WHO_AM_I_M_RSP : Z;
  CTRL_REG1_G : Z;  CTRL_REG2_G : Z;  CTRL_REG3_G : Z;  ORIENT_CFG_G : Z;
  CTRL_REG4 : Z;  CTRL_REG5_XL : Z;  CTRL_REG6_XL : Z;  CTRL_REG7_XL : Z;
  CTRL_REG9 : Z;  FIFO_CTRL : Z;  FIFO_SRC : Z;
  OUT_X_L_G : Z;  OUT_X_L_XL : Z;
  OFFSET_X_REG_L_M : Z;  OFFSET_X_REG_H_M : Z;
  CTRL_REG1_M : Z;  CTRL_REG2_M : Z;  STATUS_REG_M : Z;  OUT_X_L_M : Z;
  (* enum fifoMode_type *)
  FIFO_OFF : Z;  FIFO_THS : Z;
  (* enum lsm9ds1_axis: X_AXIS, Y_AXIS and Z_AXIS index the three-element
     bias arrays, so they are 0, 1 and 2; ALL_AXIS is left open *)
  ALL_AXIS : Z;
  (* drivers/i2c_if.h *)
  I2C_MASTER_MODE_STD : Z
}.

Definition X_AXIS : Z := 0.
Definition Y_AXIS : Z := 1.
Definition Z_AXIS : Z := 2.

(** [enum interface_mode]: the two transports the driver branches on.  The
    trailing [else { return 0; }] of the read selectors, for a value that is
    neither, has no counterpart for this type. *)
Inductive interface_mode : Type := IMU_MODE_SPI | IMU_MODE_I2C.

(** ** [IMUSettings] *)

Record deviceSettings : Type := {
  commInterface : interface_mode;
  agAddress : Z;
  mAddress : Z
}.

Record gyroSettings : Type := {
  g_enabled : bool;
  g_scale : Z;            (* uint16_t *)
  g_sampleRate : Z;
  g_bandwidth : Z;
  g_lowPowerEnable : bool;
  g_HPFEnable : bool;
  g_HPFCutoff : Z;
  g_flipX : bool;  g_flipY : bool;  g_flipZ : bool;
  g_orientation : Z;
  g_enableX : bool;  g_enableY : bool;  g_enableZ : bool;
  g_latchInterrupt : bool
}.

Record accelSettings : Type := {
  a_enabled : bool;
  a_scale : Z;            (* uint8_t *)
  a_sampleRate : Z;
  a_enableX : bool;  a_enableY : bool;  a_enableZ : bool;
  a_bandwidth : Z;        (* int8_t: -1 selects the bandwidth by sample rate *)
  a_highResEnable : bool;
  a_highResBandwidth : Z
}.

Record magSettings : Type := {
  m_enabled : bool;
  m_scale : Z;            (* uint8_t *)
  m_sampleRate : Z;
  m_tempCompensationEnable : bool;
  m_XYPerformance : Z;
  m_ZPerformance : Z;
  m_lowPowerEnable : bool;
  m_operatingMode : Z
}.

Record IMUSettings : Type := {
  device : deviceSettings;
  gyro : gyroSettings;
  accel : accelSettings;
  mag : magSettings;
  temp_enabled : bool
}.

Definition set_g_scale (v : Z) (s : IMUSettings) : IMUSettings :=
  let g := gyro s in
  {| device := device s;
     gyro := {| g_enabled := g_enabled g; g_scale := v;
                g_sampleRate := g_sampleRate g; g_bandwidth := g_bandwidth g;
                g_lowPowerEnable := g_lowPowerEnable g;
                g_HPFEnable := g_HPFEnable g; g_HPFCutoff := g_HPFCutoff g;
                g_flipX := g_flipX g; g_flipY := g_flipY g; g_flipZ := g_flipZ g;
                g_orientation := g_orientation g;
                g_enableX := g_enableX g; g_enableY := g_enableY g;
                g_enableZ := g_enableZ g;
                g_latchInterrupt := g_latchInterrupt g |};
     accel := accel s; mag := mag s; temp_enabled := temp_enabled s |}.

Definition set_g_sampleRate (v : Z) (s : IMUSettings) : IMUSettings :=
  let g := gyro s in
  {| device := device s;
     gyro := {| g_enabled := g_enabled g; g_scale := g_scale g;
                g_sampleRate := v; g_bandwidth := g_bandwidth g;
                g_lowPowerEnable := g_lowPowerEnable g;
                g_HPFEnable := g_HPFEnable g; g_HPFCutoff := g_HPFCutoff g;
                g_flipX := g_flipX g; g_flipY := g_flipY g; g_flipZ := g_flipZ g;
                g_orientation := g_orientation g;
                g_enableX := g_enableX g; g_enableY := g_enableY g;
                g_enableZ := g_enableZ g;
                g_latchInterrupt := g_latchInterrupt g |};
     accel := accel s; mag := mag s; temp_enabled := temp_enabled s |}.

Definition set_a_scale (v : Z) (s : IMUSettings) : IMUSettings :=
  let a := accel s in
  {| device := device s; gyro := gyro s;
     accel := {| a_enabled := a_enabled a; a_scale := v;
                 a_sampleRate := a_sampleRate a;
                 a_enableX := a_enableX a; a_enableY := a_enableY a;
                 a_enableZ := a_enableZ a; a_bandwidth := a_bandwidth a;
                 a_highResEnable := a_highResEnable a;
                 a_highResBandwidth := a_highResBandwidth a |};
     mag := mag s; temp_enabled := temp_enabled s |}.

Definition set_a_sampleRate (v : Z) (s : IMUSettings) : IMUSettings :=
  let a := accel s in
  {| device := device s; gyro := gyro s;
     accel := {| a_enabled := a_enabled a; a_scale := a_scale a;
                 a_sampleRate := v;
                 a_enableX := a_enableX a; a_enableY := a_enableY a;
                 a_enableZ := a_enableZ a; a_bandwidth := a_bandwidth a;
                 a_highResEnable := a_highResEnable a;
                 a_highResBandwidth := a_highResBandwidth a |};
     mag := mag s; temp_enabled := temp_enabled s |}.

Definition set_m_scale (v : Z) (s : IMUSettings) : IMUSettings :=
  let m := mag s in
  {| device := device s; gyro := gyro s; accel := accel s;
     mag := {| m_enabled := m_enabled m; m_scale := v;
               m_sampleRate := m_sampleRate m;
               m_tempCompensationEnable := m_tempCompensationEnable m;
               m_XYPerformance := m_XYPerformance m;
               m_ZPerformance := m_ZPerformance m;
               m_lowPowerEnable := m_lowPowerEnable m;
               m_operatingMode := m_operatingMode m |};
     temp_enabled := temp_enabled s |}.

Definition set_m_sampleRate (v : Z) (s : IMUSettings) : IMUSettings :=
  let m := mag s in
  {| device := device s; gyro := gyro s; accel := accel s;
     mag := {| m_enabled := m_enabled m; m_scale := m_scale m;
               m_sampleRate := v;
               m_tempCompensationEnable := m_tempCompensationEnable m;
               m_XYPerformance := m_XYPerformance m;
               m_ZPerformance := m_ZPerformance m;
               m_lowPowerEnable := m_lowPowerEnable m;
               m_operatingMode := m_operatingMode m |};
     temp_enabled := temp_enabled s |}.

(** ** Requests issued to the transport *)

(** One entry per call of a transport shim ([LSM9DS1_I2CwriteByte],
    [LSM9DS1_SPIreadBytes], ...): the interface, the device address (or chip
    select), the register, and the byte written or the bytes obtained.  The
    log is ghost state: the driver never reads it. *)
Inductive Event : Type :=
| EvWrite (via : interface_mode) (address subAddress data : Z)
| EvRead (via : interface_mode) (address subAddress count : Z) (data : list Z).

Definition is_write (e : Event) : bool :=
  match e with EvWrite _ _ _ _ => true | EvRead _ _ _ _ _ => false end.

(** ** The board's I2C interface ([drivers/i2c_if.h]) *)

(** The bus is an external collaborator: a device state [Dev] with the three
    primitives the driver calls.  Each returns the status code of the call
    and the next device state.  [I2C_IF_ReadFrom] also returns the bytes
    found in the destination buffer after the call; on a failed call they
    stand for whatever the buffer holds. *)
Record I2C_IF (Dev : Type) : Type := {
  I2C_IF_Open : Dev -> Z -> Z * Dev;
  I2C_IF_Write : Dev -> Z -> list Z -> Z -> Z * Dev;
  I2C_IF_ReadFrom : Dev -> Z -> list Z -> Z -> (Z * list Z) * Dev
}.
Arguments I2C_IF_Open {Dev} _ _ _.
Arguments I2C_IF_Write {Dev} _ _ _ _ _.
Arguments I2C_IF_ReadFrom {Dev} _ _ _ _ _.

(** ** Driver state *)

(** A C array of three elements. *)
Definition arr3 (A : Type) : Type := (A * A * A)%type.

(** [a[i]].  An index outside 0..2 reads past the array in C; the model
    yields [d] there. *)
Definition get3 {A : Type} (d : A) (a : arr3 A) (i : Z) : A :=
  let '(x, y, z) := a in
  if i =? 0 then x else if i =? 1 then y else if i =? 2 then z else d.

(** [a[i] = v], used by the driver with [i] in 0..2 only. *)
Definition set3 {A : Type} (a : arr3 A) (i : Z) (v : A) : arr3 A :=
  let '(x, y, z) := a in
  if i =? 0 then (v, y, z) else if i =? 1 then (x, v, z)
  else if i =? 2 then (x, y, v) else a.

Definition geti (a : arr3 Z) (i : Z) : Z := get3 0 a i.

(** The file-level variables of [SparkFunLSM9DS1.c]. *)
Record Globals : Type := {
  settings : IMUSettings;
  gBias : arr3 F32.float;  aBias : arr3 F32.float;  mBias : arr3 F32.float;
  gBiasRaw : arr3 Z;  aBiasRaw : arr3 Z;  mBiasRaw : arr3 Z;   (* int16_t *)
  _mAddress : Z;  _xgAddress : Z;                               (* uint8_t *)
  gRes : F32.float;  aRes : F32.float;  mRes : F32.float;
  _autoCalc : bool
}.

Record World (Dev : Type) : Type := mkWorld {
  globals : Globals;
  bus : Dev;
  trace : list Event
}.
Arguments mkWorld {Dev} _ _ _.
Arguments globals {Dev} _.
Arguments bus {Dev} _.
Arguments trace {Dev} _.

Definition with_settings (v : IMUSettings) (g : Globals) : Globals :=
  {| settings := v; gBias := gBias g; aBias := aBias g; mBias := mBias g;
     gBiasRaw := gBiasRaw g; aBiasRaw := aBiasRaw g; mBiasRaw := mBiasRaw g;
     _mAddress := _mAddress g; _xgAddress := _xgAddress g; gRes := gRes g;
     aRes := aRes g; mRes := mRes g; _autoCalc := _autoCalc g |}.

Definition with_gBias (v : arr3 F32.float) (g : Globals) : Globals :=
  {| settings := settings g; gBias := v; aBias := aBias g; mBias := mBias g;
     gBiasRaw := gBiasRaw g; aBiasRaw := aBiasRaw g; mBiasRaw := mBiasRaw g;
     _mAddress := _mAddress g; _xgAddress := _xgAddress g; gRes := gRes g;
     aRes := aRes g; mRes := mRes g; _autoCalc := _autoCalc g |}.

Definition with_aBias (v : arr3 F32.float) (g : Globals) : Globals :=
  {| settings := settings g; gBias := gBias g; aBias := v; mBias := mBias g;
     gBiasRaw := gBiasRaw g; aBiasRaw := aBiasRaw g; mBiasRaw := mBiasRaw g;
     _mAddress := _mAddress g; _xgAddress := _xgAddress g; gRes := gRes g;
     aRes := aRes g; mRes := mRes g; _autoCalc := _autoCalc g |}.

Definition with_mBias (v : arr3 F32.float) (g : Globals) : Globals :=
  {| settings := settings g; gBias := gBias g; aBias := aBias g; mBias := v;
     gBiasRaw := gBiasRaw g; aBiasRaw := aBiasRaw g; mBiasRaw := mBiasRaw g;
     _mAddress := _mAddress g; _xgAddress := _xgAddress g; gRes := gRes g;
     aRes := aRes g; mRes := mRes g; _autoCalc := _autoCalc g |}.

Definition with_gBiasRaw (v : arr3 Z) (g : Globals) : Globals :=
  {| settings := settings g; gBias := gBias g; aBias := aBias g;
     mBias := mBias g; gBiasRaw := v; aBiasRaw := aBiasRaw g;
     mBiasRaw := mBiasRaw g; _mAddress := _mAddress g;
     _xgAddress := _xgAddress g; gRes := gRes g; aRes := aRes g;
     mRes := mRes g; _autoCalc := _autoCalc g |}.

Definition with_aBiasRaw (v : arr3 Z) (g : Globals) : Globals :=
  {| settings := settings g; gBias := gBias g; aBias := aBias g;
     mBias := mBias g; gBiasRaw := gBiasRaw g; aBiasRaw := v;
     mBiasRaw := mBiasRaw g; _mAddress := _mAddress g;
     _xgAddress := _xgAddress g; gRes := gRes g; aRes := aRes g;
     mRes := mRes g; _autoCalc := _autoCalc g |}.

Definition with_mBiasRaw (v : arr3 Z) (g : Globals) : Globals :=
  {| settings := settings g; gBias := gBias g; aBias := aBias g;
     mBias := mBias g; gBiasRaw := gBiasRaw g; aBiasRaw := aBiasRaw g;
     mBiasRaw := v; _mAddress := _mAddress g; _xgAddress := _xgAddress g;
     gRes := gRes g; aRes := aRes g; mRes := mRes g;
     _autoCalc := _autoCalc g |}.

Definition with_mAddress (v : Z) (g : Globals) : Globals :=
  {| settings := settings g; gBias := gBias g; aBias := aBias g;
     mBias := mBias g; gBiasRaw := gBiasRaw g; aBiasRaw := aBiasRaw g;
     mBiasRaw := mBiasRaw g; _mAddress := v; _xgAddress := _xgAddress g;
     gRes := gRes g; aRes := aRes g; mRes := mRes g;
     _autoCalc := _autoCalc g |}.

Definition with_xgAddress (v : Z) (g : Globals) : Globals :=
  {| settings := settings g; gBias := gBias g; aBias := aBias g;
     mBias := mBias g; gBiasRaw := gBiasRaw g; aBiasRaw := aBiasRaw g;
     mBiasRaw := mBiasRaw g; _mAddress := _mAddress g; _xgAddress := v;
     gRes := gRes g; aRes := aRes g; mRes := mRes g;
     _autoCalc := _autoCalc g |}.

Definition with_gRes (v : F32.float) (g : Globals) : Globals :=
  {| settings := settings g; gBias := gBias g; aBias := aBias g;
     mBias := mBias g; gBiasRaw := gBiasRaw g; aBiasRaw := aBiasRaw g;
     mBiasRaw := mBiasRaw g; _mAddress := _mAddress g;
     _xgAddress := _xgAddress g; gRes := v; aRes := aRes g; mRes := mRes g;
     _autoCalc := _autoCalc g |}.

Definition with_aRes (v : F32.float) (g : Globals) : Globals :=
  {| settings := settings g; gBias := gBias g; aBias := aBias g;
     mBias := mBias g; gBiasRaw := gBiasRaw g; aBiasRaw := aBiasRaw g;
     mBiasRaw := mBiasRaw g; _mAddress := _mAddress g;
     _xgAddress := _xgAddress g; gRes := gRes g; aRes := v; mRes := mRes g;
     _autoCalc := _autoCalc g |}.

Definition with_mRes (v : F32.float) (g : Globals) : Globals :=
  {| settings := settings g; gBias := gBias g; aBias := aBias g;
     mBias := mBias g; gBiasRaw := gBiasRaw g; aBiasRaw := aBiasRaw g;
     mBiasRaw := mBiasRaw g; _mAddress := _mAddress g;
     _xgAddress := _xgAddress g; gRes := gRes g; aRes := aRes g; mRes := v;
     _autoCalc := _autoCalc g |}.

Definition with_autoCalc (v : bool) (g : Globals) : Globals :=
  {| settings := settings g; gBias := gBias g; aBias := aBias g;
     mBias := mBias g; gBiasRaw := gBiasRaw g; aBiasRaw := aBiasRaw g;
     mBiasRaw := mBiasRaw g; _mAddress := _mAddress g;
     _xgAddress := _xgAddress g; gRes := gRes g; aRes := aRes g;
     mRes := mRes g; _autoCalc := v |}.

Definition upd_globals {Dev : Type} (f : Globals -> Globals) (w : World Dev)
    : World Dev :=
  mkWorld (f (globals w)) (bus w) (trace w).

(** A transport call: the device moves to [d] and the request is logged. *)
Definition transported {Dev : Type} (d : Dev) (e : Event) (w : World Dev)
    : World Dev :=
  mkWorld (globals w) d (trace w ++ [e]).

(** The bytes a burst of [count] leaves in the destination, each one a
    [uint8_t]. *)
Definition burst (data : list Z) (count : Z) : list Z :=
  map (fun i => to_uint8 (nth i data 0)) (seq 0 (Z.to_nat count)).

(** [(temp[i+1] << 8) | temp[i]] stored into an [int16_t]. *)
Definition le16 (temp : list Z) (i : nat) : Z :=
  to_int16 (Z.lor (Z.shiftl (nth (S i) temp 0) 8) (nth i temp 0)).

(** Locals the source declares without an initialiser.  Their value is only
    observed when a burst read comes back short. *)
Definition uninit_buffer (n : nat) : list Z := repeat 0 n.
Definition uninit_triplet : arr3 Z := (0, 0, 0).

(** ** The driver *)

Section Driver.

Context {Dev : Type} (bsp : I2C_IF Dev) (H : Headers).

Local Abbreviation W := (World Dev).

Definition iface (w : W) : interface_mode :=
  commInterface (device (settings (globals w))).

(** *** Transport shims *)

(** The status of [I2C_IF_Write] only selects a debug print. *)
Definition LSM9DS1_I2CwriteByte (address subAddress data : Z) (w : W) : W :=
  let '(_, d) := I2C_IF_Write bsp (bus w) address [subAddress; data] 1 in
  transported d (EvWrite IMU_MODE_I2C address subAddress data) w.

Definition LSM9DS1_I2CreadByte (address subAddress : Z) (w : W) : Z * W :=
  let '((_, data), d) := I2C_IF_ReadFrom bsp (bus w) address [subAddress] 1 in
  let BlkData := to_uint8 (nth 0 data 0) in
  (BlkData, transported d (EvRead IMU_MODE_I2C address subAddress 1 [BlkData]) w).

(** Returns [count] whatever the status of the bus call. *)
Definition LSM9DS1_I2CreadBytes (address subAddress : Z) (dest : list Z)
    (count : Z) (w : W) : (Z * list Z) * W :=
  let '((_, data), d) :=
    I2C_IF_ReadFrom bsp (bus w) address [subAddress] count in
  let dest' := burst data count in
  ((count, dest'),
   transported d (EvRead IMU_MODE_I2C address subAddress count dest') w).

(** The SPI shims are stubs in this port: nothing reaches the bus, reads
    yield 0 and burst reads report 0 bytes. *)
Definition LSM9DS1_SPIwriteByte (csPin subAddress data : Z) (w : W) : W :=
  transported (bus w) (EvWrite IMU_MODE_SPI csPin subAddress data) w.

Definition LSM9DS1_SPIreadByte (csPin subAddress : Z) (w : W) : Z * W :=
  (0, transported (bus w) (EvRead IMU_MODE_SPI csPin subAddress 1 [0]) w).

Definition LSM9DS1_SPIreadBytes (csPin subAddress : Z) (dest : list Z)
    (count : Z) (w : W) : (Z * list Z) * W :=
  ((0, dest),
   transported (bus w) (EvRead IMU_MODE_SPI csPin subAddress count []) w).

(** The [uint8_t] parameters take their arguments modulo 256. *)
Definition LSM9DS1_xgWriteByte (subAddress data : Z) (w : W) : W :=
  let subAddress := to_uint8 subAddress in
  let data := to_uint8 data in
  match iface w with
  | IMU_MODE_I2C => LSM9DS1_I2CwriteByte (_xgAddress (globals w)) subAddress data w
  | IMU_MODE_SPI => LSM9DS1_SPIwriteByte (_xgAddress (globals w)) subAddress data w
  end.

Definition LSM9DS1_mWriteByte (subAddress data : Z) (w : W) : W :=
  let subAddress := to_uint8 subAddress in
  let data := to_uint8 data in
  match iface w with
  | IMU_MODE_I2C => LSM9DS1_I2CwriteByte (_mAddress (globals w)) subAddress data w
  | IMU_MODE_SPI => LSM9DS1_SPIwriteByte (_mAddress (globals w)) subAddress data w
  end.

Definition LSM9DS1_xgReadByte (subAddress : Z) (w : W) : Z * W :=
  let subAddress := to_uint8 subAddress in
  match iface w with
  | IMU_MODE_I2C => LSM9DS1_I2CreadByte (_xgAddress (globals w)) subAddress w
  | IMU_MODE_SPI => LSM9DS1_SPIreadByte (_xgAddress (globals w)) subAddress w
  end.

Definition LSM9DS1_xgReadBytes (subAddress : Z) (dest : list Z) (count : Z)
    (w : W) : (Z * list Z) * W :=
  let subAddress := to_uint8 subAddress in
  let count := to_uint8 count in
  match iface w with
  | IMU_MODE_I2C =>
      LSM9DS1_I2CreadBytes (_xgAddress (globals w)) subAddress dest count w
  | IMU_MODE_SPI =>
      LSM9DS1_SPIreadBytes (_xgAddress (globals w)) subAddress dest count w
  end.

Definition LSM9DS1_mReadByte (subAddress : Z) (w : W) : Z * W :=
  let subAddress := to_uint8 subAddress in
  match iface w with
  | IMU_MODE_I2C => LSM9DS1_I2CreadByte (_mAddress (globals w)) subAddress w
  | IMU_MODE_SPI => LSM9DS1_SPIreadByte (_mAddress (globals w)) subAddress w
  end.

Definition LSM9DS1_mReadBytes (subAddress : Z) (dest : list Z) (count : Z)
    (w : W) : (Z * list Z) * W :=
  let subAddress := to_uint8 subAddress in
  let count := to_uint8 count in
  match iface w with
  | IMU_MODE_I2C =>
      LSM9DS1_I2CreadBytes (_mAddress (globals w)) subAddress dest count w
  | IMU_MODE_SPI =>
      LSM9DS1_SPIreadBytes (_mAddress (globals w)) subAddress dest count w
  end.

(** *** Identity check *)

Definition whoAmI_expected : Z :=
  Z.lor (Z.shiftl (WHO_AM_I_AG_RSP H) 8) (WHO_AM_I_M_RSP H).

Definition LSM9DS1_isConnected (w : W) : bool * W :=
  let '(mTest, w1) := LSM9DS1_mReadByte (WHO_AM_I_M H) w in
  let '(xgTest, w2) := LSM9DS1_xgReadByte (WHO_AM_I_XG H) w1 in
  let whoAmICombined := to_uint16 (Z.lor (Z.shiftl xgTest 8) mTest) in
  (whoAmICombined =? whoAmI_expected, w2).

(** *** Resolutions *)

Definition LSM9DS1_calcgRes (w : W) : F32.float * W :=
  let scale := g_scale (gyro (settings (globals w))) in
  let w1 :=
    if scale =? 245 then upd_globals (with_gRes SENSITIVITY_GYROSCOPE_245) w
    else if scale =? 500 then upd_globals (with_gRes SENSITIVITY_GYROSCOPE_500) w
    else if scale =? 2000 then upd_globals (with_gRes SENSITIVITY_GYROSCOPE_2000) w
    else w in
  (gRes (globals w1), w1).

Definition LSM9DS1_calcaRes (w : W) : F32.float * W :=
  let scale := a_scale (accel (settings (globals w))) in
  let w1 :=
    if scale =? 2 then upd_globals (with_aRes SENSITIVITY_ACCELEROMETER_2) w
    else if scale =? 4 then upd_globals (with_aRes SENSITIVITY_ACCELEROMETER_4) w
    else if scale =? 8 then upd_globals (with_aRes SENSITIVITY_ACCELEROMETER_8) w
    else if scale =? 16 then upd_globals (with_aRes SENSITIVITY_ACCELEROMETER_16) w
    else w in
  (aRes (globals w1), w1).

Definition LSM9DS1_calcmRes (w : W) : F32.float * W :=
  let scale := m_scale (mag (settings (globals w))) in
  let w1 :=
    if scale =? 4 then upd_globals (with_mRes SENSITIVITY_MAGNETOMETER_4) w
    else if scale =? 8 then upd_globals (with_mRes SENSITIVITY_MAGNETOMETER_8) w
    else if scale =? 12 then upd_globals (with_mRes SENSITIVITY_MAGNETOMETER_12) w
    else if scale =? 16 then upd_globals (with_mRes SENSITIVITY_MAGNETOMETER_16) w
    else w in
  (mRes (globals w1), w1).

Definition LSM9DS1_constrainScales (w : W) : W :=
  let w1 :=
    let s := g_scale (gyro (settings (globals w))) in
    if negb (s =? 245) && negb (s =? 500) && negb (s =? 2000)
    then upd_globals (fun g => with_settings (set_g_scale 245 (settings g)) g) w
    else w in
  let w2 :=
    let s := a_scale (accel (settings (globals w1))) in
    if negb (s =? 2) && negb (s =? 4) && negb (s =? 8) && negb (s =? 16)
    then upd_globals (fun g => with_settings (set_a_scale 2 (settings g)) g) w1
    else w1 in
  let s := m_scale (mag (settings (globals w2))) in
  if negb (s =? 4) && negb (s =? 8) && negb (s =? 12) && negb (s =? 16)
  then upd_globals (fun g => with_settings (set_m_scale 4 (settings g)) g) w2
  else w2.

(** [gRes * gyro] and its siblings.  The parameter is an [int16_t]: the
    argument is converted to it at the call. *)
Definition LSM9DS1_calcGyro (gyro : Z) (w : W) : F32.float :=
  let gyro := to_int16 gyro in
  F32.mul_int (gRes (globals w)) gyro.

Definition LSM9DS1_calcAccel (accel : Z) (w : W) : F32.float :=
  let accel := to_int16 accel in
  F32.mul_int (aRes (globals w)) accel.

Definition LSM9DS1_calcMag (mag : Z) (w : W) : F32.float :=
  let mag := to_int16 mag in
  F32.mul_int (mRes (globals w)) mag.

(** *** Raw sample readers *)

(** The three pointer arguments are the caller's variables: [out] holds
    their values before the call, the result their values after it. *)
Definition LSM9DS1_readAccel (out : arr3 Z) (w : W) : arr3 Z * W :=
  let '((n, temp), w1) :=
    LSM9DS1_xgReadBytes (OUT_X_L_XL H) (uninit_buffer 6) 6 w in
  if n =? 6 then
    let ax := le16 temp 0 in
    let ay := le16 temp 2 in
    let az := le16 temp 4 in
    if _autoCalc (globals w1) then
      let b := aBiasRaw (globals w1) in
      ((to_int16 (ax - geti b X_AXIS),
        to_int16 (ay - geti b Y_AXIS),
        to_int16 (az - geti b Z_AXIS)), w1)
    else ((ax, ay, az), w1)
  else (out, w1).

Definition LSM9DS1_readAccelAxis (axis : Z) (w : W) : Z * W :=
  let '((n, temp), w1) :=
    LSM9DS1_xgReadBytes (OUT_X_L_XL H + 2 * axis) (uninit_buffer 2) 2 w in
  if n =? 2 then
    let value := le16 temp 0 in
    let value :=
      if _autoCalc (globals w1)
      then to_int16 (value - geti (aBiasRaw (globals w1)) axis)
      else value in
    (value, w1)
  else (0, w1).

Definition LSM9DS1_readMag (out : arr3 Z) (w : W) : arr3 Z * W :=
  let '((n, temp), w1) :=
    LSM9DS1_mReadBytes (OUT_X_L_M H) (uninit_buffer 6) 6 w in
  if n =? 6 then ((le16 temp 0, le16 temp 2, le16 temp 4), w1)
  else (out, w1).

Definition LSM9DS1_readMagAxis (axis : Z) (w : W) : Z * W :=
  let '((n, temp), w1) :=
    LSM9DS1_mReadBytes (OUT_X_L_M H + 2 * axis) (uninit_buffer 2) 2 w in
  if n =? 2 then (le16 temp 0, w1) else (0, w1).

Definition LSM9DS1_readGyro (out : arr3 Z) (w : W) : arr3 Z * W :=
  let '((n, temp), w1) :=
    LSM9DS1_xgReadBytes (OUT_X_L_G H) (uninit_buffer 6) 6 w in
  if n =? 6 then
    let gx := le16 temp 0 in
    let gy := le16 temp 2 in
    let gz := le16 temp 4 in
    if _autoCalc (globals w1) then
      let b := gBiasRaw (globals w1) in
      ((to_int16 (gx - geti b X_AXIS),
        to_int16 (gy - geti b Y_AXIS),
        to_int16 (gz - geti b Z_AXIS)), w1)
    else ((gx, gy, gz), w1)
  else (out, w1).

Definition LSM9DS1_readGyroAxis (axis : Z) (w : W) : Z * W :=
  let '((n, temp), w1) :=
    LSM9DS1_xgReadBytes (OUT_X_L_G H + 2 * axis) (uninit_buffer 2) 2 w in
  if n =? 2 then
    let value := le16 temp 0 in
    let value :=
      if _autoCalc (globals w1)
      then to_int16 (value - geti (gBiasRaw (globals w1)) axis)
      else value in
    (value, w1)
  else (0, w1).

(** [axis] is an enumerator (0..3 in the header).  The shifts are those of
    C for a shift count in 0..30; outside that range [1 << axis] is undefined
    in C and the model is not meant to apply. *)
Definition LSM9DS1_magAvailable (axis : Z) (w : W) : Z * W :=
  let '(status, w1) := LSM9DS1_mReadByte (STATUS_REG_M H) w in
  (to_uint8 (Z.shiftr (Z.land status (Z.shiftl 1 axis)) axis), w1).

(** *** Scale and data-rate setters *)

Definition LSM9DS1_setGyroScale (gScl : Z) (w : W) : W :=
  let gScl := to_uint16 gScl in
  let '(v, w1) := LSM9DS1_xgReadByte (CTRL_REG1_G H) w in
  let ctrl1RegValue := Z.land v 0xE7 in
  let '(ctrl1RegValue, scale) :=
    if gScl =? 500 then (Z.lor ctrl1RegValue (Z.shiftl 0x1 3), 500)
    else if gScl =? 2000 then (Z.lor ctrl1RegValue (Z.shiftl 0x3 3), 2000)
    else (ctrl1RegValue, 245) in
  let w2 :=
    upd_globals (fun g => with_settings (set_g_scale scale (settings g)) g) w1 in
  let w3 := LSM9DS1_xgWriteByte (CTRL_REG1_G H) ctrl1RegValue w2 in
  snd (LSM9DS1_calcgRes w3).

Definition LSM9DS1_setAccelScale (aScl : Z) (w : W) : W :=
  let aScl := to_uint8 aScl in
  let '(v, w1) := LSM9DS1_xgReadByte (CTRL_REG6_XL H) w in
  let tempRegValue := Z.land v 0xE7 in
  let '(tempRegValue, scale) :=
    if aScl =? 4 then (Z.lor tempRegValue (Z.shiftl 0x2 3), 4)
    else if aScl =? 8 then (Z.lor tempRegValue (Z.shiftl 0x3 3), 8)
    else if aScl =? 16 then (Z.lor tempRegValue (Z.shiftl 0x1 3), 16)
    else (tempRegValue, 2) in
  let w2 :=
    upd_globals (fun g => with_settings (set_a_scale scale (settings g)) g) w1 in
  let w3 := LSM9DS1_xgWriteByte (CTRL_REG6_XL H) tempRegValue w2 in
  snd (LSM9DS1_calcaRes w3).

Definition LSM9DS1_setMagScale (mScl : Z) (w : W) : W :=
  let mScl := to_uint8 mScl in
  let '(v, w1) := LSM9DS1_mReadByte (CTRL_REG2_M H) w in
  let temp := Z.land v (Z.lxor 0xFF (Z.shiftl 0x3 5)) in
  let '(temp, scale) :=
    if mScl =? 8 then (Z.lor temp (Z.shiftl 0x1 5), 8)
    else if mScl =? 12 then (Z.lor temp (Z.shiftl 0x2 5), 12)
    else if mScl =? 16 then (Z.lor temp (Z.shiftl 0x3 5), 16)
    else (temp, 4) in
  let w2 :=
    upd_globals (fun g => with_settings (set_m_scale scale (settings g)) g) w1 in
  let w3 := LSM9DS1_mWriteByte (CTRL_REG2_M H) temp w2 in
  snd (LSM9DS1_calcmRes w3).

Definition LSM9DS1_setGyroODR (gRate : Z) (w : W) : W :=
  let gRate := to_uint8 gRate in
  if negb (Z.land gRate 0x07 =? 0) then
    let '(v, w1) := LSM9DS1_xgReadByte (CTRL_REG1_G H) w in
    let temp := Z.land v (Z.lxor 0xFF (Z.shiftl 0x7 5)) in
    let temp := Z.lor temp (Z.shiftl (Z.land gRate 0x07) 5) in
    let w2 :=
      upd_globals
        (fun g => with_settings
                    (set_g_sampleRate (Z.land gRate 0x07) (settings g)) g) w1 in
    LSM9DS1_xgWriteByte (CTRL_REG1_G H) temp w2
  else w.

Definition LSM9DS1_setAccelODR (aRate : Z) (w : W) : W :=
  let aRate := to_uint8 aRate in
  if negb (Z.land aRate 0x07 =? 0) then
    let '(v, w1) := LSM9DS1_xgReadByte (CTRL_REG6_XL H) w in
    let temp := Z.land v 0x1F in
    let temp := Z.lor temp (Z.shiftl (Z.land aRate 0x07) 5) in
    let w2 :=
      upd_globals
        (fun g => with_settings
                    (set_a_sampleRate (Z.land aRate 0x07) (settings g)) g) w1 in
    LSM9DS1_xgWriteByte (CTRL_REG6_XL H) temp w2
  else w.

Definition LSM9DS1_setMagODR (mRate : Z) (w : W) : W :=
  let mRate := to_uint8 mRate in
  let '(v, w1) := LSM9DS1_mReadByte (CTRL_REG1_M H) w in
  let temp := Z.land v (Z.lxor 0xFF (Z.shiftl 0x7 2)) in
  let temp := Z.lor temp (Z.shiftl (Z.land mRate 0x07) 2) in
  let w2 :=
    upd_globals
      (fun g => with_settings
                  (set_m_sampleRate (Z.land mRate 0x07) (settings g)) g) w1 in
  LSM9DS1_mWriteByte (CTRL_REG1_M H) temp w2.

(** *** FIFO control *)

Definition LSM9DS1_enableFIFO (enable : bool) (w : W) : W :=
  let '(temp, w1) := LSM9DS1_xgReadByte (CTRL_REG9 H) w in
  let temp :=
    if enable then Z.lor temp (Z.shiftl 1 1)
    else Z.land temp (Z.lnot (Z.shiftl 1 1)) in
  LSM9DS1_xgWriteByte (CTRL_REG9 H) temp w1.

Definition LSM9DS1_setFIFO (fifoMode fifoThs : Z) (w : W) : W :=
  let fifoThs := to_uint8 fifoThs in
  let threshold := if fifoThs <=? 0x1F then fifoThs else 0x1F in
  LSM9DS1_xgWriteByte (FIFO_CTRL H)
    (Z.lor (Z.shiftl (Z.land fifoMode 0x7) 5) (Z.land threshold 0x1F)) w.

(** *** Session set-up *)

Definition default_settings (interface : interface_mode) (xgAddr mAddr : Z)
    : IMUSettings :=
  {| device := {| commInterface := interface;
                  agAddress := to_uint8 xgAddr; mAddress := to_uint8 mAddr |};
     gyro := {| g_enabled := true; g_scale := 245; g_sampleRate := 6;
                g_bandwidth := 0; g_lowPowerEnable := false;
                g_HPFEnable := false; g_HPFCutoff := 0;
                g_flipX := false; g_flipY := false; g_flipZ := false;
                g_orientation := 0;
                g_enableX := true; g_enableY := true; g_enableZ := true;
                g_latchInterrupt := true |};
     accel := {| a_enabled := true; a_scale := 2; a_sampleRate := 6;
                 a_enableX := true; a_enableY := true; a_enableZ := true;
                 a_bandwidth := -1; a_highResEnable := false;
                 a_highResBandwidth := 0 |};
     mag := {| m_enabled := true; m_scale := 4; m_sampleRate := 7;
               m_tempCompensationEnable := false;
               m_XYPerformance := 3; m_ZPerformance := 3;
               m_lowPowerEnable := false; m_operatingMode := 0 |};
     temp_enabled := true |}.

Definition LSM9DS1_init (interface : interface_mode) (xgAddr mAddr : Z)
    (w : W) : W :=
  upd_globals
    (fun g =>
       {| settings := default_settings interface xgAddr mAddr;
          gBias := (F32.zero, F32.zero, F32.zero);
          aBias := (F32.zero, F32.zero, F32.zero);
          mBias := (F32.zero, F32.zero, F32.zero);
          gBiasRaw := (0, 0, 0); aBiasRaw := (0, 0, 0); mBiasRaw := (0, 0, 0);
          _mAddress := _mAddress g; _xgAddress := _xgAddress g;
          gRes := gRes g; aRes := aRes g; mRes := mRes g;
          _autoCalc := false |}) w.

Definition bit (b : bool) (n : Z) : Z := if b then Z.shiftl 1 n else 0.

Definition LSM9DS1_initGyro (w : W) : W :=
  let s := gyro (settings (globals w)) in
  (* CTRL_REG1_G *)
  let tempRegValue :=
    if g_enabled s then Z.shiftl (Z.land (g_sampleRate s) 0x07) 5 else 0 in
  let tempRegValue :=
    if g_scale s =? 500 then Z.lor tempRegValue (Z.shiftl 0x1 3)
    else if g_scale s =? 2000 then Z.lor tempRegValue (Z.shiftl 0x3 3)
    else tempRegValue in
  let tempRegValue := Z.lor tempRegValue (Z.land (g_bandwidth s) 0x3) in
  let w := LSM9DS1_xgWriteByte (CTRL_REG1_G H) tempRegValue w in
  (* CTRL_REG2_G *)
  let w := LSM9DS1_xgWriteByte (CTRL_REG2_G H) 0x00 w in
  (* CTRL_REG3_G *)
  let tempRegValue := if g_lowPowerEnable s then Z.shiftl 1 7 else 0 in
  let tempRegValue :=
    if g_HPFEnable s
    then Z.lor tempRegValue
               (Z.lor (Z.shiftl 1 6) (Z.land (g_HPFCutoff s) 0x0F))
    else tempRegValue in
  let w := LSM9DS1_xgWriteByte (CTRL_REG3_G H) tempRegValue w in
  (* CTRL_REG4 *)
  let tempRegValue := 0 in
  let tempRegValue := Z.lor tempRegValue (bit (g_enableZ s) 5) in
  let tempRegValue := Z.lor tempRegValue (bit (g_enableY s) 4) in
  let tempRegValue := Z.lor tempRegValue (bit (g_enableX s) 3) in
  let tempRegValue := Z.lor tempRegValue (bit (g_latchInterrupt s) 1) in
  let w := LSM9DS1_xgWriteByte (CTRL_REG4 H) tempRegValue w in
  (* ORIENT_CFG_G *)
  let tempRegValue := 0 in
  let tempRegValue := Z.lor tempRegValue (bit (g_flipX s) 5) in
  let tempRegValue := Z.lor tempRegValue (bit (g_flipY s) 4) in
  let tempRegValue := Z.lor tempRegValue (bit (g_flipZ s) 3) in
  LSM9DS1_xgWriteByte (ORIENT_CFG_G H) tempRegValue w.

Definition LSM9DS1_initAccel (w : W) : W :=
  let s := accel (settings (globals w)) in
  (* CTRL_REG5_XL *)
  let tempRegValue := 0 in
  let tempRegValue := Z.lor tempRegValue (bit (a_enableZ s) 5) in
  let tempRegValue := Z.lor tempRegValue (bit (a_enableY s) 4) in
  let tempRegValue := Z.lor tempRegValue (bit (a_enableX s) 3) in
  let w := LSM9DS1_xgWriteByte (CTRL_REG5_XL H) tempRegValue w in
  (* CTRL_REG6_XL *)
  let tempRegValue :=
    if a_enabled s then Z.shiftl (Z.land (a_sampleRate s) 0x07) 5 else 0 in
  let tempRegValue :=
    if a_scale s =? 4 then Z.lor tempRegValue (Z.shiftl 0x2 3)
    else if a_scale s =? 8 then Z.lor tempRegValue (Z.shiftl 0x3 3)
    else if a_scale s =? 16 then Z.lor tempRegValue (Z.shiftl 0x1 3)
    else tempRegValue in
  let tempRegValue :=
    if a_bandwidth s >=? 0
    then Z.lor (Z.lor tempRegValue (Z.shiftl 1 2)) (Z.land (a_bandwidth s) 0x03)
    else tempRegValue in
  let w := LSM9DS1_xgWriteByte (CTRL_REG6_XL H) tempRegValue w in
  (* CTRL_REG7_XL *)
  let tempRegValue :=
    if a_highResEnable s
    then Z.lor (Z.shiftl 1 7) (Z.shiftl (Z.land (a_highResBandwidth s) 0x3) 5)
    else 0 in
  LSM9DS1_xgWriteByte (CTRL_REG7_XL H) tempRegValue w.

(** [None]: the open failed and the function spins in [while (i) {}]. *)
Definition LSM9DS1_initI2C (w : W) : option W :=
  let '(rc, d) := I2C_IF_Open bsp (bus w) (I2C_MASTER_MODE_STD H) in
  if rc <? 0 then None else Some (mkWorld (globals w) d (trace w)).

Definition LSM9DS1_initSPI (w : W) : W := w.

(** [None]: the call does not return. *)
Definition LSM9DS1_begin (w : W) : option (Z * W) :=
  let w :=
    upd_globals
      (fun g => with_mAddress (mAddress (device (settings g)))
                  (with_xgAddress (agAddress (device (settings g))) g)) w in
  let w := LSM9DS1_constrainScales w in
  let w := snd (LSM9DS1_calcgRes w) in
  let w := snd (LSM9DS1_calcmRes w) in
  let w := snd (LSM9DS1_calcaRes w) in
  let opened :=
    match iface w with
    | IMU_MODE_I2C => LSM9DS1_initI2C w
    | IMU_MODE_SPI => Some (LSM9DS1_initSPI w)
    end in
  match opened with
  | None => None
  | Some w =>
      let '(mTest, w) := LSM9DS1_mReadByte (WHO_AM_I_M H) w in
      let '(xgTest, w) := LSM9DS1_xgReadByte (WHO_AM_I_XG H) w in
      let whoAmICombined := to_uint16 (Z.lor (Z.shiftl xgTest 8) mTest) in
      let w := LSM9DS1_initGyro w in
      let w := LSM9DS1_initAccel w in
      Some (whoAmICombined, w)
  end.

(** *** Calibration *)

(** [while (samples < 0x1F) samples = xgReadByte(FIFO_SRC) & 0x3F;]
    [None]: the fuel ran out before the FIFO reported 31 samples. *)
Fixpoint calibrate_wait (fuel : nat) (samples : Z) (w : W) : option (Z * W) :=
  if samples <? 0x1F then
    match fuel with
    | O => None
    | S fuel' =>
        let '(v, w1) := LSM9DS1_xgReadByte (FIFO_SRC H) w in
        calibrate_wait fuel' (Z.land v 0x3F) w1
    end
  else Some (samples, w).

(** The accumulation loop, [n] iterations to go.  The sums are [int32_t]. *)
Fixpoint calibrate_accumulate (n : nat) (gBiasRawTemp aBiasRawTemp : arr3 Z)
    (w : W) : (arr3 Z * arr3 Z) * W :=
  match n with
  | O => ((gBiasRawTemp, aBiasRawTemp), w)
  | S n' =>
      let '((gx, gy, gz), w1) := LSM9DS1_readGyro uninit_triplet w in
      let '(g0, g1, g2) := gBiasRawTemp in
      let gT := (to_int32 (g0 + gx), to_int32 (g1 + gy), to_int32 (g2 + gz)) in
      let '((ax, ay, az), w2) := LSM9DS1_readAccel uninit_triplet w1 in
      let '(a0, a1, a2) := aBiasRawTemp in
      let aT :=
        (to_int32 (a0 + ax), to_int32 (a1 + ay),
         to_int32 (a2 + (az - F32.recip_int16 (aRes (globals w2))))) in
      calibrate_accumulate n' gT aT w2
  end.

(** One round of the publishing loop: [ii] is 0, 1 or 2. *)
Definition calibrate_publish (gBiasRawTemp aBiasRawTemp : arr3 Z)
    (samples : Z) (w : W) (ii : Z) : W :=
  let w :=
    upd_globals
      (fun g => with_gBiasRaw
         (set3 (gBiasRaw g) ii (to_int16 (c_div (geti gBiasRawTemp ii) samples)))
         g) w in
  let w :=
    upd_globals
      (fun g => with_gBias
         (set3 (gBias g) ii (LSM9DS1_calcGyro (geti (gBiasRaw g) ii) w)) g) w in
  let w :=
    upd_globals
      (fun g => with_aBiasRaw
         (set3 (aBiasRaw g) ii (to_int16 (c_div (geti aBiasRawTemp ii) samples)))
         g) w in
  upd_globals
    (fun g => with_aBias
       (set3 (aBias g) ii (LSM9DS1_calcAccel (geti (aBiasRaw g) ii) w)) g) w.

Definition LSM9DS1_calibrate (fuel : nat) (autoCalc : bool) (w : W)
    : option W :=
  let w := LSM9DS1_enableFIFO true w in
  let w := LSM9DS1_setFIFO (FIFO_THS H) 0x1F w in
  match calibrate_wait fuel 0 w with
  | None => None
  | Some (samples, w) =>
      let '((gT, aT), w) :=
        calibrate_accumulate (Z.to_nat samples) (0, 0, 0) (0, 0, 0) w in
      let w := fold_left (calibrate_publish gT aT samples) [0; 1; 2] w in
      let w := LSM9DS1_enableFIFO false w in
      let w := LSM9DS1_setFIFO (FIFO_OFF H) 0x00 w in
      Some (if autoCalc then upd_globals (with_autoCalc true) w else w)
  end.

Definition LSM9DS1_magOffset (axis offset : Z) (w : W) : W :=
  let axis := to_uint8 axis in
  if axis >? 2 then w
  else
    let msb := to_uint8 (Z.shiftr (Z.land offset 0xFF00) 8) in
    let lsb := to_uint8 (Z.land offset 0x00FF) in
    let w := LSM9DS1_mWriteByte (OFFSET_X_REG_L_M H + 2 * axis) lsb w in
    LSM9DS1_mWriteByte (OFFSET_X_REG_H_M H + 2 * axis) msb w.

(** [while (!LSM9DS1_magAvailable(ALL_AXIS));]
    [None]: the fuel ran out before the status bit was seen set. *)
Fixpoint calibrateMag_wait (fuel : nat) (w : W) : option W :=
  match fuel with
  | O => None
  | S fuel' =>
      let '(ready, w1) := LSM9DS1_magAvailable (ALL_AXIS H) w in
      if ready =? 0 then calibrateMag_wait fuel' w1 else Some w1
  end.

(** The body of [for (j = 0; j < 3; j++)] in the sampling loop. *)
Definition calibrateMag_track (magTemp : arr3 Z) (mm : arr3 Z * arr3 Z)
    (j : Z) : arr3 Z * arr3 Z :=
  let '(magMin, magMax) := mm in
  let magMax :=
    if geti magTemp j >? geti magMax j then set3 magMax j (geti magTemp j)
    else magMax in
  let magMin :=
    if geti magTemp j <? geti magMin j then set3 magMin j (geti magTemp j)
    else magMin in
  (magMin, magMax).

(** The sampling loop, [n] iterations to go; every wait gets [fuel]. *)
Fixpoint calibrateMag_sample (fuel n : nat) (magMin magMax : arr3 Z) (w : W)
    : option ((arr3 Z * arr3 Z) * W) :=
  match n with
  | O => Some ((magMin, magMax), w)
  | S n' =>
      match calibrateMag_wait fuel w with
      | None => None
      | Some w1 =>
          let '(magTemp, w2) := LSM9DS1_readMag uninit_triplet w1 in
          let '(magMin, magMax) :=
            fold_left (calibrateMag_track magTemp) [0; 1; 2] (magMin, magMax) in
          calibrateMag_sample fuel n' magMin magMax w2
      end
  end.

(** One round of the publishing loop: [j] is 0, 1 or 2. *)
Definition calibrateMag_publish (loadIn : bool) (magMin magMax : arr3 Z)
    (w : W) (j : Z) : W :=
  let w :=
    upd_globals
      (fun g => with_mBiasRaw
         (set3 (mBiasRaw g) j (to_int16 (c_div (geti magMax j + geti magMin j) 2)))
         g) w in
  let w :=
    upd_globals
      (fun g => with_mBias
         (set3 (mBias g) j (LSM9DS1_calcMag (geti (mBiasRaw g) j) w)) g) w in
  if loadIn then LSM9DS1_magOffset j (geti (mBiasRaw (globals w)) j) w else w.

Definition LSM9DS1_calibrateMag (fuel : nat) (loadIn : bool) (w : W)
    : option W :=
  match calibrateMag_sample fuel 128 (0, 0, 0) (0, 0, 0) w with
  | None => None
  | Some ((magMin, magMax), w) =>
      Some (fold_left (calibrateMag_publish loadIn magMin magMax) [0; 1; 2] w)
  end.

End Driver.

(** ** The rest of the driver: status queries, temperature, interrupt
       configuration, magnetometer bring-up *)

(** Modelled from the spec: further constants of [LSM9DS1_Registers.h] and
    [LSM9DS1_Types.h], which are not among the sources, taken as parameters
    like those of [Headers]. *)
Record MoreHeaders : Type := {
  ACT_THS : Z;  ACT_DUR : Z;
  INT_GEN_CFG_XL : Z;  INT_GEN_THS_X_XL : Z;  INT_GEN_DUR_XL : Z;
  INT_GEN_SRC_XL : Z;
  INT_GEN_CFG_G : Z;  INT_GEN_THS_XH_G : Z;  INT_GEN_DUR_G : Z;
  INT_GEN_SRC_G : Z;
  OUT_TEMP_L : Z;  STATUS_REG_0 : Z;  STATUS_REG_1 : Z;  CTRL_REG8 : Z;
  CTRL_REG3_M : Z;  CTRL_REG4_M : Z;  CTRL_REG5_M : Z;
  INT_CFG_M : Z;  INT_SRC_M : Z;  INT_THS_L_M : Z;  INT_THS_H_M : Z;
  (* enum h_lactive *)
  INT_ACTIVE_HIGH : Z
}.

Section DriverRest.

Context {Dev : Type} (bsp : I2C_IF Dev) (H : Headers) (X : MoreHeaders).

Local Abbreviation W := (World Dev).

Definition LSM9DS1_set_mAddress (i_mAddress : Z) (w : W) : W :=
  upd_globals (with_mAddress (to_uint8 i_mAddress)) w.

Definition LSM9DS1_set_xgAddress (i_xgAddress : Z) (w : W) : W :=
  upd_globals (with_xgAddress (to_uint8 i_xgAddress)) w.

Definition LSM9DS1_is_autoCalc (w : W) : bool := _autoCalc (globals w).

Definition LSM9DS1_initMag (w : W) : W :=
  let s := mag (settings (globals w)) in
  (* CTRL_REG1_M *)
  let tempRegValue := 0 in
  let tempRegValue :=
    Z.lor tempRegValue (bit (m_tempCompensationEnable s) 7) in
  let tempRegValue :=
    Z.lor tempRegValue (Z.shiftl (Z.land (m_XYPerformance s) 0x3) 5) in
  let tempRegValue :=
    Z.lor tempRegValue (Z.shiftl (Z.land (m_sampleRate s) 0x7) 2) in
  let w := LSM9DS1_mWriteByte bsp (CTRL_REG1_M H) tempRegValue w in
  (* CTRL_REG2_M *)
  let tempRegValue :=
    if m_scale s =? 8 then Z.lor 0 (Z.shiftl 0x1 5)
    else if m_scale s =? 12 then Z.lor 0 (Z.shiftl 0x2 5)
    else if m_scale s =? 16 then Z.lor 0 (Z.shiftl 0x3 5)
    else 0 in
  let w := LSM9DS1_mWriteByte bsp (CTRL_REG2_M H) tempRegValue w in
  (* CTRL_REG3_M *)
  let tempRegValue := 0 in
  let tempRegValue := Z.lor tempRegValue (bit (m_lowPowerEnable s) 5) in
  let tempRegValue := Z.lor tempRegValue (Z.land (m_operatingMode s) 0x3) in
  let w := LSM9DS1_mWriteByte bsp (CTRL_REG3_M X) tempRegValue w in
  (* CTRL_REG4_M *)
  let tempRegValue := Z.shiftl (Z.land (m_ZPerformance s) 0x3) 2 in
  let w := LSM9DS1_mWriteByte bsp (CTRL_REG4_M X) tempRegValue w in
  (* CTRL_REG5_M *)
  let tempRegValue := 0 in
  LSM9DS1_mWriteByte bsp (CTRL_REG5_M X) tempRegValue w.

Definition LSM9DS1_accelAvailable (w : W) : Z * W :=
  let '(status, w1) := LSM9DS1_xgReadByte bsp (STATUS_REG_1 X) w in
  (to_uint8 (Z.land status (Z.shiftl 1 0)), w1).

Definition LSM9DS1_gyroAvailable (w : W) : Z * W :=
  let '(status, w1) := LSM9DS1_xgReadByte bsp (STATUS_REG_1 X) w in
  (to_uint8 (Z.shiftr (Z.land status (Z.shiftl 1 1)) 1), w1).

Definition LSM9DS1_tempAvailable (w : W) : Z * W :=
  let '(status, w1) := LSM9DS1_xgReadByte bsp (STATUS_REG_1 X) w in
  (to_uint8 (Z.shiftr (Z.land status (Z.shiftl 1 2)) 2), w1).

(** [temperature] is the value the uninitialised local of that name happens
    to hold; it is what the function returns after a short read. *)
Definition LSM9DS1_readTemp (temperature : Z) (w : W) : Z * W :=
  let '((n, temp), w1) :=
    LSM9DS1_xgReadBytes bsp (OUT_TEMP_L X) (uninit_buffer 2) 2 w in
  if n =? 2 then
    let offset := 25 in
    (to_int16
       (offset +
        Z.shiftr (Z.lor (Z.shiftl (to_int16 (nth 1 temp 0)) 8) (nth 0 temp 0))
                 8), w1)
  else (temperature, w1).

(** [_interrupt], [activeLow] and [pushPull] are enumerators; the last two
    are tested for being non-zero. *)
Definition LSM9DS1_configInt (_interrupt generator activeLow pushPull : Z)
    (w : W) : W :=
  let w := LSM9DS1_xgWriteByte bsp _interrupt generator w in
  let '(temp, w) := LSM9DS1_xgReadByte bsp (CTRL_REG8 X) w in
  let temp :=
    if negb (activeLow =? 0) then Z.lor temp (Z.shiftl 1 5)
    else Z.land temp (Z.lnot (Z.shiftl 1 5)) in
  let temp :=
    if negb (pushPull =? 0) then Z.land temp (Z.lnot (Z.shiftl 1 4))
    else Z.lor temp (Z.shiftl 1 4) in
  LSM9DS1_xgWriteByte bsp (CTRL_REG8 X) temp w.

Definition LSM9DS1_configInactivity (duration threshold : Z) (sleepOn : bool)
    (w : W) : W :=
  let threshold := to_uint8 threshold in
  let temp := Z.land threshold 0x7F in
  let temp := if sleepOn then Z.lor temp (Z.shiftl 1 7) else temp in
  let w := LSM9DS1_xgWriteByte bsp (ACT_THS X) temp w in
  LSM9DS1_xgWriteByte bsp (ACT_DUR X) duration w.

Definition LSM9DS1_getInactivity (w : W) : Z * W :=
  let '(temp, w1) := LSM9DS1_xgReadByte bsp (STATUS_REG_0 X) w in
  (Z.land temp 0x10, w1).

Definition LSM9DS1_configAccelInt (generator : Z) (andInterrupts : bool)
    (w : W) : W :=
  let temp := to_uint8 generator in
  let temp := if andInterrupts then Z.lor temp 0x80 else temp in
  LSM9DS1_xgWriteByte bsp (INT_GEN_CFG_XL X) temp w.

Definition LSM9DS1_configAccelThs (threshold axis duration : Z) (wait : bool)
    (w : W) : W :=
  let duration := to_uint8 duration in
  let w := LSM9DS1_xgWriteByte bsp (INT_GEN_THS_X_XL X + axis) threshold w in
  let temp := Z.land duration 0x7F in
  let temp := if wait then Z.lor temp 0x80 else temp in
  LSM9DS1_xgWriteByte bsp (INT_GEN_DUR_XL X) temp w.

Definition LSM9DS1_getAccelIntSrc (w : W) : Z * W :=
  let '(intSrc, w1) := LSM9DS1_xgReadByte bsp (INT_GEN_SRC_XL X) w in
  if negb (Z.land intSrc (Z.shiftl 1 6) =? 0)
  then (Z.land intSrc 0x3F, w1)
  else (0, w1).

Definition LSM9DS1_configGyroInt (generator : Z) (aoi latch : bool) (w : W)
    : W :=
  let temp := to_uint8 generator in
  let temp := if aoi then Z.lor temp 0x80 else temp in
  let temp := if latch then Z.lor temp 0x40 else temp in
  LSM9DS1_xgWriteByte bsp (INT_GEN_CFG_G X) temp w.

Definition LSM9DS1_configGyroThs (threshold axis duration : Z) (wait : bool)
    (w : W) : W :=
  let threshold := to_int16 threshold in
  let duration := to_uint8 duration in
  let buffer0 := to_uint8 (Z.shiftr (Z.land threshold 0x7F00) 8) in
  let buffer1 := to_uint8 (Z.land threshold 0x00FF) in
  let w :=
    LSM9DS1_xgWriteByte bsp (INT_GEN_THS_XH_G X + axis * 2) buffer0 w in
  let w :=
    LSM9DS1_xgWriteByte bsp (INT_GEN_THS_XH_G X + 1 + axis * 2) buffer1 w in
  let temp := Z.land duration 0x7F in
  let temp := if wait then Z.lor temp 0x80 else temp in
  LSM9DS1_xgWriteByte bsp (INT_GEN_DUR_G X) temp w.

Definition LSM9DS1_getGyroIntSrc (w : W) : Z * W :=
  let '(intSrc, w1) := LSM9DS1_xgReadByte bsp (INT_GEN_SRC_G X) w in
  if negb (Z.land intSrc (Z.shiftl 1 6) =? 0)
  then (Z.land intSrc 0x3F, w1)
  else (0, w1).

Definition LSM9DS1_configMagInt (generator activeLow : Z) (latch : bool)
    (w : W) : W :=
  let generator := to_uint8 generator in
  let config := Z.land generator 0xE0 in
  let config :=
    if activeLow =? INT_ACTIVE_HIGH X then Z.lor config (Z.shiftl 1 2)
    else config in
  let config := if negb latch then Z.lor config (Z.shiftl 1 1) else config in
  let config :=
    if negb (generator =? 0) then Z.lor config (Z.shiftl 1 0) else config in
  LSM9DS1_mWriteByte bsp (INT_CFG_M X) config w.

Definition LSM9DS1_configMagThs (threshold : Z) (w : W) : W :=
  let threshold := to_uint16 threshold in
  let w :=
    LSM9DS1_mWriteByte bsp (INT_THS_H_M X)
      (Z.shiftr (Z.land threshold 0x7F00) 8) w in
  LSM9DS1_mWriteByte bsp (INT_THS_L_M X) (Z.land threshold 0x00FF) w.

Definition LSM9DS1_getMagIntSrc (w : W) : Z * W :=
  let '(intSrc, w1) := LSM9DS1_mReadByte bsp (INT_SRC_M X) w in
  if negb (Z.land intSrc (Z.shiftl 1 0) =? 0)
  then (Z.land intSrc 0xFE, w1)
  else (0, w1).

Definition LSM9DS1_sleepGyro (enable : bool) (w : W) : W :=
  let '(temp, w1) := LSM9DS1_xgReadByte bsp (CTRL_REG9 H) w in
  let temp :=
    if enable then Z.lor temp (Z.shiftl 1 6)
    else Z.land temp (Z.lnot (Z.shiftl 1 6)) in
  LSM9DS1_xgWriteByte bsp (CTRL_REG9 H) temp w1.

Definition LSM9DS1_getFIFOSamples (w : W) : Z * W :=
  let '(v, w1) := LSM9DS1_xgReadByte bsp (FIFO_SRC H) w in
  (Z.land v 0x3F, w1).

End DriverRest.

(** ** Words used by the statements *)

Definition zsum (l : list Z) : Z := fold_right Z.add 0 l.

Definition fst3 {A : Type} (a : arr3 A) : A := let '(x, _, _) := a in x.
Definition snd3 {A : Type} (a : arr3 A) : A := let '(_, y, _) := a in y.
Definition thd3 {A : Type} (a : arr3 A) : A := let '(_, _, z) := a in z.

Definition int16_triplet (a : arr3 Z) : Prop :=
  is_int16 (fst3 a) /\ is_int16 (snd3 a) /\ is_int16 (thd3 a).

Definition map3 {A B : Type} (f : A -> B) (a : arr3 A) : arr3 B :=
  (f (fst3 a), f (snd3 a), f (thd3 a)).

(** The three little-endian samples of a six-byte burst. *)
Definition decode3 (temp : list Z) : arr3 Z :=
  (le16 temp 0, le16 temp 2, le16 temp 4).

(** The registers written by the requests of a log, in order. *)
Definition written_registers (tr : list Event) : list Z :=
  flat_map (fun e => match e with
                     | EvWrite _ _ r _ => [r]
                     | EvRead _ _ _ _ _ => []
                     end) tr.

(** Running extremes of the magnetometer calibration: both start from 0. *)
Definition running_max (l : list Z) : Z := fold_left Z.max l 0.
Definition running_min (l : list Z) : Z := fold_left Z.min l 0.

(** The supported scales of the three sensors. *)
Definition gyro_scale_supported (s : Z) : Prop := s = 245 \/ s = 500 \/ s = 2000.
Definition accel_scale_supported (s : Z) : Prop :=
  s = 2 \/ s = 4 \/ s = 8 \/ s = 16.
Definition mag_scale_supported (s : Z) : Prop :=
  s = 4 \/ s = 8 \/ s = 12 \/ s = 16.

(** The log entries of a run of register writes to one device. *)
Definition writes_to (via : interface_mode) (address : Z)
    (regs values : list Z) : list Event :=
  map (fun rv => EvWrite via address (to_uint8 (fst rv)) (snd rv))
      (combine regs values).

Section Vocabulary.

Context {Dev : Type} (bsp : I2C_IF Dev) (H : Headers).

Definition gScale (w : World Dev) : Z := g_scale (gyro (settings (globals w))).
Definition aScale (w : World Dev) : Z := a_scale (accel (settings (globals w))).
Definition mScale (w : World Dev) : Z := m_scale (mag (settings (globals w))).

(** The registers [LSM9DS1_initGyro] and [LSM9DS1_initAccel] write, in
    order. *)
Definition gyro_init_registers : list Z :=
  [CTRL_REG1_G H; CTRL_REG2_G H; CTRL_REG3_G H; CTRL_REG4 H; ORIENT_CFG_G H].

Definition accel_init_registers : list Z :=
  [CTRL_REG5_XL H; CTRL_REG6_XL H; CTRL_REG7_XL H].

(** The sensitivity documented for each supported scale; any other scale is
    given the constant of the default scale. *)
Definition gyro_sensitivity (scale : Z) : F32.float :=
  if scale =? 500 then SENSITIVITY_GYROSCOPE_500
  else if scale =? 2000 then SENSITIVITY_GYROSCOPE_2000
  else SENSITIVITY_GYROSCOPE_245.

Definition accel_sensitivity (scale : Z) : F32.float :=
  if scale =? 4 then SENSITIVITY_ACCELEROMETER_4
  else if scale =? 8 then SENSITIVITY_ACCELEROMETER_8
  else if scale =? 16 then SENSITIVITY_ACCELEROMETER_16
  else SENSITIVITY_ACCELEROMETER_2.

Definition mag_sensitivity (scale : Z) : F32.float :=
  if scale =? 8 then SENSITIVITY_MAGNETOMETER_8
  else if scale =? 12 then SENSITIVITY_MAGNETOMETER_12
  else if scale =? 16 then SENSITIVITY_MAGNETOMETER_16
  else SENSITIVITY_MAGNETOMETER_4.

(** A raw triplet with a bias triplet subtracted in [int16_t] arithmetic. *)
Definition sub_bias (raw bias : arr3 Z) : arr3 Z :=
  (to_int16 (fst3 raw - fst3 bias),
   to_int16 (snd3 raw - snd3 bias),
   to_int16 (thd3 raw - thd3 bias)).

(** The burst a triplet reader and a single-axis reader request from the
    accelerometer/gyroscope and from the magnetometer. *)
Definition xg_burst6 (reg : Z) (w : World Dev) : (Z * list Z) * World Dev :=
  LSM9DS1_xgReadBytes bsp reg (uninit_buffer 6) 6 w.
Definition xg_burst2 (reg axis : Z) (w : World Dev) : (Z * list Z) * World Dev :=
  LSM9DS1_xgReadBytes bsp (reg + 2 * axis) (uninit_buffer 2) 2 w.
Definition m_burst6 (reg : Z) (w : World Dev) : (Z * list Z) * World Dev :=
  LSM9DS1_mReadBytes bsp reg (uninit_buffer 6) 6 w.
Definition m_burst2 (reg axis : Z) (w : World Dev) : (Z * list Z) * World Dev :=
  LSM9DS1_mReadBytes bsp (reg + 2 * axis) (uninit_buffer 2) 2 w.

(** The number of bytes a burst reports and the bytes it delivers. *)
Definition reported {A B : Type} (r : (Z * A) * B) : Z := fst (fst r).
Definition delivered {A B : Type} (r : (Z * A) * B) : A := snd (fst r).

(** The FIFO batch of a calibration: the gyroscope and accelerometer
    triplets that [n] rounds of [LSM9DS1_readGyro] followed by
    [LSM9DS1_readAccel] hand back, in order, and the session after them. *)
Fixpoint fifo_batch (n : nat) (w : World Dev)
    : list (arr3 Z * arr3 Z) * World Dev :=
  match n with
  | O => ([], w)
  | S n' =>
      let '(g, w1) := LSM9DS1_readGyro bsp H uninit_triplet w in
      let '(a, w2) := LSM9DS1_readAccel bsp H uninit_triplet w1 in
      let '(rest, w3) := fifo_batch n' w2 in
      ((g, a) :: rest, w3)
  end.

(** The session in which the calibration poll has just succeeded, with the
    fill level it observed. *)
Definition fifo_filled (fuel : nat) (w : World Dev) : option (Z * World Dev) :=
  calibrate_wait bsp H fuel 0
    (LSM9DS1_setFIFO bsp H (FIFO_THS H) 0x1F (LSM9DS1_enableFIFO bsp H true w)).

End Vocabulary.

(** Per-axis sums over a batch. *)
Definition gyro_x (s : arr3 Z * arr3 Z) : Z := fst3 (fst s).
Definition gyro_y (s : arr3 Z * arr3 Z) : Z := snd3 (fst s).
Definition gyro_z (s : arr3 Z * arr3 Z) : Z := thd3 (fst s).
Definition accel_x (s : arr3 Z * arr3 Z) : Z := fst3 (snd s).
Definition accel_y (s : arr3 Z * arr3 Z) : Z := snd3 (snd s).
Definition accel_z (s : arr3 Z * arr3 Z) : Z := thd3 (snd s).

Definition sum_of (f : arr3 Z * arr3 Z -> Z) (batch : list (arr3 Z * arr3 Z))
    : Z :=
  zsum (map f batch).

(** *** The shape of the magnetometer sampling phase in the log *)

Section MagRounds.

Variables (H : Headers) (via : interface_mode) (address : Z).

(** A wait: status reads that find the any-axis data-ready bit clear,
    closed by one that finds it set. *)
Inductive mag_wait : list Event -> Prop :=
| mag_wait_ready (st : Z) :
    Z.testbit st (ALL_AXIS H) = true ->
    mag_wait [EvRead via address (to_uint8 (STATUS_REG_M H)) 1 [st]]
| mag_wait_busy (st : Z) (tr : list Event) :
    Z.testbit st (ALL_AXIS H) = false ->
    mag_wait tr ->
    mag_wait (EvRead via address (to_uint8 (STATUS_REG_M H)) 1 [st] :: tr).

(** A round: a wait, then one six-byte burst from the output registers; the
    sample of the round is the decoded burst. *)
Inductive mag_round : list Event -> arr3 Z -> Prop :=
| mag_round_intro (tw : list Event) (temp : list Z) :
    mag_wait tw ->
    length temp = 6%nat ->
    mag_round (tw ++ [EvRead via address (to_uint8 (OUT_X_L_M H)) 6 temp])
              (decode3 temp).

(** A run of rounds, with the samples in order. *)
Inductive mag_rounds : list Event -> list (arr3 Z) -> Prop :=
| mag_rounds_nil : mag_rounds [] []
| mag_rounds_cons (tr1 tr : list Event) (s : arr3 Z) (ss : list (arr3 Z)) :
    mag_round tr1 s ->
    mag_rounds tr ss ->
    mag_rounds (tr1 ++ tr) (s :: ss).

(** The six writes that load a raw offset triplet into the offset-trim
    registers: per axis the low byte, then the high byte, axis by axis at a
    stride of two registers. *)
Definition offset_writes (raw : arr3 Z) : list Event :=
  flat_map
    (fun ja =>
       [EvWrite via address (to_uint8 (OFFSET_X_REG_L_M H + 2 * fst ja))
                (snd ja mod 256);
        EvWrite via address (to_uint8 (OFFSET_X_REG_H_M H + 2 * fst ja))
                ((snd ja / 256) mod 256)])
    [(0, fst3 raw); (1, snd3 raw); (2, thd3 raw)].

End MagRounds.

(** The hard-iron offset of one axis over a list of samples. *)
Definition mag_offset (axis : arr3 Z -> Z) (samples : list (arr3 Z)) : Z :=
  c_div (running_max (map axis samples) + running_min (map axis samples)) 2.

(** The extremes after a list of samples, from given starting values. *)
Definition extremes (mn mx : arr3 Z) (samples : list (arr3 Z))
    : arr3 Z * arr3 Z :=
  ((fold_left Z.min (map fst3 samples) (fst3 mn),
    fold_left Z.min (map snd3 samples) (snd3 mn),
    fold_left Z.min (map thd3 samples) (thd3 mn)),
   (fold_left Z.max (map fst3 samples) (fst3 mx),
    fold_left Z.max (map snd3 samples) (snd3 mx),
    fold_left Z.max (map thd3 samples) (thd3 mx))).

(** *** Register fields *)

(** The session [w'] differs from [w] in the log by one read of register
    [reg] of the device at [address], which handed back [r], followed by one
    write to the same register of a byte that carries [field] in the bits of
    [mask] and agrees with [r] in every other bit. *)
Definition rewrites_field {Dev : Type} (w w' : World Dev)
    (address reg r mask field : Z) : Prop :=
  exists v,
    trace w' =
      trace w ++
      [EvRead (commInterface (device (settings (globals w)))) address
              (to_uint8 reg) 1 [r];
       EvWrite (commInterface (device (settings (globals w)))) address
               (to_uint8 reg) v] /\
    Z.land v mask = field /\
    Z.land v (255 - mask) = Z.land r (255 - mask).

(** The full-scale field encodings the scale setters write. *)
Definition gyro_scale_bits (scale : Z) : Z :=
  if scale =? 500 then Z.shiftl 0x1 3
  else if scale =? 2000 then Z.shiftl 0x3 3 else 0.

Definition accel_scale_bits (scale : Z) : Z :=
  if scale =? 4 then Z.shiftl 0x2 3
  else if scale =? 8 then Z.shiftl 0x3 3
  else if scale =? 16 then Z.shiftl 0x1 3 else 0.

Definition mag_scale_bits (scale : Z) : Z :=
  if scale =? 8 then Z.shiftl 0x1 5
  else if scale =? 12 then Z.shiftl 0x2 5
  else if scale =? 16 then Z.shiftl 0x3 5 else 0.

(** *** Raw FIFO contents *)

Section RawBatch.

Context {Dev : Type} (bsp : I2C_IF Dev) (H : Headers).

(** The decoded bursts of [n] rounds, one from the gyroscope output
    registers and one from the accelerometer output registers per round,
    before any bias is subtracted. *)
Fixpoint raw_batch (n : nat) (w : World Dev) : list (arr3 Z * arr3 Z) :=
  match n with
  | O => []
  | S n' =>
      let r1 := xg_burst6 bsp (OUT_X_L_G H) w in
      let r2 := xg_burst6 bsp (OUT_X_L_XL H) (snd r1) in
      (decode3 (delivered r1), decode3 (delivered r2))
        :: raw_batch n' (snd r2)
  end.

End RawBatch.

(** The registers [LSM9DS1_initMag] writes, in order. *)
Definition mag_init_registers (H : Headers) (X : MoreHeaders) : list Z :=
  [CTRL_REG1_M H; CTRL_REG2_M H; CTRL_REG3_M X; CTRL_REG4_M X; CTRL_REG5_M X].

(** The write requests of a log. *)
Definition writes_of (tr : list Event) : list Event := filter is_write tr.

(** All bytes, for properties decided by trying every byte. *)
Definition all_bytes : list Z := map Z.of_nat (seq 0 256).

(** ** A simulated sensor for the worked examples *)

(** The headers with the register addresses of the LSM9DS1 datasheet. *)
Definition datasheet : Headers :=
  {| WHO_AM_I_XG := 0x0F;  WHO_AM_I_M := 0x0F;
     WHO_AM_I_AG_RSP := 0x68;  WHO_AM_I_M_RSP := 0x3D;
     CTRL_REG1_G := 0x10;  CTRL_REG2_G := 0x11;  CTRL_REG3_G := 0x12;
     ORIENT_CFG_G := 0x13;
     CTRL_REG4 := 0x1E;  CTRL_REG5_XL := 0x1F;  CTRL_REG6_XL := 0x20;
     CTRL_REG7_XL := 0x21;
     CTRL_REG9 := 0x23;  FIFO_CTRL := 0x2E;  FIFO_SRC := 0x2F;
     OUT_X_L_G := 0x18;  OUT_X_L_XL := 0x28;
     OFFSET_X_REG_L_M := 0x05;  OFFSET_X_REG_H_M := 0x06;
     CTRL_REG1_M := 0x20;  CTRL_REG2_M := 0x21;  STATUS_REG_M := 0x27;
     OUT_X_L_M := 0x28;
     FIFO_OFF := 0;  FIFO_THS := 1;
     ALL_AXIS := 3;
     I2C_MASTER_MODE_STD := 0 |}.

(** A sensor whose registers answer by a fixed rule: the [n]-th read request
    of the session finds [regs n address r] in register [r] of the device at
    [address].  Writes are acknowledged and ignored; opening the bus yields
    [open_rc]. *)
Definition sensor (open_rc : Z) (regs : nat -> Z -> Z -> Z) : I2C_IF nat :=
  {| I2C_IF_Open := fun n _ => (open_rc, n);
     I2C_IF_Write := fun n _ _ _ => (0, n);
     I2C_IF_ReadFrom := fun n address wr count =>
       ((0, map (fun i => regs n address (hd 0 wr + Z.of_nat i))
                (seq 0 (Z.to_nat count))), S n) |}.

(** The statics of the C file before any call: everything is zero. *)
Definition zeroed : Globals :=
  {| settings := default_settings IMU_MODE_SPI 0 0;
     gBias := (F32.zero, F32.zero, F32.zero);
     aBias := (F32.zero, F32.zero, F32.zero);
     mBias := (F32.zero, F32.zero, F32.zero);
     gBiasRaw := (0, 0, 0); aBiasRaw := (0, 0, 0); mBiasRaw := (0, 0, 0);
     _mAddress := 0; _xgAddress := 0;
     gRes := F32.zero; aRes := F32.zero; mRes := F32.zero;
     _autoCalc := false |}.

(** A session after [LSM9DS1_init(interface, 0x6B, 0x1E)]. *)
Definition power_on (interface : interface_mode) : World nat :=
  LSM9DS1_init interface 0x6B 0x1E (mkWorld zeroed O []).

(** A bench sensor that always answers the same: both identity registers
    hold the expected values, the FIFO reports 31 samples, the gyroscope
    reads (5, 0, 0), the accelerometer reads (0, 0, -32768) (Z saturated),
    and the magnetometer has data ready and reads (-100, 0, 0). *)
Definition bench_regs (n : nat) (address r : Z) : Z :=
  if address =? 0x6B then
    if r =? 0x0F then 0x68
    else if r =? 0x2F then 0x1F
    else if r =? 0x18 then 0x05
    else if r =? 0x2D then 0x80
    else 0
  else
    if r =? 0x0F then 0x3D
    else if r =? 0x27 then 0x08
    else if r =? 0x28 then 0x9C
    else if r =? 0x29 then 0xFF
    else 0.

Definition bench : I2C_IF nat := sensor 0 bench_regs.

(** A foreign device that answers 1 to every read. *)
Definition foreign : I2C_IF nat := sensor 0 (fun _ _ _ => 1).

Definition after {A : Type} (r : option A) (otherwise : A) : A :=
  match r with Some a => a | None => otherwise end.

(** Sessions on the bench: powered on over I2C and over SPI, brought up,
    calibrated with auto-calibration, and magnetometer-calibrated with the
    offsets loaded into the sensor. *)
Definition w_on : World nat := power_on IMU_MODE_I2C.
Definition w_spi : World nat := power_on IMU_MODE_SPI.
Definition w_begun : World nat :=
  after (option_map snd (LSM9DS1_begin bench datasheet w_on)) w_on.
Definition w_calibrated : World nat :=
  after (LSM9DS1_calibrate bench datasheet 1 true w_begun) w_begun.
Definition w_magcal : World nat :=
  after (LSM9DS1_calibrateMag bench datasheet 1 true w_begun) w_begun.

(** A session whose settings were filled with unsupported scales. *)
Definition w_odd_scales : World nat :=
  upd_globals
    (fun g => with_settings
                (set_g_scale 1000 (set_a_scale 3 (set_m_scale 5 (settings g))))
                g) w_on.

(** The remaining register addresses of the datasheet. *)
Definition datasheet_rest : MoreHeaders :=
  {| ACT_THS := 0x04;  ACT_DUR := 0x05;
     INT_GEN_CFG_XL := 0x06;  INT_GEN_THS_X_XL := 0x07;
     INT_GEN_DUR_XL := 0x0A;  INT_GEN_SRC_XL := 0x26;
     INT_GEN_CFG_G := 0x30;  INT_GEN_THS_XH_G := 0x31;
     INT_GEN_DUR_G := 0x37;  INT_GEN_SRC_G := 0x14;
     OUT_TEMP_L := 0x15;  STATUS_REG_0 := 0x17;  STATUS_REG_1 := 0x27;
     CTRL_REG8 := 0x22;
     CTRL_REG3_M := 0x22;  CTRL_REG4_M := 0x23;  CTRL_REG5_M := 0x24;
     INT_CFG_M := 0x30;  INT_SRC_M := 0x31;
     INT_THS_L_M := 0x32;  INT_THS_H_M := 0x33;
     INT_ACTIVE_HIGH := 0 |}.

(** The bench session calibrated a second time, auto-calibration being
    active from the first run. *)
Definition w_recalibrated : World nat :=
  after (LSM9DS1_calibrate bench datasheet 1 false w_calibrated) w_calibrated.

(** * Properties *)

(** ** Fixed-width arithmetic *)

Lemma to_uint8_range (z : Z) : 0 <= to_uint8 z <= 255.
Proof. unfold to_uint8. pose proof (Z.mod_pos_bound z 256). lia. Qed.

Lemma to_uint8_id (z : Z) : 0 <= z <= 255 -> to_uint8 z = z.
Proof. intros Hz. unfold to_uint8. apply Z.mod_small. lia. Qed.

Lemma to_uint8_idem (z : Z) : to_uint8 (to_uint8 z) = to_uint8 z.
Proof. apply to_uint8_id, to_uint8_range. Qed.

Lemma to_int16_range (z : Z) : is_int16 (to_int16 z).
Proof.
  unfold is_int16, to_int16. pose proof (Z.mod_pos_bound (z + 32768) 65536). lia.
Qed.

Lemma to_int16_id (z : Z) : is_int16 z -> to_int16 z = z.
Proof.
  unfold is_int16, to_int16. intros Hz.
  rewrite Z.mod_small by lia. lia.
Qed.

Lemma to_int16_idem (z : Z) : to_int16 (to_int16 z) = to_int16 z.
Proof. apply to_int16_id, to_int16_range. Qed.

Lemma to_int16_sub_self (z : Z) : to_int16 (z - z) = 0.
Proof. rewrite Z.sub_diag. reflexivity. Qed.

Lemma to_int32_id (z : Z) :
  -2147483648 <= z <= 2147483647 -> to_int32 z = z.
Proof.
  unfold to_int32. intros Hz. rewrite Z.mod_small by lia. lia.
Qed.

Lemma le16_range (temp : list Z) (i : nat) : is_int16 (le16 temp i).
Proof. apply to_int16_range. Qed.

Lemma recip_int16_range (r : F32.float) : is_int16 (F32.recip_int16 r).
Proof.
  unfold F32.recip_int16.
  destruct (F32.trunc _); [apply to_int16_range | unfold is_int16; lia].
Qed.

(** The mean of [n] values that fit an [int16_t] fits an [int16_t]. *)
Lemma c_div_mean_range (s n : Z) :
  0 < n -> -32768 * n <= s <= 32767 * n -> is_int16 (c_div s n).
Proof.
  intros Hn Hs. unfold is_int16, c_div.
  split.
  - destruct (Z.le_gt_cases 0 s) as [Hpos | Hneg].
    + pose proof (Z.quot_pos s n Hpos Hn). lia.
    + assert (Hq : Z.quot (- s) n <= 32768).
      { apply Z.quot_le_upper_bound; lia. }
      rewrite Z.quot_opp_l in Hq by lia. lia.
  - destruct (Z.le_gt_cases 0 s) as [Hpos | Hneg].
    + apply Z.quot_le_upper_bound; lia.
    + assert (Hq : 0 <= Z.quot (- s) n) by (apply Z.quot_pos; lia).
      rewrite Z.quot_opp_l in Hq by lia. lia.
Qed.

Lemma c_div_mul (v n : Z) : n <> 0 -> c_div (n * v) n = v.
Proof. intros Hn. unfold c_div. rewrite Z.mul_comm. apply Z.quot_mul. exact Hn. Qed.

(** [(hi << 8) | lo] with [lo] a byte is [256 * hi + lo]. *)
Lemma lor_shiftl_byte (hi lo : Z) :
  0 <= lo <= 255 -> Z.lor (Z.shiftl hi 8) lo = 256 * hi + lo.
Proof.
  intros Hlo.
  assert (Hland : Z.land (Z.shiftl hi 8) lo = 0).
  { assert (Hmask : lo = Z.land (Z.ones 8) lo).
    { rewrite Z.land_comm, Z.land_ones by lia. symmetry.
      apply Z.mod_small. change (2 ^ 8) with 256. lia. }
    rewrite Hmask, Z.land_assoc, Z.land_ones by lia.
    rewrite Z.shiftl_mul_pow2 by lia.
    rewrite Z.mod_mul by (change (2 ^ 8) with 256; lia).
    reflexivity. }
  pose proof (Z.add_lor_land (Z.shiftl hi 8) lo) as Hadd.
  rewrite Hland in Hadd.
  assert (Hsh : Z.shiftl hi 8 = 256 * hi).
  { rewrite Z.shiftl_mul_pow2 by lia. change (2 ^ 8) with 256. lia. }
  lia.
Qed.

Section Properties.

Context {Dev : Type} (bsp : I2C_IF Dev) (H : Headers).

Local Abbreviation W := (World Dev).

(** ** Transport: what a register access does to the session *)

Ltac shim :=
  unfold LSM9DS1_xgWriteByte, LSM9DS1_mWriteByte, LSM9DS1_xgReadByte,
    LSM9DS1_mReadByte, LSM9DS1_xgReadBytes, LSM9DS1_mReadBytes,
    LSM9DS1_I2CwriteByte, LSM9DS1_SPIwriteByte, LSM9DS1_I2CreadByte,
    LSM9DS1_SPIreadByte, LSM9DS1_I2CreadBytes, LSM9DS1_SPIreadBytes,
    transported, iface;
  repeat match goal with
         | |- context [match commInterface ?x with _ => _ end] =>
             destruct (commInterface x) eqn:?
         | |- context [I2C_IF_Write ?b ?d ?a ?l ?s] =>
             destruct (I2C_IF_Write b d a l s) as [? ?]
         | |- context [I2C_IF_ReadFrom ?b ?d ?a ?l ?c] =>
             destruct (I2C_IF_ReadFrom b d a l c) as [[? ?] ?]
         end;
  cbn [fst snd globals trace bus].

Lemma xgWriteByte_globals (s d : Z) (w : W) :
  globals (LSM9DS1_xgWriteByte bsp s d w) = globals w.
Proof. shim; reflexivity. Qed.

Lemma mWriteByte_globals (s d : Z) (w : W) :
  globals (LSM9DS1_mWriteByte bsp s d w) = globals w.
Proof. shim; reflexivity. Qed.

Lemma xgWriteByte_trace (s d : Z) (w : W) :
  trace (LSM9DS1_xgWriteByte bsp s d w) =
  trace w ++ [EvWrite (iface w) (_xgAddress (globals w)) (to_uint8 s) (to_uint8 d)].
Proof. shim; reflexivity. Qed.

Lemma mWriteByte_trace (s d : Z) (w : W) :
  trace (LSM9DS1_mWriteByte bsp s d w) =
  trace w ++ [EvWrite (iface w) (_mAddress (globals w)) (to_uint8 s) (to_uint8 d)].
Proof. shim; reflexivity. Qed.

Lemma xgReadByte_globals (s : Z) (w : W) :
  globals (snd (LSM9DS1_xgReadByte bsp s w)) = globals w.
Proof. shim; reflexivity. Qed.

Lemma mReadByte_globals (s : Z) (w : W) :
  globals (snd (LSM9DS1_mReadByte bsp s w)) = globals w.
Proof. shim; reflexivity. Qed.

Lemma xgReadByte_range (s : Z) (w : W) :
  0 <= fst (LSM9DS1_xgReadByte bsp s w) <= 255.
Proof. shim; try apply to_uint8_range; lia. Qed.

Lemma mReadByte_range (s : Z) (w : W) :
  0 <= fst (LSM9DS1_mReadByte bsp s w) <= 255.
Proof. shim; try apply to_uint8_range; lia. Qed.

(** A register read appends one read request, carrying the byte handed
    back, and nothing else. *)
Lemma xgReadByte_trace (s : Z) (w : W) :
  trace (snd (LSM9DS1_xgReadByte bsp s w)) =
  trace w ++ [EvRead (iface w) (_xgAddress (globals w)) (to_uint8 s) 1
                     [fst (LSM9DS1_xgReadByte bsp s w)]].
Proof. shim; reflexivity. Qed.

Lemma mReadByte_trace (s : Z) (w : W) :
  trace (snd (LSM9DS1_mReadByte bsp s w)) =
  trace w ++ [EvRead (iface w) (_mAddress (globals w)) (to_uint8 s) 1
                     [fst (LSM9DS1_mReadByte bsp s w)]].
Proof. shim; reflexivity. Qed.

Lemma xgReadBytes_globals (s : Z) (dest : list Z) (c : Z) (w : W) :
  globals (snd (LSM9DS1_xgReadBytes bsp s dest c w)) = globals w.
Proof. shim; reflexivity. Qed.

Lemma mReadBytes_globals (s : Z) (dest : list Z) (c : Z) (w : W) :
  globals (snd (LSM9DS1_mReadBytes bsp s dest c w)) = globals w.
Proof. shim; reflexivity. Qed.

(** Over I2C a burst read reports the requested count whatever the bus did;
    over the SPI stubs it reports 0. *)
Lemma xgReadBytes_count (s : Z) (dest : list Z) (c : Z) (w : W) :
  fst (fst (LSM9DS1_xgReadBytes bsp s dest c w)) =
  match iface w with IMU_MODE_I2C => to_uint8 c | IMU_MODE_SPI => 0 end.
Proof. shim; reflexivity. Qed.

Lemma mReadBytes_count (s : Z) (dest : list Z) (c : Z) (w : W) :
  fst (fst (LSM9DS1_mReadBytes bsp s dest c w)) =
  match iface w with IMU_MODE_I2C => to_uint8 c | IMU_MODE_SPI => 0 end.
Proof. shim; reflexivity. Qed.

Lemma iface_globals (w w' : W) : globals w' = globals w -> iface w' = iface w.
Proof. unfold iface. intros ->. reflexivity. Qed.

Lemma xgWriteByte_iface (s d : Z) (w : W) :
  iface (LSM9DS1_xgWriteByte bsp s d w) = iface w.
Proof. apply iface_globals, xgWriteByte_globals. Qed.

Lemma mWriteByte_iface (s d : Z) (w : W) :
  iface (LSM9DS1_mWriteByte bsp s d w) = iface w.
Proof. apply iface_globals, mWriteByte_globals. Qed.

Lemma xgReadByte_iface (s : Z) (w : W) :
  iface (snd (LSM9DS1_xgReadByte bsp s w)) = iface w.
Proof. apply iface_globals, xgReadByte_globals. Qed.

Lemma mReadByte_iface (s : Z) (w : W) :
  iface (snd (LSM9DS1_mReadByte bsp s w)) = iface w.
Proof. apply iface_globals, mReadByte_globals. Qed.

(** Rewrites a chain of register accesses down to the session they start
    from. *)
Ltac session :=
  repeat (progress
            rewrite ?xgWriteByte_trace, ?mWriteByte_trace, ?xgReadByte_trace,
              ?mReadByte_trace, ?xgWriteByte_iface, ?mWriteByte_iface,
              ?xgReadByte_iface, ?mReadByte_iface, ?xgWriteByte_globals,
              ?mWriteByte_globals, ?xgReadByte_globals, ?mReadByte_globals);
  rewrite <- ?app_assoc; cbn [app].

(** ** FIFO control register *)

Lemma fifo_byte_bits (m t : Z) :
  0 <= t <= 31 ->
  let v := Z.lor (Z.shiftl (Z.land m 7) 5) t in
  0 <= v <= 255 /\ Z.shiftr v 5 = Z.land m 7 /\ Z.land v 31 = t.
Proof.
  intros Ht v. subst v.
  assert (Hm : 0 <= Z.land m 7 < 8).
  { change 7 with (Z.ones 3). rewrite Z.land_ones by lia.
    apply Z.mod_pos_bound. lia. }
  assert (Hcase : Z.land m 7 = 0 \/ Z.land m 7 = 1 \/ Z.land m 7 = 2 \/
                  Z.land m 7 = 3 \/ Z.land m 7 = 4 \/ Z.land m 7 = 5 \/
                  Z.land m 7 = 6 \/ Z.land m 7 = 7) by lia.
  assert (Htc : exists n, t = Z.of_nat n /\ (n < 32)%nat).
  { exists (Z.to_nat t). split; lia. }
  destruct Htc as [n [-> Hn]].
  do 32 (destruct n as [|n]; [ repeat (destruct Hcase as [-> | Hcase]);
                               try rewrite Hcase; cbv; intuition congruence | ]).
  lia.
Qed.

(** C9: for every FIFO mode and every requested threshold (a [uint8_t]),
    [LSM9DS1_setFIFO] issues exactly one register write, to FIFO_CTRL, of
    the byte [((fifoMode & 0x7) << 5) | min(fifoThs, 31)]: bits 7..5 of the
    byte are the mode, bits 4..0 are the clamped threshold, and nothing else
    in the session changes. *)
Theorem setFIFO_writes_mode_and_clamped_threshold
    (fifoMode fifoThs : Z) (w : W) :
  0 <= fifoThs <= 255 ->
  let v := Z.lor (Z.shiftl (Z.land fifoMode 0x7) 5) (Z.min fifoThs 31) in
  trace (LSM9DS1_setFIFO bsp H fifoMode fifoThs w) =
    trace w ++ [EvWrite (iface w) (_xgAddress (globals w))
                        (to_uint8 (FIFO_CTRL H)) v]
  /\ globals (LSM9DS1_setFIFO bsp H fifoMode fifoThs w) = globals w
  /\ 0 <= v <= 255
  /\ Z.shiftr v 5 = Z.land fifoMode 0x7
  /\ Z.land v 0x1F = Z.min fifoThs 31.
Proof.
  intros Hths v.
  assert (Hmin : 0 <= Z.min fifoThs 31 <= 31) by lia.
  destruct (fifo_byte_bits fifoMode (Z.min fifoThs 31) Hmin) as [Hv [Hhi Hlo]].
  fold v in Hv, Hhi, Hlo.
  unfold LSM9DS1_setFIFO.
  rewrite (to_uint8_id fifoThs Hths).
  assert (Hthr : (if fifoThs <=? 31 then fifoThs else 31) = Z.min fifoThs 31).
  { destruct (Z.leb_spec fifoThs 31); lia. }
  rewrite Hthr.
  assert (Hmask : Z.land (Z.min fifoThs 31) 31 = Z.min fifoThs 31).
  { change 31 with (Z.ones 5) at 2. rewrite Z.land_ones by lia.
    apply Z.mod_small. simpl. lia. }
  rewrite Hmask. fold v.
  rewrite xgWriteByte_trace, xgWriteByte_globals, (to_uint8_id v Hv).
  repeat split; try assumption; lia.
Qed.

(** ** Magnetometer offset registers *)

(** The low and the high byte that [LSM9DS1_magOffset] extracts are the
    little-endian bytes of the 16-bit pattern of the offset. *)
Lemma offset_bytes (offset : Z) :
  let msb := to_uint8 (Z.shiftr (Z.land offset 0xFF00) 8) in
  let lsb := to_uint8 (Z.land offset 0x00FF) in
  lsb + 256 * msb = to_uint16 offset /\ lsb = offset mod 256 /\
  msb = (offset / 256) mod 256.
Proof.
  intros msb lsb.
  assert (Hl : Z.land offset 255 = offset mod 256).
  { change 255 with (Z.ones 8). apply Z.land_ones. lia. }
  assert (Hm : Z.shiftr (Z.land offset 65280) 8 = (offset / 256) mod 256).
  { rewrite Z.shiftr_land. change (Z.shiftr 65280 8) with (Z.ones 8).
    rewrite Z.land_ones by lia. rewrite Z.shiftr_div_pow2 by lia.
    reflexivity. }
  assert (Hlsb : lsb = offset mod 256).
  { subst lsb. rewrite Hl. apply to_uint8_id.
    pose proof (Z.mod_pos_bound offset 256). lia. }
  assert (Hmsb : msb = (offset / 256) mod 256).
  { subst msb. rewrite Hm. apply to_uint8_id.
    pose proof (Z.mod_pos_bound (offset / 256) 256). lia. }
  repeat split; try assumption.
  rewrite Hlsb, Hmsb. unfold to_uint16.
  change 65536 with (256 * 256). rewrite Z.rem_mul_r by lia. reflexivity.
Qed.

(** What [LSM9DS1_magOffset] does for an axis in 0..2. *)
Lemma magOffset_in_range (axis offset : Z) (w : W) :
  0 <= axis <= 2 ->
  globals (LSM9DS1_magOffset bsp H axis offset w) = globals w /\
  trace (LSM9DS1_magOffset bsp H axis offset w) =
    trace w ++
    [EvWrite (iface w) (_mAddress (globals w))
       (to_uint8 (OFFSET_X_REG_L_M H + 2 * axis)) (offset mod 256);
     EvWrite (iface w) (_mAddress (globals w))
       (to_uint8 (OFFSET_X_REG_H_M H + 2 * axis)) ((offset / 256) mod 256)].
Proof.
  intros Hax. unfold LSM9DS1_magOffset.
  rewrite (to_uint8_id axis) by lia.
  destruct (Z.gtb_spec axis 2) as [Hgt | _]; [lia |].
  destruct (offset_bytes offset) as [_ [Hl Hm]]. cbv zeta in Hl, Hm.
  rewrite Hl, Hm.
  split.
  - rewrite !mWriteByte_globals. reflexivity.
  - rewrite !mWriteByte_trace, mWriteByte_globals.
    rewrite (iface_globals _ _ (mWriteByte_globals _ _ w)).
    rewrite <- app_assoc. simpl.
    pose proof (Z.mod_pos_bound (offset / 256) 256).
    pose proof (Z.mod_pos_bound offset 256).
    rewrite (to_uint8_id (offset mod 256)) by lia.
    rewrite (to_uint8_id ((offset / 256) mod 256)) by lia.
    reflexivity.
Qed.

(** C10: for an axis argument above 2, [LSM9DS1_magOffset] returns at once:
    the whole session, request log included, is unchanged.  For an axis in
    0..2 it issues exactly two register writes and touches nothing else; when
    the header places the offset-trim registers so that
    OFFSET_X_REG_L_M <= OFFSET_X_REG_H_M and the block fits the 8-bit
    register space, both addresses lie between OFFSET_X_REG_L_M and
    OFFSET_X_REG_H_M + 4. *)
Theorem magOffset_stays_in_trim_block (axis offset : Z) (w : W) :
  0 <= axis <= 255 ->
  0 <= OFFSET_X_REG_L_M H <= OFFSET_X_REG_H_M H ->
  OFFSET_X_REG_H_M H + 4 <= 255 ->
  (2 < axis -> LSM9DS1_magOffset bsp H axis offset w = w)
  /\ (axis <= 2 ->
      exists rl rh lsb msb,
        trace (LSM9DS1_magOffset bsp H axis offset w) =
          trace w ++ [EvWrite (iface w) (_mAddress (globals w)) rl lsb;
                      EvWrite (iface w) (_mAddress (globals w)) rh msb]
        /\ globals (LSM9DS1_magOffset bsp H axis offset w) = globals w
        /\ rl = OFFSET_X_REG_L_M H + 2 * axis
        /\ rh = OFFSET_X_REG_H_M H + 2 * axis
        /\ OFFSET_X_REG_L_M H <= rl <= OFFSET_X_REG_H_M H + 4
        /\ OFFSET_X_REG_L_M H <= rh <= OFFSET_X_REG_H_M H + 4).
Proof.
  intros Hax Hblock Hfit. split.
  - intros Hgt. unfold LSM9DS1_magOffset.
    rewrite (to_uint8_id axis) by lia.
    destruct (Z.gtb_spec axis 2); [reflexivity | lia].
  - intros Hle.
    destruct (magOffset_in_range axis offset w) as [Hg Ht]; [lia |].
    exists (OFFSET_X_REG_L_M H + 2 * axis), (OFFSET_X_REG_H_M H + 2 * axis),
           (offset mod 256), ((offset / 256) mod 256).
    rewrite Ht, Hg.
    rewrite !to_uint8_id by lia.
    repeat split; lia.
Qed.

(** ** Scales and resolutions *)

Lemma calcgRes_supported (w : W) :
  (gScale w = 245 -> fst (LSM9DS1_calcgRes w) = SENSITIVITY_GYROSCOPE_245) /\
  (gScale w = 500 -> fst (LSM9DS1_calcgRes w) = SENSITIVITY_GYROSCOPE_500) /\
  (gScale w = 2000 -> fst (LSM9DS1_calcgRes w) = SENSITIVITY_GYROSCOPE_2000).
Proof.
  unfold gScale, LSM9DS1_calcgRes.
  repeat split; intros ->; reflexivity.
Qed.

Lemma calcaRes_supported (w : W) :
  (aScale w = 2 -> fst (LSM9DS1_calcaRes w) = SENSITIVITY_ACCELEROMETER_2) /\
  (aScale w = 4 -> fst (LSM9DS1_calcaRes w) = SENSITIVITY_ACCELEROMETER_4) /\
  (aScale w = 8 -> fst (LSM9DS1_calcaRes w) = SENSITIVITY_ACCELEROMETER_8) /\
  (aScale w = 16 -> fst (LSM9DS1_calcaRes w) = SENSITIVITY_ACCELEROMETER_16).
Proof.
  unfold aScale, LSM9DS1_calcaRes.
  repeat split; intros ->; reflexivity.
Qed.

Lemma calcmRes_supported (w : W) :
  (mScale w = 4 -> fst (LSM9DS1_calcmRes w) = SENSITIVITY_MAGNETOMETER_4) /\
  (mScale w = 8 -> fst (LSM9DS1_calcmRes w) = SENSITIVITY_MAGNETOMETER_8) /\
  (mScale w = 12 -> fst (LSM9DS1_calcmRes w) = SENSITIVITY_MAGNETOMETER_12) /\
  (mScale w = 16 -> fst (LSM9DS1_calcmRes w) = SENSITIVITY_MAGNETOMETER_16).
Proof.
  unfold mScale, LSM9DS1_calcmRes.
  repeat split; intros ->; reflexivity.
Qed.

(** The resolution functions store what they return and touch nothing but
    their own resolution. *)
Lemma calcgRes_stores (w : W) :
  gRes (globals (snd (LSM9DS1_calcgRes w))) = fst (LSM9DS1_calcgRes w) /\
  settings (globals (snd (LSM9DS1_calcgRes w))) = settings (globals w) /\
  aRes (globals (snd (LSM9DS1_calcgRes w))) = aRes (globals w) /\
  mRes (globals (snd (LSM9DS1_calcgRes w))) = mRes (globals w) /\
  trace (snd (LSM9DS1_calcgRes w)) = trace w.
Proof.
  unfold LSM9DS1_calcgRes.
  repeat match goal with |- context [if ?c then _ else _] => destruct c end;
    repeat split; reflexivity.
Qed.

Lemma calcaRes_stores (w : W) :
  aRes (globals (snd (LSM9DS1_calcaRes w))) = fst (LSM9DS1_calcaRes w) /\
  settings (globals (snd (LSM9DS1_calcaRes w))) = settings (globals w) /\
  gRes (globals (snd (LSM9DS1_calcaRes w))) = gRes (globals w) /\
  mRes (globals (snd (LSM9DS1_calcaRes w))) = mRes (globals w) /\
  trace (snd (LSM9DS1_calcaRes w)) = trace w.
Proof.
  unfold LSM9DS1_calcaRes.
  repeat match goal with |- context [if ?c then _ else _] => destruct c end;
    repeat split; reflexivity.
Qed.

Lemma calcmRes_stores (w : W) :
  mRes (globals (snd (LSM9DS1_calcmRes w))) = fst (LSM9DS1_calcmRes w) /\
  settings (globals (snd (LSM9DS1_calcmRes w))) = settings (globals w) /\
  gRes (globals (snd (LSM9DS1_calcmRes w))) = gRes (globals w) /\
  aRes (globals (snd (LSM9DS1_calcmRes w))) = aRes (globals w) /\
  trace (snd (LSM9DS1_calcmRes w)) = trace w.
Proof.
  unfold LSM9DS1_calcmRes.
  repeat match goal with |- context [if ?c then _ else _] => destruct c end;
    repeat split; reflexivity.
Qed.

Lemma gyro_guard (s : Z) :
  negb (s =? 245) && negb (s =? 500) && negb (s =? 2000) = true <->
  ~ gyro_scale_supported s.
Proof.
  unfold gyro_scale_supported.
  destruct (Z.eqb_spec s 245), (Z.eqb_spec s 500), (Z.eqb_spec s 2000);
    cbn; intuition (try discriminate; lia).
Qed.

Lemma accel_guard (s : Z) :
  negb (s =? 2) && negb (s =? 4) && negb (s =? 8) && negb (s =? 16) = true <->
  ~ accel_scale_supported s.
Proof.
  unfold accel_scale_supported.
  destruct (Z.eqb_spec s 2), (Z.eqb_spec s 4), (Z.eqb_spec s 8),
    (Z.eqb_spec s 16); cbn; intuition (try discriminate; lia).
Qed.

Lemma mag_guard (s : Z) :
  negb (s =? 4) && negb (s =? 8) && negb (s =? 12) && negb (s =? 16) = true <->
  ~ mag_scale_supported s.
Proof.
  unfold mag_scale_supported.
  destruct (Z.eqb_spec s 4), (Z.eqb_spec s 8), (Z.eqb_spec s 12),
    (Z.eqb_spec s 16); cbn; intuition (try discriminate; lia).
Qed.

(** [LSM9DS1_constrainScales] keeps a supported scale and replaces any other
    by the default. *)
Lemma constrainScales_scales (w : W) :
  let w' := LSM9DS1_constrainScales w in
  (gyro_scale_supported (gScale w) -> gScale w' = gScale w) /\
  (~ gyro_scale_supported (gScale w) -> gScale w' = 245) /\
  (accel_scale_supported (aScale w) -> aScale w' = aScale w) /\
  (~ accel_scale_supported (aScale w) -> aScale w' = 2) /\
  (mag_scale_supported (mScale w) -> mScale w' = mScale w) /\
  (~ mag_scale_supported (mScale w) -> mScale w' = 4).
Proof.
  unfold gScale, aScale, mScale, LSM9DS1_constrainScales.
  destruct w as [g d t]. cbn [globals upd_globals].
  set (sg := g_scale (gyro (settings g))).
  set (sa := a_scale (accel (settings g))).
  set (sm := m_scale (mag (settings g))).
  pose proof (gyro_guard sg) as Hg.
  pose proof (accel_guard sa) as Ha.
  pose proof (mag_guard sm) as Hm.
  destruct (negb (sg =? 245) && negb (sg =? 500) && negb (sg =? 2000));
    cbn [globals upd_globals with_settings settings set_g_scale
         gyro accel mag g_scale a_scale m_scale]; fold sa;
    (destruct (negb (sa =? 2) && negb (sa =? 4) && negb (sa =? 8) &&
               negb (sa =? 16));
     cbn [globals upd_globals with_settings settings set_g_scale set_a_scale
          gyro accel mag g_scale a_scale m_scale]; fold sm;
     (destruct (negb (sm =? 4) && negb (sm =? 8) && negb (sm =? 12) &&
                negb (sm =? 16));
      cbn [globals upd_globals with_settings settings set_g_scale set_a_scale
           set_m_scale gyro accel mag g_scale a_scale m_scale];
      fold sg sa sm;
      repeat split; intros Hs; try reflexivity;
      solve [ exfalso; intuition discriminate ])).
Qed.

Lemma constrainScales_frame (w : W) :
  trace (LSM9DS1_constrainScales w) = trace w /\
  bus (LSM9DS1_constrainScales w) = bus w /\
  iface (LSM9DS1_constrainScales w) = iface w /\
  _xgAddress (globals (LSM9DS1_constrainScales w)) = _xgAddress (globals w) /\
  _mAddress (globals (LSM9DS1_constrainScales w)) = _mAddress (globals w).
Proof.
  unfold LSM9DS1_constrainScales, iface.
  repeat match goal with |- context [if ?c then _ else _] => destruct c end;
    repeat split; reflexivity.
Qed.

(** The resolution functions write their own resolution and nothing else. *)
Lemma calcgRes_eq (w : W) :
  snd (LSM9DS1_calcgRes w) = upd_globals (with_gRes (fst (LSM9DS1_calcgRes w))) w.
Proof.
  unfold LSM9DS1_calcgRes. destruct w as [g d t].
  repeat match goal with |- context [if ?c then _ else _] => destruct c end;
    try reflexivity.
  destruct g; reflexivity.
Qed.

Lemma calcaRes_eq (w : W) :
  snd (LSM9DS1_calcaRes w) = upd_globals (with_aRes (fst (LSM9DS1_calcaRes w))) w.
Proof.
  unfold LSM9DS1_calcaRes. destruct w as [g d t].
  repeat match goal with |- context [if ?c then _ else _] => destruct c end;
    try reflexivity.
  destruct g; reflexivity.
Qed.

Lemma calcmRes_eq (w : W) :
  snd (LSM9DS1_calcmRes w) = upd_globals (with_mRes (fst (LSM9DS1_calcmRes w))) w.
Proof.
  unfold LSM9DS1_calcmRes. destruct w as [g d t].
  repeat match goal with |- context [if ?c then _ else _] => destruct c end;
    try reflexivity.
  destruct g; reflexivity.
Qed.

(** The value a resolution function returns depends on the scale and on the
    resolution stored so far only. *)
Lemma calcgRes_fst (w w' : W) :
  gScale w' = gScale w -> gRes (globals w') = gRes (globals w) ->
  fst (LSM9DS1_calcgRes w') = fst (LSM9DS1_calcgRes w).
Proof.
  unfold gScale, LSM9DS1_calcgRes. intros -> Hr.
  repeat match goal with |- context [if ?c then _ else _] => destruct c end;
    try reflexivity.
  exact Hr.
Qed.

Lemma calcaRes_fst (w w' : W) :
  aScale w' = aScale w -> aRes (globals w') = aRes (globals w) ->
  fst (LSM9DS1_calcaRes w') = fst (LSM9DS1_calcaRes w).
Proof.
  unfold aScale, LSM9DS1_calcaRes. intros -> Hr.
  repeat match goal with |- context [if ?c then _ else _] => destruct c end;
    try reflexivity.
  exact Hr.
Qed.

Lemma calcmRes_fst (w w' : W) :
  mScale w' = mScale w -> mRes (globals w') = mRes (globals w) ->
  fst (LSM9DS1_calcmRes w') = fst (LSM9DS1_calcmRes w).
Proof.
  unfold mScale, LSM9DS1_calcmRes. intros -> Hr.
  repeat match goal with |- context [if ?c then _ else _] => destruct c end;
    try reflexivity.
  exact Hr.
Qed.

(** ** Bring-up *)

Lemma initGyro_globals (w : W) : globals (LSM9DS1_initGyro bsp H w) = globals w.
Proof. unfold LSM9DS1_initGyro. rewrite !xgWriteByte_globals. reflexivity. Qed.

Lemma initAccel_globals (w : W) : globals (LSM9DS1_initAccel bsp H w) = globals w.
Proof. unfold LSM9DS1_initAccel. rewrite !xgWriteByte_globals. reflexivity. Qed.

Lemma initGyro_trace (w : W) :
  exists values,
    length values = 5%nat /\
    trace (LSM9DS1_initGyro bsp H w) =
    trace w ++ writes_to (iface w) (_xgAddress (globals w))
                         (gyro_init_registers H) values.
Proof.
  unfold LSM9DS1_initGyro. cbv zeta.
  session.
  eexists [_; _; _; _; _]. split; [reflexivity |].
  unfold writes_to, gyro_init_registers. cbn [combine map fst snd].
  reflexivity.
Qed.

Lemma initAccel_trace (w : W) :
  exists values,
    length values = 3%nat /\
    trace (LSM9DS1_initAccel bsp H w) =
    trace w ++ writes_to (iface w) (_xgAddress (globals w))
                         (accel_init_registers H) values.
Proof.
  unfold LSM9DS1_initAccel. cbv zeta.
  session.
  eexists [_; _; _]. split; [reflexivity |].
  unfold writes_to, accel_init_registers. cbn [combine map fst snd].
  reflexivity.
Qed.

Ltac settings_cbn :=
  cbn [globals upd_globals bus trace with_settings settings set_g_scale
       set_a_scale set_m_scale set_g_sampleRate set_a_sampleRate
       set_m_sampleRate gyro accel mag device g_scale a_scale m_scale
       with_gRes with_aRes with_mRes with_xgAddress with_mAddress
       with_autoCalc gRes aRes mRes _xgAddress _mAddress _autoCalc
       gBias aBias mBias gBiasRaw aBiasRaw mBiasRaw fst snd].

Lemma constrainScales_compute (w : W) :
  let w' := LSM9DS1_constrainScales w in
  gScale w' = (if negb (gScale w =? 245) && negb (gScale w =? 500) &&
                  negb (gScale w =? 2000) then 245 else gScale w) /\
  aScale w' = (if negb (aScale w =? 2) && negb (aScale w =? 4) &&
                  negb (aScale w =? 8) && negb (aScale w =? 16)
               then 2 else aScale w) /\
  mScale w' = (if negb (mScale w =? 4) && negb (mScale w =? 8) &&
                  negb (mScale w =? 12) && negb (mScale w =? 16)
               then 4 else mScale w) /\
  gRes (globals w') = gRes (globals w) /\
  aRes (globals w') = aRes (globals w) /\
  mRes (globals w') = mRes (globals w).
Proof.
  unfold gScale, aScale, mScale, LSM9DS1_constrainScales.
  destruct w as [g d t]. settings_cbn.
  destruct (negb (g_scale (gyro (settings g)) =? 245) && _ && _); settings_cbn;
    (destruct (negb (a_scale (accel (settings g)) =? 2) && _ && _ && _);
     settings_cbn;
     (destruct (negb (m_scale (mag (settings g)) =? 4) && _ && _ && _);
      settings_cbn; repeat split; reflexivity)).
Qed.

(** What a returning [LSM9DS1_begin] leaves behind: the scales of
    [LSM9DS1_constrainScales], the resolutions computed from them, the bus
    addresses of the settings, and a log extended by the two identity reads
    followed by the gyroscope and accelerometer initialisation writes. *)
Lemma begin_returns (w w' : W) (r : Z) :
  LSM9DS1_begin bsp H w = Some (r, w') ->
  let wc := LSM9DS1_constrainScales w in
  let xg := agAddress (device (settings (globals w))) in
  let m := mAddress (device (settings (globals w))) in
  (gScale w' = gScale wc /\ aScale w' = aScale wc /\ mScale w' = mScale wc) /\
  (gRes (globals w') = fst (LSM9DS1_calcgRes wc) /\
   aRes (globals w') = fst (LSM9DS1_calcaRes wc) /\
   mRes (globals w') = fst (LSM9DS1_calcmRes wc)) /\
  exists mTest xgTest vg va,
    0 <= mTest <= 255 /\ 0 <= xgTest <= 255 /\
    r = to_uint16 (Z.lor (Z.shiftl xgTest 8) mTest) /\
    length vg = 5%nat /\ length va = 3%nat /\
    trace w' =
      trace w ++
      [EvRead (iface w) m (to_uint8 (WHO_AM_I_M H)) 1 [mTest];
       EvRead (iface w) xg (to_uint8 (WHO_AM_I_XG H)) 1 [xgTest]] ++
      writes_to (iface w) xg (gyro_init_registers H) vg ++
      writes_to (iface w) xg (accel_init_registers H) va.
Proof.
  unfold LSM9DS1_begin.
  set (wa := upd_globals _ w).
  set (wr := snd (LSM9DS1_calcaRes (snd (LSM9DS1_calcmRes
               (snd (LSM9DS1_calcgRes (LSM9DS1_constrainScales wa))))))).
  intros Hb.
  set (wc := LSM9DS1_constrainScales w).
  set (xg := agAddress (device (settings (globals w)))).
  set (m := mAddress (device (settings (globals w)))).
  assert (Hfacts :
    (gScale wr = gScale wc /\ aScale wr = aScale wc /\ mScale wr = mScale wc) /\
    (gRes (globals wr) = fst (LSM9DS1_calcgRes wc) /\
     aRes (globals wr) = fst (LSM9DS1_calcaRes wc) /\
     mRes (globals wr) = fst (LSM9DS1_calcmRes wc))).
  { destruct (constrainScales_compute wa) as (Hg & Ha & Hm & Rg & Ra & Rm).
    destruct (constrainScales_compute w) as (Hg' & Ha' & Hm' & Rg' & Ra' & Rm').
    cbv zeta in Hg, Ha, Hm, Rg, Ra, Rm, Hg', Ha', Hm', Rg', Ra', Rm'.
    fold wc in Hg', Ha', Hm', Rg', Ra', Rm'.
    assert (Eg : gScale (LSM9DS1_constrainScales wa) = gScale wc)
      by (rewrite Hg, Hg'; reflexivity).
    assert (Ea : aScale (LSM9DS1_constrainScales wa) = aScale wc)
      by (rewrite Ha, Ha'; reflexivity).
    assert (Em : mScale (LSM9DS1_constrainScales wa) = mScale wc)
      by (rewrite Hm, Hm'; reflexivity).
    assert (ERg : gRes (globals (LSM9DS1_constrainScales wa)) = gRes (globals wc))
      by (rewrite Rg, Rg'; reflexivity).
    assert (ERa : aRes (globals (LSM9DS1_constrainScales wa)) = aRes (globals wc))
      by (rewrite Ra, Ra'; reflexivity).
    assert (ERm : mRes (globals (LSM9DS1_constrainScales wa)) = mRes (globals wc))
      by (rewrite Rm, Rm'; reflexivity).
    subst wr. rewrite calcaRes_eq, calcmRes_eq, calcgRes_eq.
    unfold gScale, aScale, mScale in *. settings_cbn.
    repeat split; try assumption.
    - apply calcgRes_fst; assumption.
    - apply calcaRes_fst; unfold aScale; settings_cbn; assumption.
    - apply calcmRes_fst; unfold mScale; settings_cbn; assumption. }
  destruct Hfacts as [Hscales Hres].
  assert (Hframe : iface wr = iface w /\ trace wr = trace w /\
                   _xgAddress (globals wr) = xg /\ _mAddress (globals wr) = m).
  { destruct (constrainScales_frame wa) as (Ht & _ & Hi & Hx & Hm).
    subst wr. rewrite calcaRes_eq, calcmRes_eq, calcgRes_eq.
    unfold iface in *. settings_cbn. rewrite Ht, Hi, Hx, Hm.
    repeat split; reflexivity. }
  destruct Hframe as (Hi & Ht & Hx & Hm).
  assert (Hopen : exists wo, globals wo = globals wr /\ trace wo = trace wr /\
            (let '(mTest, w1) := LSM9DS1_mReadByte bsp (WHO_AM_I_M H) wo in
             let '(xgTest, w2) := LSM9DS1_xgReadByte bsp (WHO_AM_I_XG H) w1 in
             (to_uint16 (Z.lor (Z.shiftl xgTest 8) mTest),
              LSM9DS1_initAccel bsp H (LSM9DS1_initGyro bsp H w2))) = (r, w')).
  { destruct (iface wr).
    - exists wr. repeat split; try reflexivity.
      unfold LSM9DS1_initSPI in Hb.
      destruct (LSM9DS1_mReadByte bsp (WHO_AM_I_M H) wr) as [a w1].
      destruct (LSM9DS1_xgReadByte bsp (WHO_AM_I_XG H) w1) as [b w2].
      congruence.
    - unfold LSM9DS1_initI2C in Hb.
      destruct (I2C_IF_Open bsp (bus wr) (I2C_MASTER_MODE_STD H)) as [rc d].
      destruct (rc <? 0); [discriminate |].
      exists (mkWorld (globals wr) d (trace wr)). repeat split; try reflexivity.
      destruct (LSM9DS1_mReadByte bsp (WHO_AM_I_M H) _) as [a w1].
      destruct (LSM9DS1_xgReadByte bsp (WHO_AM_I_XG H) w1) as [b w2].
      congruence. }
  destruct Hopen as (wo & Hgo & Hto & Hrun).
  pose proof (mReadByte_range (WHO_AM_I_M H) wo) as Hmr.
  pose proof (mReadByte_trace (WHO_AM_I_M H) wo) as Hmt.
  pose proof (mReadByte_globals (WHO_AM_I_M H) wo) as Hmg.
  destruct (LSM9DS1_mReadByte bsp (WHO_AM_I_M H) wo) as [mTest w1].
  pose proof (xgReadByte_range (WHO_AM_I_XG H) w1) as Hxr.
  pose proof (xgReadByte_trace (WHO_AM_I_XG H) w1) as Hxt.
  pose proof (xgReadByte_globals (WHO_AM_I_XG H) w1) as Hxg.
  destruct (LSM9DS1_xgReadByte bsp (WHO_AM_I_XG H) w1) as [xgTest w2].
  cbn [fst snd] in *.
  injection Hrun as Hr Hw'.
  destruct (initGyro_trace w2) as (vg & Lvg & Tg).
  destruct (initAccel_trace (LSM9DS1_initGyro bsp H w2)) as (va & Lva & Ta).
  assert (Hg2 : globals w2 = globals wr) by congruence.
  assert (Hgw' : globals w' = globals wr).
  { rewrite <- Hw', initAccel_globals, initGyro_globals. exact Hg2. }
  split; [| split].
  - unfold gScale, aScale, mScale in *. rewrite Hgw'. exact Hscales.
  - rewrite Hgw'. exact Hres.
  - exists mTest, xgTest, vg, va.
    repeat split; try lia; try assumption; try (symmetry; assumption).
    rewrite <- Hw', Ta, Tg, Hxt, Hmt, Hto, Ht.
    rewrite initGyro_globals.
    rewrite (iface_globals w2 (LSM9DS1_initGyro bsp H w2) (initGyro_globals w2)).
    rewrite (iface_globals wr w2 Hg2), (iface_globals wr w1) by congruence.
    rewrite (iface_globals wr wo Hgo), Hi.
    rewrite Hg2, Hmg, Hgo, Hx, Hm.
    rewrite <- !app_assoc. reflexivity.
Qed.

Lemma calcgRes_sensitivity (w : W) :
  gyro_scale_supported (gScale w) ->
  fst (LSM9DS1_calcgRes w) = gyro_sensitivity (gScale w).
Proof.
  destruct (calcgRes_supported w) as (H1 & H2 & H3).
  intros [E | [E | E]]; rewrite ?(H1 E), ?(H2 E), ?(H3 E), E; reflexivity.
Qed.

Lemma calcaRes_sensitivity (w : W) :
  accel_scale_supported (aScale w) ->
  fst (LSM9DS1_calcaRes w) = accel_sensitivity (aScale w).
Proof.
  destruct (calcaRes_supported w) as (H1 & H2 & H3 & H4).
  intros [E | [E | [E | E]]];
    rewrite ?(H1 E), ?(H2 E), ?(H3 E), ?(H4 E), E; reflexivity.
Qed.

Lemma calcmRes_sensitivity (w : W) :
  mag_scale_supported (mScale w) ->
  fst (LSM9DS1_calcmRes w) = mag_sensitivity (mScale w).
Proof.
  destruct (calcmRes_supported w) as (H1 & H2 & H3 & H4).
  intros [E | [E | [E | E]]];
    rewrite ?(H1 E), ?(H2 E), ?(H3 E), ?(H4 E), E; reflexivity.
Qed.

Lemma gyro_supported_dec (s : Z) :
  gyro_scale_supported s \/ ~ gyro_scale_supported s.
Proof. unfold gyro_scale_supported. lia. Qed.

Lemma accel_supported_dec (s : Z) :
  accel_scale_supported s \/ ~ accel_scale_supported s.
Proof. unfold accel_scale_supported. lia. Qed.

Lemma mag_supported_dec (s : Z) :
  mag_scale_supported s \/ ~ mag_scale_supported s.
Proof. unfold mag_scale_supported. lia. Qed.

(** After [LSM9DS1_constrainScales] every scale is a supported one. *)
Lemma constrainScales_supported (w : W) :
  gyro_scale_supported (gScale (LSM9DS1_constrainScales w)) /\
  accel_scale_supported (aScale (LSM9DS1_constrainScales w)) /\
  mag_scale_supported (mScale (LSM9DS1_constrainScales w)).
Proof.
  destruct (constrainScales_scales w) as (G1 & G2 & A1 & A2 & M1 & M2).
  cbv zeta in *.
  repeat split.
  - destruct (gyro_supported_dec (gScale w)) as [S | S];
      [rewrite (G1 S); exact S | rewrite (G2 S); left; reflexivity].
  - destruct (accel_supported_dec (aScale w)) as [S | S];
      [rewrite (A1 S); exact S | rewrite (A2 S); left; reflexivity].
  - destruct (mag_supported_dec (mScale w)) as [S | S];
      [rewrite (M1 S); exact S | rewrite (M2 S); left; reflexivity].
Qed.

(** C6: for every supported scale the resolution function returns the
    sensitivity documented for that scale (gyroscope 245/500/2000 dps,
    accelerometer 2/4/8/16 g, magnetometer 4/8/12/16 gauss);
    [LSM9DS1_constrainScales] keeps a supported scale and replaces any other
    by the default (245 dps, 2 g, 4 gauss), so that the resolution computed
    after it is the constant of the default scale; and a returning
    [LSM9DS1_begin], which constrains the scales before it computes the
    resolutions, leaves each resolution equal to the documented sensitivity of
    the constrained scale. *)
Theorem resolution_is_documented_sensitivity (w : W) :
  let wc := LSM9DS1_constrainScales w in
  ((gScale w = 245 -> fst (LSM9DS1_calcgRes w) = SENSITIVITY_GYROSCOPE_245) /\
   (gScale w = 500 -> fst (LSM9DS1_calcgRes w) = SENSITIVITY_GYROSCOPE_500) /\
   (gScale w = 2000 -> fst (LSM9DS1_calcgRes w) = SENSITIVITY_GYROSCOPE_2000))
  /\
  ((aScale w = 2 -> fst (LSM9DS1_calcaRes w) = SENSITIVITY_ACCELEROMETER_2) /\
   (aScale w = 4 -> fst (LSM9DS1_calcaRes w) = SENSITIVITY_ACCELEROMETER_4) /\
   (aScale w = 8 -> fst (LSM9DS1_calcaRes w) = SENSITIVITY_ACCELEROMETER_8) /\
   (aScale w = 16 -> fst (LSM9DS1_calcaRes w) = SENSITIVITY_ACCELEROMETER_16))
  /\
  ((mScale w = 4 -> fst (LSM9DS1_calcmRes w) = SENSITIVITY_MAGNETOMETER_4) /\
   (mScale w = 8 -> fst (LSM9DS1_calcmRes w) = SENSITIVITY_MAGNETOMETER_8) /\
   (mScale w = 12 -> fst (LSM9DS1_calcmRes w) = SENSITIVITY_MAGNETOMETER_12) /\
   (mScale w = 16 -> fst (LSM9DS1_calcmRes w) = SENSITIVITY_MAGNETOMETER_16))
  /\
  ((gyro_scale_supported (gScale w) -> gScale wc = gScale w) /\
   (~ gyro_scale_supported (gScale w) ->
    gScale wc = 245 /\
    fst (LSM9DS1_calcgRes wc) = SENSITIVITY_GYROSCOPE_245))
  /\
  ((accel_scale_supported (aScale w) -> aScale wc = aScale w) /\
   (~ accel_scale_supported (aScale w) ->
    aScale wc = 2 /\
    fst (LSM9DS1_calcaRes wc) = SENSITIVITY_ACCELEROMETER_2))
  /\
  ((mag_scale_supported (mScale w) -> mScale wc = mScale w) /\
   (~ mag_scale_supported (mScale w) ->
    mScale wc = 4 /\
    fst (LSM9DS1_calcmRes wc) = SENSITIVITY_MAGNETOMETER_4))
  /\
  (forall r w',
     LSM9DS1_begin bsp H w = Some (r, w') ->
     (gScale w' = gScale wc /\
      gRes (globals w') = gyro_sensitivity (gScale w')) /\
     (aScale w' = aScale wc /\
      aRes (globals w') = accel_sensitivity (aScale w')) /\
     (mScale w' = mScale wc /\
      mRes (globals w') = mag_sensitivity (mScale w'))).
Proof.
  intros wc.
  destruct (constrainScales_scales w) as (G1 & G2 & A1 & A2 & M1 & M2).
  cbv zeta in G1, G2, A1, A2, M1, M2. fold wc in G1, G2, A1, A2, M1, M2.
  destruct (constrainScales_supported w) as (SG & SA & SM).
  fold wc in SG, SA, SM.
  split; [exact (calcgRes_supported w) |].
  split; [exact (calcaRes_supported w) |].
  split; [exact (calcmRes_supported w) |].
  split; [split; [exact G1 | intros S; split; [exact (G2 S) |]] |].
  { apply (proj1 (calcgRes_supported wc)). exact (G2 S). }
  split; [split; [exact A1 | intros S; split; [exact (A2 S) |]] |].
  { apply (proj1 (calcaRes_supported wc)). exact (A2 S). }
  split; [split; [exact M1 | intros S; split; [exact (M2 S) |]] |].
  { apply (proj1 (calcmRes_supported wc)). exact (M2 S). }
  intros r w' Hb.
  destruct (begin_returns w w' r Hb) as ((Eg & Ea & Em) & (Rg & Ra & Rm) & _).
  fold wc in Eg, Ea, Em, Rg, Ra, Rm.
  repeat split; try assumption.
  - rewrite Rg, Eg. apply calcgRes_sensitivity. exact SG.
  - rewrite Ra, Ea. apply calcaRes_sensitivity. exact SA.
  - rewrite Rm, Em. apply calcmRes_sensitivity. exact SM.
Qed.

(** [LSM9DS1_begin] fails to return exactly when the transport is I2C and
    the bus cannot be opened. *)
Lemma begin_hangs (w : W) :
  LSM9DS1_begin bsp H w = None <->
  iface w = IMU_MODE_I2C /\
  fst (I2C_IF_Open bsp (bus w) (I2C_MASTER_MODE_STD H)) < 0.
Proof.
  unfold LSM9DS1_begin.
  set (wa := upd_globals _ w).
  set (wr := snd (LSM9DS1_calcaRes (snd (LSM9DS1_calcmRes
               (snd (LSM9DS1_calcgRes (LSM9DS1_constrainScales wa))))))).
  assert (Hframe : iface wr = iface w /\ bus wr = bus w).
  { destruct (constrainScales_frame wa) as (_ & Hb & Hi & _).
    subst wr. rewrite calcaRes_eq, calcmRes_eq, calcgRes_eq.
    unfold iface in *. settings_cbn. rewrite Hb, Hi.
    split; reflexivity. }
  destruct Hframe as (Hi & Hb). rewrite Hi.
  destruct (iface w).
  - unfold LSM9DS1_initSPI.
    destruct (LSM9DS1_mReadByte bsp (WHO_AM_I_M H) wr) as [a w1].
    destruct (LSM9DS1_xgReadByte bsp (WHO_AM_I_XG H) w1) as [b w2].
    split; [discriminate | intros [E _]; discriminate].
  - unfold LSM9DS1_initI2C. rewrite Hb.
    destruct (I2C_IF_Open bsp (bus w) (I2C_MASTER_MODE_STD H)) as [rc d].
    cbn [fst].
    destruct (Z.ltb_spec rc 0) as [Hlt | Hge].
    + split; [intros _; split; [reflexivity | exact Hlt] | reflexivity].
    + destruct (LSM9DS1_mReadByte bsp (WHO_AM_I_M H) _) as [a w1].
      destruct (LSM9DS1_xgReadByte bsp (WHO_AM_I_XG H) w1) as [b w2].
      split; [discriminate | intros [_ Hlt]; lia].
Qed.

(** The combined identity equals the expected constant exactly when both
    identity bytes are the expected ones. *)
Lemma whoAmI_match (xgTest mTest : Z) :
  0 <= WHO_AM_I_AG_RSP H <= 255 -> 0 <= WHO_AM_I_M_RSP H <= 255 ->
  0 <= xgTest <= 255 -> 0 <= mTest <= 255 ->
  to_uint16 (Z.lor (Z.shiftl xgTest 8) mTest) = 256 * xgTest + mTest /\
  (256 * xgTest + mTest = whoAmI_expected H <->
   xgTest = WHO_AM_I_AG_RSP H /\ mTest = WHO_AM_I_M_RSP H).
Proof.
  intros Hag Hm Hx Hmt. unfold whoAmI_expected.
  rewrite !lor_shiftl_byte by lia.
  split; [unfold to_uint16; apply Z.mod_small; lia | lia].
Qed.

(** What [LSM9DS1_isConnected] does: two identity reads, and the comparison
    of the combined value with the expected constant. *)
Lemma isConnected_spec (w : W) :
  exists mTest xgTest,
    0 <= mTest <= 255 /\ 0 <= xgTest <= 255 /\
    fst (LSM9DS1_isConnected bsp H w) =
      (to_uint16 (Z.lor (Z.shiftl xgTest 8) mTest) =? whoAmI_expected H) /\
    globals (snd (LSM9DS1_isConnected bsp H w)) = globals w /\
    trace (snd (LSM9DS1_isConnected bsp H w)) =
      trace w ++
      [EvRead (iface w) (_mAddress (globals w)) (to_uint8 (WHO_AM_I_M H)) 1 [mTest];
       EvRead (iface w) (_xgAddress (globals w)) (to_uint8 (WHO_AM_I_XG H)) 1
              [xgTest]].
Proof.
  unfold LSM9DS1_isConnected.
  pose proof (mReadByte_range (WHO_AM_I_M H) w) as Hmr.
  pose proof (mReadByte_trace (WHO_AM_I_M H) w) as Hmt.
  pose proof (mReadByte_globals (WHO_AM_I_M H) w) as Hmg.
  destruct (LSM9DS1_mReadByte bsp (WHO_AM_I_M H) w) as [mTest w1].
  pose proof (xgReadByte_range (WHO_AM_I_XG H) w1) as Hxr.
  pose proof (xgReadByte_trace (WHO_AM_I_XG H) w1) as Hxt.
  pose proof (xgReadByte_globals (WHO_AM_I_XG H) w1) as Hxg.
  destruct (LSM9DS1_xgReadByte bsp (WHO_AM_I_XG H) w1) as [xgTest w2].
  cbn [fst snd] in *.
  exists mTest, xgTest.
  repeat split; try lia.
  - congruence.
  - rewrite Hxt, Hmt, (iface_globals w w1 Hmg), Hmg, <- app_assoc. reflexivity.
Qed.

(** C5, as the code has it: [LSM9DS1_begin] reads the identity register of
    the magnetometer and of the accelerometer/gyroscope and returns the
    combined 16-bit identity itself (high byte from the accelerometer/
    gyroscope, low byte from the magnetometer); the value equals the expected
    constant exactly when both bytes are the expected ones, and
    [LSM9DS1_isConnected] returns that comparison as a boolean.  Whatever the
    identity, the log of a returning [LSM9DS1_begin] continues with the five
    gyroscope and the three accelerometer initialisation writes.  The call
    fails to return only when the I2C bus cannot be opened. *)
Theorem begin_returns_identity_and_initialises (w : W) :
  0 <= WHO_AM_I_AG_RSP H <= 255 ->
  0 <= WHO_AM_I_M_RSP H <= 255 ->
  (LSM9DS1_begin bsp H w = None <->
   iface w = IMU_MODE_I2C /\
   fst (I2C_IF_Open bsp (bus w) (I2C_MASTER_MODE_STD H)) < 0)
  /\
  (forall r w',
     LSM9DS1_begin bsp H w = Some (r, w') ->
     exists mTest xgTest vg va,
       0 <= mTest <= 255 /\ 0 <= xgTest <= 255 /\
       r = 256 * xgTest + mTest /\
       (r = whoAmI_expected H <->
        xgTest = WHO_AM_I_AG_RSP H /\ mTest = WHO_AM_I_M_RSP H) /\
       length vg = 5%nat /\ length va = 3%nat /\
       trace w' =
         trace w ++
         [EvRead (iface w) (mAddress (device (settings (globals w))))
                 (to_uint8 (WHO_AM_I_M H)) 1 [mTest];
          EvRead (iface w) (agAddress (device (settings (globals w))))
                 (to_uint8 (WHO_AM_I_XG H)) 1 [xgTest]] ++
         writes_to (iface w) (agAddress (device (settings (globals w))))
                   (gyro_init_registers H) vg ++
         writes_to (iface w) (agAddress (device (settings (globals w))))
                   (accel_init_registers H) va)
  /\
  (exists mTest xgTest,
     0 <= mTest <= 255 /\ 0 <= xgTest <= 255 /\
     (fst (LSM9DS1_isConnected bsp H w) = true <->
      xgTest = WHO_AM_I_AG_RSP H /\ mTest = WHO_AM_I_M_RSP H) /\
     trace (snd (LSM9DS1_isConnected bsp H w)) =
       trace w ++
       [EvRead (iface w) (_mAddress (globals w)) (to_uint8 (WHO_AM_I_M H)) 1
               [mTest];
        EvRead (iface w) (_xgAddress (globals w)) (to_uint8 (WHO_AM_I_XG H)) 1
               [xgTest]]).
Proof.
  intros Hag Hm.
  split; [apply begin_hangs |]. split.
  - intros r w' Hb.
    destruct (begin_returns w w' r Hb)
      as (_ & _ & mTest & xgTest & vg & va & Bm & Bx & Er & Lg & La & Ht).
    destruct (whoAmI_match xgTest mTest Hag Hm Bx Bm) as [Eq Hiff].
    exists mTest, xgTest, vg, va.
    rewrite Er, Eq.
    split; [lia |]. split; [lia |]. split; [reflexivity |].
    split; [exact Hiff |]. split; [exact Lg |]. split; [exact La | exact Ht].
  - destruct (isConnected_spec w)
      as (mTest & xgTest & Bm & Bx & Ef & _ & Ht).
    destruct (whoAmI_match xgTest mTest Hag Hm Bx Bm) as [Eq Hiff].
    exists mTest, xgTest.
    split; [lia |]. split; [lia |]. split; [| exact Ht].
    rewrite Ef, Eq, Z.eqb_eq. exact Hiff.
Qed.

(** ** Raw sample readers *)

Lemma sub_bias_self (b : arr3 Z) : sub_bias b b = (0, 0, 0).
Proof.
  destruct b as [[x y] z]. unfold sub_bias. cbn [fst3 snd3 thd3].
  rewrite !to_int16_sub_self. reflexivity.
Qed.

Lemma geti_axes (b : arr3 Z) :
  geti b X_AXIS = fst3 b /\ geti b Y_AXIS = snd3 b /\ geti b Z_AXIS = thd3 b.
Proof. destruct b as [[x y] z]. repeat split; reflexivity. Qed.

Lemma readGyro_spec (out : arr3 Z) (w : W) :
  let r := xg_burst6 bsp (OUT_X_L_G H) w in
  globals (snd (LSM9DS1_readGyro bsp H out w)) = globals w /\
  snd (LSM9DS1_readGyro bsp H out w) = snd r /\
  fst (LSM9DS1_readGyro bsp H out w) =
    (if reported r =? 6 then
       if _autoCalc (globals w)
       then sub_bias (decode3 (delivered r)) (gBiasRaw (globals w))
       else decode3 (delivered r)
     else out).
Proof.
  unfold xg_burst6, reported, delivered, LSM9DS1_readGyro.
  pose proof (xgReadBytes_globals (OUT_X_L_G H) (uninit_buffer 6) 6 w) as Hg.
  destruct (LSM9DS1_xgReadBytes bsp (OUT_X_L_G H) (uninit_buffer 6) 6 w)
    as [[n temp] w1].
  cbn [fst snd] in *. rewrite Hg.
  destruct (geti_axes (gBiasRaw (globals w))) as (E0 & E1 & E2).
  destruct (n =? 6); [destruct (_autoCalc (globals w)) |];
    cbn [fst snd]; rewrite ?E0, ?E1, ?E2; repeat split; assumption.
Qed.

Lemma readAccel_spec (out : arr3 Z) (w : W) :
  let r := xg_burst6 bsp (OUT_X_L_XL H) w in
  globals (snd (LSM9DS1_readAccel bsp H out w)) = globals w /\
  snd (LSM9DS1_readAccel bsp H out w) = snd r /\
  fst (LSM9DS1_readAccel bsp H out w) =
    (if reported r =? 6 then
       if _autoCalc (globals w)
       then sub_bias (decode3 (delivered r)) (aBiasRaw (globals w))
       else decode3 (delivered r)
     else out).
Proof.
  unfold xg_burst6, reported, delivered, LSM9DS1_readAccel.
  pose proof (xgReadBytes_globals (OUT_X_L_XL H) (uninit_buffer 6) 6 w) as Hg.
  destruct (LSM9DS1_xgReadBytes bsp (OUT_X_L_XL H) (uninit_buffer 6) 6 w)
    as [[n temp] w1].
  cbn [fst snd] in *. rewrite Hg.
  destruct (geti_axes (aBiasRaw (globals w))) as (E0 & E1 & E2).
  destruct (n =? 6); [destruct (_autoCalc (globals w)) |];
    cbn [fst snd]; rewrite ?E0, ?E1, ?E2; repeat split; assumption.
Qed.

Lemma readMag_spec (out : arr3 Z) (w : W) :
  let r := m_burst6 bsp (OUT_X_L_M H) w in
  globals (snd (LSM9DS1_readMag bsp H out w)) = globals w /\
  snd (LSM9DS1_readMag bsp H out w) = snd r /\
  fst (LSM9DS1_readMag bsp H out w) =
    (if reported r =? 6 then decode3 (delivered r) else out).
Proof.
  unfold m_burst6, reported, delivered, LSM9DS1_readMag.
  pose proof (mReadBytes_globals (OUT_X_L_M H) (uninit_buffer 6) 6 w) as Hg.
  destruct (LSM9DS1_mReadBytes bsp (OUT_X_L_M H) (uninit_buffer 6) 6 w)
    as [[n temp] w1].
  cbn [fst snd] in *.
  destruct (n =? 6); cbn [fst snd]; repeat split; assumption.
Qed.

Lemma readGyroAxis_spec (axis : Z) (w : W) :
  let r := xg_burst2 bsp (OUT_X_L_G H) axis w in
  globals (snd (LSM9DS1_readGyroAxis bsp H axis w)) = globals w /\
  fst (LSM9DS1_readGyroAxis bsp H axis w) =
    (if reported r =? 2 then
       if _autoCalc (globals w)
       then to_int16 (le16 (delivered r) 0 - geti (gBiasRaw (globals w)) axis)
       else le16 (delivered r) 0
     else 0).
Proof.
  unfold xg_burst2, reported, delivered, LSM9DS1_readGyroAxis.
  pose proof (xgReadBytes_globals (OUT_X_L_G H + 2 * axis) (uninit_buffer 2) 2 w)
    as Hg.
  destruct (LSM9DS1_xgReadBytes bsp (OUT_X_L_G H + 2 * axis) (uninit_buffer 2) 2 w)
    as [[n temp] w1].
  cbn [fst snd] in *. rewrite Hg.
  destruct (n =? 2); [destruct (_autoCalc (globals w)) |];
    cbn [fst snd]; repeat split; assumption.
Qed.

Lemma readAccelAxis_spec (axis : Z) (w : W) :
  let r := xg_burst2 bsp (OUT_X_L_XL H) axis w in
  globals (snd (LSM9DS1_readAccelAxis bsp H axis w)) = globals w /\
  fst (LSM9DS1_readAccelAxis bsp H axis w) =
    (if reported r =? 2 then
       if _autoCalc (globals w)
       then to_int16 (le16 (delivered r) 0 - geti (aBiasRaw (globals w)) axis)
       else le16 (delivered r) 0
     else 0).
Proof.
  unfold xg_burst2, reported, delivered, LSM9DS1_readAccelAxis.
  pose proof (xgReadBytes_globals (OUT_X_L_XL H + 2 * axis) (uninit_buffer 2) 2 w)
    as Hg.
  destruct (LSM9DS1_xgReadBytes bsp (OUT_X_L_XL H + 2 * axis) (uninit_buffer 2) 2 w)
    as [[n temp] w1].
  cbn [fst snd] in *. rewrite Hg.
  destruct (n =? 2); [destruct (_autoCalc (globals w)) |];
    cbn [fst snd]; repeat split; assumption.
Qed.

Lemma readMagAxis_spec (axis : Z) (w : W) :
  let r := m_burst2 bsp (OUT_X_L_M H) axis w in
  globals (snd (LSM9DS1_readMagAxis bsp H axis w)) = globals w /\
  fst (LSM9DS1_readMagAxis bsp H axis w) =
    (if reported r =? 2 then le16 (delivered r) 0 else 0).
Proof.
  unfold m_burst2, reported, delivered, LSM9DS1_readMagAxis.
  pose proof (mReadBytes_globals (OUT_X_L_M H + 2 * axis) (uninit_buffer 2) 2 w)
    as Hg.
  destruct (LSM9DS1_mReadBytes bsp (OUT_X_L_M H + 2 * axis) (uninit_buffer 2) 2 w)
    as [[n temp] w1].
  cbn [fst snd] in *.
  destruct (n =? 2); cbn [fst snd]; repeat split; assumption.
Qed.

Lemma not_eqb_of_lt (n k : Z) : n < k -> (n =? k) = false.
Proof. intros Hlt. apply Z.eqb_neq. lia. Qed.

(** C4, as the code has it: when the transport reports fewer bytes than
    requested, the triplet readers ([LSM9DS1_readGyro], [LSM9DS1_readAccel],
    [LSM9DS1_readMag]) leave all three caller-visible outputs as they were,
    and the single-axis readers ([LSM9DS1_readGyroAxis],
    [LSM9DS1_readAccelAxis], [LSM9DS1_readMagAxis]), which return their
    result by value, return 0.  No reader changes the driver's variables. *)
Theorem short_read_keeps_triplet_and_zeroes_axis
    (out : arr3 Z) (axis : Z) (w : W) :
  (reported (xg_burst6 bsp (OUT_X_L_G H) w) < 6 ->
   fst (LSM9DS1_readGyro bsp H out w) = out /\
   globals (snd (LSM9DS1_readGyro bsp H out w)) = globals w)
  /\
  (reported (xg_burst6 bsp (OUT_X_L_XL H) w) < 6 ->
   fst (LSM9DS1_readAccel bsp H out w) = out /\
   globals (snd (LSM9DS1_readAccel bsp H out w)) = globals w)
  /\
  (reported (m_burst6 bsp (OUT_X_L_M H) w) < 6 ->
   fst (LSM9DS1_readMag bsp H out w) = out /\
   globals (snd (LSM9DS1_readMag bsp H out w)) = globals w)
  /\
  (reported (xg_burst2 bsp (OUT_X_L_G H) axis w) < 2 ->
   fst (LSM9DS1_readGyroAxis bsp H axis w) = 0 /\
   globals (snd (LSM9DS1_readGyroAxis bsp H axis w)) = globals w)
  /\
  (reported (xg_burst2 bsp (OUT_X_L_XL H) axis w) < 2 ->
   fst (LSM9DS1_readAccelAxis bsp H axis w) = 0 /\
   globals (snd (LSM9DS1_readAccelAxis bsp H axis w)) = globals w)
  /\
  (reported (m_burst2 bsp (OUT_X_L_M H) axis w) < 2 ->
   fst (LSM9DS1_readMagAxis bsp H axis w) = 0 /\
   globals (snd (LSM9DS1_readMagAxis bsp H axis w)) = globals w).
Proof.
  destruct (readGyro_spec out w) as (G1 & _ & G2).
  destruct (readAccel_spec out w) as (A1 & _ & A2).
  destruct (readMag_spec out w) as (M1 & _ & M2).
  destruct (readGyroAxis_spec axis w) as (GA1 & GA2).
  destruct (readAccelAxis_spec axis w) as (AA1 & AA2).
  destruct (readMagAxis_spec axis w) as (MA1 & MA2).
  cbv zeta in *.
  split; [intros Hs; split;
          [rewrite G2, (not_eqb_of_lt _ _ Hs); reflexivity | exact G1] |].
  split; [intros Hs; split;
          [rewrite A2, (not_eqb_of_lt _ _ Hs); reflexivity | exact A1] |].
  split; [intros Hs; split;
          [rewrite M2, (not_eqb_of_lt _ _ Hs); reflexivity | exact M1] |].
  split; [intros Hs; split;
          [rewrite GA2, (not_eqb_of_lt _ _ Hs); reflexivity | exact GA1] |].
  split; [intros Hs; split;
          [rewrite AA2, (not_eqb_of_lt _ _ Hs); reflexivity | exact AA1] |].
  intros Hs; split;
    [rewrite MA2, (not_eqb_of_lt _ _ Hs); reflexivity | exact MA1].
Qed.

(** ** Gyroscope and accelerometer calibration *)

Lemma enableFIFO_globals (b : bool) (w : W) :
  globals (LSM9DS1_enableFIFO bsp H b w) = globals w.
Proof.
  unfold LSM9DS1_enableFIFO.
  pose proof (xgReadByte_globals (CTRL_REG9 H) w) as Hg.
  destruct (LSM9DS1_xgReadByte bsp (CTRL_REG9 H) w) as [v w1].
  rewrite xgWriteByte_globals. exact Hg.
Qed.

Lemma setFIFO_globals (m t : Z) (w : W) :
  globals (LSM9DS1_setFIFO bsp H m t w) = globals w.
Proof. unfold LSM9DS1_setFIFO. apply xgWriteByte_globals. Qed.

Lemma land_0x3F_range (v : Z) : 0 <= Z.land v 0x3F <= 63.
Proof.
  assert (E : Z.land v 63 = v mod 64).
  { change 63 with (Z.ones 6). rewrite Z.land_ones by lia. reflexivity. }
  rewrite E. pose proof (Z.mod_pos_bound v 64 ltac:(lia)). lia.
Qed.

(** The poll returns the last masked fill level it read, and that level is
    at least 31. *)
Lemma calibrate_wait_spec (fuel : nat) :
  forall (samples N : Z) (w w0 : W),
    calibrate_wait bsp H fuel samples w = Some (N, w0) ->
    globals w0 = globals w /\
    31 <= N /\
    (N = samples /\ w0 = w \/
     exists v tr,
       0 <= v <= 255 /\ N = Z.land v 0x3F /\
       trace w0 = trace w ++ tr ++
         [EvRead (iface w) (_xgAddress (globals w)) (to_uint8 (FIFO_SRC H)) 1 [v]]).
Proof.
  induction fuel as [| fuel IH]; intros samples N w w0; cbn [calibrate_wait].
  - destruct (Z.ltb_spec samples 31); [discriminate |].
    intros E. injection E as <- <-. repeat split; try lia. left. split; reflexivity.
  - destruct (Z.ltb_spec samples 31) as [Hlt | Hge].
    + pose proof (xgReadByte_globals (FIFO_SRC H) w) as Hg.
      pose proof (xgReadByte_trace (FIFO_SRC H) w) as Ht.
      pose proof (xgReadByte_range (FIFO_SRC H) w) as Hr.
      destruct (LSM9DS1_xgReadByte bsp (FIFO_SRC H) w) as [v w1].
      cbn [fst snd] in *.
      intros E. destruct (IH _ _ _ _ E) as (Hg0 & HN & Hlast).
      split; [congruence |]. split; [exact HN |]. right.
      destruct Hlast as [[-> ->] | (v' & tr & Hv' & -> & Ht')].
      * exists v, []. repeat split; try lia. exact Ht.
      * exists v', ([EvRead (iface w) (_xgAddress (globals w))
                            (to_uint8 (FIFO_SRC H)) 1 [v]] ++ tr).
        repeat split; try lia.
        rewrite Ht', Ht, (iface_globals w w1 Hg), Hg, <- !app_assoc.
        reflexivity.
    + intros E. injection E as <- <-. repeat split; try lia.
      left. split; reflexivity.
Qed.

Lemma int16_triplet_decode3 (temp : list Z) : int16_triplet (decode3 temp).
Proof. repeat split; apply le16_range. Qed.

Lemma int16_triplet_sub_bias (a b : arr3 Z) : int16_triplet (sub_bias a b).
Proof. repeat split; apply to_int16_range. Qed.

Lemma readGyro_int16 (w : W) :
  int16_triplet (fst (LSM9DS1_readGyro bsp H uninit_triplet w)).
Proof.
  destruct (readGyro_spec uninit_triplet w) as (_ & _ & ->).
  repeat match goal with |- context [if ?c then _ else _] => destruct c end;
    [apply int16_triplet_sub_bias | apply int16_triplet_decode3 |].
  unfold int16_triplet, is_int16, uninit_triplet. cbn. lia.
Qed.

Lemma readAccel_int16 (w : W) :
  int16_triplet (fst (LSM9DS1_readAccel bsp H uninit_triplet w)).
Proof.
  destruct (readAccel_spec uninit_triplet w) as (_ & _ & ->).
  repeat match goal with |- context [if ?c then _ else _] => destruct c end;
    [apply int16_triplet_sub_bias | apply int16_triplet_decode3 |].
  unfold int16_triplet, is_int16, uninit_triplet. cbn. lia.
Qed.

(** A batch has the requested length, consists of [int16_t] triplets, and
    reading it leaves the driver's variables alone. *)
Lemma fifo_batch_spec (n : nat) :
  forall w : W,
    length (fst (fifo_batch bsp H n w)) = n /\
    globals (snd (fifo_batch bsp H n w)) = globals w /\
    Forall (fun s => int16_triplet (fst s) /\ int16_triplet (snd s))
           (fst (fifo_batch bsp H n w)).
Proof.
  induction n as [| n IH]; intros w; cbn [fifo_batch].
  - repeat split; constructor.
  - pose proof (readGyro_int16 w) as Hgi.
    destruct (readGyro_spec uninit_triplet w) as (Hgg & _ & _).
    destruct (LSM9DS1_readGyro bsp H uninit_triplet w) as [g w1].
    pose proof (readAccel_int16 w1) as Hai.
    destruct (readAccel_spec uninit_triplet w1) as (Hag & _ & _).
    destruct (LSM9DS1_readAccel bsp H uninit_triplet w1) as [a w2].
    destruct (IH w2) as (Hl & Hg & Hf).
    destruct (fifo_batch bsp H n w2) as [rest w3].
    cbn [fst snd] in *.
    split; [cbn [length]; rewrite Hl; reflexivity |].
    split; [congruence |].
    constructor; [split; assumption | exact Hf].
Qed.

Lemma sum_of_cons (f : arr3 Z * arr3 Z -> Z) (s : arr3 Z * arr3 Z)
    (l : list (arr3 Z * arr3 Z)) :
  sum_of f (s :: l) = f s + sum_of f l.
Proof. reflexivity. Qed.

(** The accumulation loop computes the exact per-axis sums of the batch: the
    32-bit accumulators cannot overflow. *)
Lemma calibrate_accumulate_spec (n : nat) :
  forall (g0 g1 g2 a0 a1 a2 B : Z) (w : W),
    - B <= g0 <= B -> - B <= g1 <= B -> - B <= g2 <= B ->
    - B <= a0 <= B -> - B <= a1 <= B -> - B <= a2 <= B ->
    B + Z.of_nat n * 65536 <= 2147483647 ->
    let batch := fst (fifo_batch bsp H n w) in
    let one_g := F32.recip_int16 (aRes (globals w)) in
    calibrate_accumulate bsp H n (g0, g1, g2) (a0, a1, a2) w =
    (((g0 + sum_of gyro_x batch, g1 + sum_of gyro_y batch,
       g2 + sum_of gyro_z batch),
      (a0 + sum_of accel_x batch, a1 + sum_of accel_y batch,
       a2 + sum_of (fun s => accel_z s - one_g) batch)),
     snd (fifo_batch bsp H n w)).
Proof.
  induction n as [| n IH]; intros g0 g1 g2 a0 a1 a2 B w Hg0 Hg1 Hg2 Ha0 Ha1 Ha2 HB.
  - cbn.
    repeat match goal with |- (_, _) = (_, _) => apply f_equal2 end;
      try reflexivity; lia.
  - cbn [calibrate_accumulate fifo_batch].
    pose proof (readGyro_int16 w) as Hgi.
    destruct (readGyro_spec uninit_triplet w) as (Hgg & _ & _).
    destruct (LSM9DS1_readGyro bsp H uninit_triplet w) as [[[gx gy] gz] w1].
    pose proof (readAccel_int16 w1) as Hai.
    destruct (readAccel_spec uninit_triplet w1) as (Hag & _ & _).
    destruct (LSM9DS1_readAccel bsp H uninit_triplet w1) as [[[ax ay] az] w2].
    cbn [fst snd] in Hgi, Hgg, Hai, Hag.
    destruct Hgi as (Hgx & Hgy & Hgz). destruct Hai as (Hax & Hay & Haz).
    cbn [fst3 snd3 thd3] in Hgx, Hgy, Hgz, Hax, Hay, Haz.
    unfold is_int16 in Hgx, Hgy, Hgz, Hax, Hay, Haz.
    assert (Hres : aRes (globals w2) = aRes (globals w)) by congruence.
    pose proof (recip_int16_range (aRes (globals w))) as Hone.
    unfold is_int16 in Hone.
    rewrite Hres.
    rewrite !to_int32_id by lia.
    rewrite (IH _ _ _ _ _ _ (B + 65536) w2) by lia.
    rewrite Hres.
    destruct (fifo_batch bsp H n w2) as [rest w3].
    cbn [fst snd]. rewrite !sum_of_cons.
    unfold gyro_x, gyro_y, gyro_z, accel_x, accel_y, accel_z.
    cbn [fst snd fst3 snd3 thd3].
    repeat match goal with |- (_, _) = (_, _) => apply f_equal2 end;
      try reflexivity; lia.
Qed.

(** The three rounds of the publishing loop, taken together. *)
Lemma calibrate_publish_spec (gT aT : arr3 Z) (samples : Z) (w : W) :
  let w' := fold_left (calibrate_publish gT aT samples) [0; 1; 2] w in
  let g := globals w in
  let graw := map3 (fun s => to_int16 (c_div s samples)) gT in
  let araw := map3 (fun s => to_int16 (c_div s samples)) aT in
  w' =
  mkWorld
    {| settings := settings g;
       gBias := map3 (F32.mul_int (gRes g)) graw;
       aBias := map3 (F32.mul_int (aRes g)) araw;
       mBias := mBias g;
       gBiasRaw := graw; aBiasRaw := araw; mBiasRaw := mBiasRaw g;
       _mAddress := _mAddress g; _xgAddress := _xgAddress g;
       gRes := gRes g; aRes := aRes g; mRes := mRes g;
       _autoCalc := _autoCalc g |}
    (bus w) (trace w).
Proof.
  destruct w as [g d t]. destruct g.
  destruct gT as [[g0 g1] g2]. destruct aT as [[a0 a1] a2].
  destruct gBias0 as [[? ?] ?], aBias0 as [[? ?] ?],
           gBiasRaw0 as [[? ?] ?], aBiasRaw0 as [[? ?] ?].
  cbv - [to_int16 c_div F32.mul_int].
  rewrite !to_int16_idem. reflexivity.
Qed.

(** A returning calibration, end to end: the poll observed a fill level [N]
    between 31 and 63, the batch of [N] rounds was summed exactly, and the
    driver's variables afterwards are those before the call with the four
    bias arrays replaced and the flag raised on request. *)
Lemma calibrate_spec (fuel : nat) (autoCalc : bool) (w w' : W) :
  LSM9DS1_calibrate bsp H fuel autoCalc w = Some w' ->
  exists N w0,
    fifo_filled bsp H fuel w = Some (N, w0) /\
    31 <= N <= 63 /\
    globals w0 = globals w /\
    let batch := fst (fifo_batch bsp H (Z.to_nat N) w0) in
    let one_g := F32.recip_int16 (aRes (globals w)) in
    let gT := (sum_of gyro_x batch, sum_of gyro_y batch, sum_of gyro_z batch) in
    let aT := (sum_of accel_x batch, sum_of accel_y batch,
               sum_of (fun s => accel_z s - one_g) batch) in
    let graw := map3 (fun s => to_int16 (c_div s N)) gT in
    let araw := map3 (fun s => to_int16 (c_div s N)) aT in
    let g := globals w in
    globals w' =
    {| settings := settings g;
       gBias := map3 (F32.mul_int (gRes g)) graw;
       aBias := map3 (F32.mul_int (aRes g)) araw;
       mBias := mBias g;
       gBiasRaw := graw; aBiasRaw := araw; mBiasRaw := mBiasRaw g;
       _mAddress := _mAddress g; _xgAddress := _xgAddress g;
       gRes := gRes g; aRes := aRes g; mRes := mRes g;
       _autoCalc := if autoCalc then true else _autoCalc g |}.
Proof.
  unfold LSM9DS1_calibrate, fifo_filled.
  set (ws := LSM9DS1_setFIFO bsp H (FIFO_THS H) 31 (LSM9DS1_enableFIFO bsp H true w)).
  assert (Hgs : globals ws = globals w).
  { subst ws. rewrite setFIFO_globals, enableFIFO_globals. reflexivity. }
  destruct (calibrate_wait bsp H fuel 0 ws) as [[N w0] |] eqn:Hwait;
    [| discriminate].
  destruct (calibrate_wait_spec fuel 0 N ws w0 Hwait) as (Hg0 & HN & Hlast).
  assert (HN63 : N <= 63).
  { destruct Hlast as [[-> _] | (v & tr & _ & -> & _)]; [lia |].
    apply land_0x3F_range. }
  pose proof (calibrate_accumulate_spec (Z.to_nat N) 0 0 0 0 0 0 0 w0) as Hacc.
  cbv zeta in Hacc.
  rewrite Hacc by lia. clear Hacc.
  destruct (fifo_batch_spec (Z.to_nat N) w0) as (_ & Hgb & _).
  set (batch := fst (fifo_batch bsp H (Z.to_nat N) w0)) in *.
  set (wb := snd (fifo_batch bsp H (Z.to_nat N) w0)) in *.
  intros E. injection E as E.
  exists N, w0.
  split; [reflexivity |]. split; [lia |]. split; [congruence |].
  cbv zeta. rewrite <- E.
  assert (Hgwb : globals wb = globals w) by congruence.
  replace (globals w0) with (globals w) by congruence.
  pose proof (calibrate_publish_spec
                (sum_of gyro_x batch, sum_of gyro_y batch, sum_of gyro_z batch)
                (sum_of accel_x batch, sum_of accel_y batch,
                 sum_of (fun s => accel_z s -
                                  F32.recip_int16 (aRes (globals w))) batch)
                N wb) as Hp.
  cbv zeta in Hp. cbn [fold_left] in Hp.
  destruct autoCalc; cbn [globals upd_globals];
    rewrite setFIFO_globals, enableFIFO_globals, Hp; cbn [globals];
    rewrite Hgwb; reflexivity.
Qed.


Lemma sum_of_const (f : arr3 Z * arr3 Z -> Z) (x : arr3 Z * arr3 Z)
    (batch : list (arr3 Z * arr3 Z)) :
  (forall s, In s batch -> s = x) ->
  sum_of f batch = Z.of_nat (length batch) * f x.
Proof.
  induction batch as [| s l IH]; intros Hall.
  - cbn. lia.
  - rewrite sum_of_cons, IH by (intros; apply Hall; right; assumption).
    rewrite (Hall s) by (left; reflexivity). cbn [length]. lia.
Qed.



Lemma xgReadByte_SPI (s : Z) (w : W) :
  iface w = IMU_MODE_SPI -> fst (LSM9DS1_xgReadByte bsp s w) = 0.
Proof. unfold LSM9DS1_xgReadByte. intros ->. reflexivity. Qed.

(** Over the SPI stubs the FIFO poll never ends. *)
Lemma calibrate_wait_SPI (fuel : nat) :
  forall (samples : Z) (w : W),
    iface w = IMU_MODE_SPI -> samples < 31 ->
    calibrate_wait bsp H fuel samples w = None.
Proof.
  induction fuel as [| fuel IH]; intros samples w Hi Hs; cbn [calibrate_wait];
    destruct (Z.ltb_spec samples 31) as [_ | Hge]; try lia; [reflexivity |].
  pose proof (xgReadByte_SPI (FIFO_SRC H) w Hi) as Hv.
  pose proof (xgReadByte_iface (FIFO_SRC H) w) as Hi1.
  destruct (LSM9DS1_xgReadByte bsp (FIFO_SRC H) w) as [v w1].
  cbn [fst snd] in Hv, Hi1. subst v.
  apply IH; [congruence | cbn; lia].
Qed.

Lemma calibrate_SPI (fuel : nat) (autoCalc : bool) (w : W) :
  iface w = IMU_MODE_SPI -> LSM9DS1_calibrate bsp H fuel autoCalc w = None.
Proof.
  intros Hi. unfold LSM9DS1_calibrate.
  rewrite calibrate_wait_SPI; [reflexivity | | lia].
  rewrite <- Hi. apply iface_globals.
  rewrite setFIFO_globals, enableFIFO_globals. reflexivity.
Qed.


(** Over I2C the batch of a calibration is the raw FIFO content, less the
    stored biases when auto-calibration is active. *)
Lemma fifo_batch_raw (n : nat) :
  forall w : W,
    iface w = IMU_MODE_I2C ->
    fst (fifo_batch bsp H n w) =
    map (fun s => if _autoCalc (globals w)
                  then (sub_bias (fst s) (gBiasRaw (globals w)),
                        sub_bias (snd s) (aBiasRaw (globals w)))
                  else s)
        (raw_batch bsp H n w).
Proof.
  induction n as [| n IH]; intros w Hi; cbn [fifo_batch raw_batch];
    [reflexivity |].
  destruct (readGyro_spec uninit_triplet w) as (Gg & Wg & Vg).
  cbv zeta in Gg, Wg, Vg. unfold reported in Vg.
  unfold xg_burst6 at 1 in Vg.
  rewrite xgReadBytes_count, Hi in Vg. change (to_uint8 6 =? 6) with true in Vg.
  cbv iota in Vg.
  set (r1 := xg_burst6 bsp (OUT_X_L_G H) w) in *.
  destruct (LSM9DS1_readGyro bsp H uninit_triplet w) as [g w1].
  cbn [fst snd] in Gg, Wg, Vg. subst w1.
  assert (Hi1 : iface (snd r1) = IMU_MODE_I2C)
    by (rewrite (iface_globals _ _ Gg); exact Hi).
  destruct (readAccel_spec uninit_triplet (snd r1)) as (Ga & Wa & Va).
  cbv zeta in Ga, Wa, Va. unfold reported in Va.
  unfold xg_burst6 at 1 in Va.
  rewrite xgReadBytes_count, Hi1 in Va. change (to_uint8 6 =? 6) with true in Va.
  cbv iota in Va.
  set (r2 := xg_burst6 bsp (OUT_X_L_XL H) (snd r1)) in *.
  destruct (LSM9DS1_readAccel bsp H uninit_triplet (snd r1)) as [a w2].
  cbn [fst snd] in Ga, Wa, Va. subst w2.
  assert (G2 : globals (snd r2) = globals w) by congruence.
  assert (Hi2 : iface (snd r2) = IMU_MODE_I2C)
    by (rewrite (iface_globals _ _ G2); exact Hi).
  specialize (IH (snd r2) Hi2). rewrite G2 in IH.
  destruct (fifo_batch bsp H n (snd r2)) as [rest w3]. cbn [fst snd] in IH |- *.
  cbn [map fst snd]. rewrite IH, Vg, Va, Gg.
  destruct (_autoCalc (globals w)); reflexivity.
Qed.



(** C3: after a returning [LSM9DS1_calibrate] with [autoCalc] set, the flag
    [_autoCalc] is true, and in every later session with the same driver
    variables each successful gyroscope or accelerometer read (triplet or
    single axis) hands back the raw sample minus the stored raw bias, in
    [int16_t] arithmetic; a raw triplet equal to the stored bias triplet reads
    as the zero triplet. *)
Theorem calibrate_auto_subtracts_bias (fuel : nat) (w w1 : W) :
  LSM9DS1_calibrate bsp H fuel true w = Some w1 ->
  _autoCalc (globals w1) = true /\
  forall (w2 : W) (out : arr3 Z) (axis : Z),
    globals w2 = globals w1 ->
    (reported (xg_burst6 bsp (OUT_X_L_G H) w2) = 6 ->
     let raw := decode3 (delivered (xg_burst6 bsp (OUT_X_L_G H) w2)) in
     fst (LSM9DS1_readGyro bsp H out w2) = sub_bias raw (gBiasRaw (globals w1)) /\
     (raw = gBiasRaw (globals w1) ->
      fst (LSM9DS1_readGyro bsp H out w2) = (0, 0, 0)))
    /\
    (reported (xg_burst6 bsp (OUT_X_L_XL H) w2) = 6 ->
     let raw := decode3 (delivered (xg_burst6 bsp (OUT_X_L_XL H) w2)) in
     fst (LSM9DS1_readAccel bsp H out w2) = sub_bias raw (aBiasRaw (globals w1)) /\
     (raw = aBiasRaw (globals w1) ->
      fst (LSM9DS1_readAccel bsp H out w2) = (0, 0, 0)))
    /\
    (0 <= axis <= 2 ->
     reported (xg_burst2 bsp (OUT_X_L_G H) axis w2) = 2 ->
     let raw := le16 (delivered (xg_burst2 bsp (OUT_X_L_G H) axis w2)) 0 in
     fst (LSM9DS1_readGyroAxis bsp H axis w2) =
       to_int16 (raw - geti (gBiasRaw (globals w1)) axis))
    /\
    (0 <= axis <= 2 ->
     reported (xg_burst2 bsp (OUT_X_L_XL H) axis w2) = 2 ->
     let raw := le16 (delivered (xg_burst2 bsp (OUT_X_L_XL H) axis w2)) 0 in
     fst (LSM9DS1_readAccelAxis bsp H axis w2) =
       to_int16 (raw - geti (aBiasRaw (globals w1)) axis)).
Proof.
  intros Hc.
  destruct (calibrate_spec fuel true w w1 Hc) as (N & w0 & _ & _ & _ & Hgl).
  cbv zeta in Hgl.
  assert (Hauto : _autoCalc (globals w1) = true) by (rewrite Hgl; reflexivity).
  split; [exact Hauto |].
  intros w2 out axis Hsame.
  destruct (readGyro_spec out w2) as (_ & _ & G).
  destruct (readAccel_spec out w2) as (_ & _ & A).
  destruct (readGyroAxis_spec axis w2) as (_ & GA).
  destruct (readAccelAxis_spec axis w2) as (_ & AA).
  cbv zeta in G, A, GA, AA.
  rewrite Hsame, Hauto in G, A, GA, AA.
  split; [| split; [| split]].
  - intros Hok raw. rewrite Hok in G. cbn [Z.eqb Pos.eqb] in G.
    split; [exact G |]. intros Hraw. rewrite G. subst raw. rewrite Hraw.
    apply sub_bias_self.
  - intros Hok raw. rewrite Hok in A. cbn [Z.eqb Pos.eqb] in A.
    split; [exact A |]. intros Hraw. rewrite A. subst raw. rewrite Hraw.
    apply sub_bias_self.
  - intros _ Hok raw. rewrite Hok in GA. exact GA.
  - intros _ Hok raw. rewrite Hok in AA. exact AA.
Qed.

(** ** Magnetometer calibration *)

(** The value [LSM9DS1_magAvailable] computes is non-zero exactly when the
    status bit of the axis is set. *)
Lemma available_testbit (status axis : Z) :
  0 <= status <= 255 ->
  (to_uint8 (Z.shiftr (Z.land status (Z.shiftl 1 axis)) axis) =? 0) =
  negb (Z.testbit status axis).
Proof.
  intros Hst.
  destruct (Z.lt_ge_cases axis 0) as [Hneg | Hpos].
  - rewrite Z.testbit_neg_r by lia.
    assert (E : Z.shiftl 1 axis = 0).
    { rewrite <- (Z.opp_involutive axis), Z.shiftl_opp_r.
      rewrite Z.shiftr_div_pow2 by lia.
      apply Z.div_small. split; [lia |].
      apply Z.pow_gt_1; lia. }
    rewrite E, Z.land_0_r, Z.shiftr_0_l. reflexivity.
  - rewrite Z.shiftr_land, Z.shiftr_shiftl_l by lia.
    rewrite Z.sub_diag, Z.shiftl_0_r.
    change 1 with (Z.ones 1). rewrite Z.land_ones by lia.
    rewrite Z.shiftr_div_pow2 by lia. change (2 ^ 1) with 2.
    rewrite <- Z.testbit_spec' by lia.
    destruct (Z.testbit status axis); reflexivity.
Qed.

Lemma mReadByte_SPI (s : Z) (w : W) :
  iface w = IMU_MODE_SPI -> fst (LSM9DS1_mReadByte bsp s w) = 0.
Proof. unfold LSM9DS1_mReadByte. intros ->. reflexivity. Qed.

Lemma mReadBytes_I2C (s : Z) (dest : list Z) (c : Z) (w : W) :
  iface w = IMU_MODE_I2C ->
  let r := LSM9DS1_mReadBytes bsp s dest c w in
  reported r = to_uint8 c /\
  length (delivered r) = Z.to_nat (to_uint8 c) /\
  trace (snd r) =
    trace w ++ [EvRead IMU_MODE_I2C (_mAddress (globals w)) (to_uint8 s)
                       (to_uint8 c) (delivered r)].
Proof.
  unfold LSM9DS1_mReadBytes, LSM9DS1_I2CreadBytes, reported, delivered,
    transported.
  intros ->.
  destruct (I2C_IF_ReadFrom bsp (bus w) (_mAddress (globals w)) [to_uint8 s]
              (to_uint8 c)) as [[rc data] d].
  cbn [fst snd trace]. repeat split.
  unfold burst. rewrite length_map, length_seq. reflexivity.
Qed.

(** A returning wait ran over I2C, left the driver's variables alone, and
    logged busy status reads closed by a ready one. *)
Lemma calibrateMag_wait_spec (fuel : nat) :
  forall w w1 : W,
    calibrateMag_wait bsp H fuel w = Some w1 ->
    iface w = IMU_MODE_I2C /\
    globals w1 = globals w /\
    exists tw,
      mag_wait H IMU_MODE_I2C (_mAddress (globals w)) tw /\
      trace w1 = trace w ++ tw.
Proof.
  induction fuel as [| fuel IH]; intros w w1; cbn [calibrateMag_wait];
    [discriminate |].
  unfold LSM9DS1_magAvailable.
  pose proof (mReadByte_range (STATUS_REG_M H) w) as Hr.
  pose proof (mReadByte_globals (STATUS_REG_M H) w) as Hg.
  pose proof (mReadByte_trace (STATUS_REG_M H) w) as Ht.
  pose proof (mReadByte_SPI (STATUS_REG_M H) w) as Hspi.
  destruct (LSM9DS1_mReadByte bsp (STATUS_REG_M H) w) as [status w'].
  cbn [fst snd] in *.
  rewrite (available_testbit status (ALL_AXIS H) Hr).
  destruct (Z.testbit status (ALL_AXIS H)) eqn:Hbit; cbn [negb].
  - intros E. injection E as <-.
    assert (Hi : iface w = IMU_MODE_I2C).
    { destruct (iface w); [| reflexivity].
      rewrite (Hspi eq_refl) in Hbit. rewrite Z.bits_0 in Hbit. discriminate. }
    split; [exact Hi |]. split; [exact Hg |].
    eexists. split; [apply mag_wait_ready; exact Hbit |].
    rewrite Ht, Hi. reflexivity.
  - intros E. destruct (IH w' w1 E) as (Hi' & Hg' & tw & Hw & Ht').
    assert (Hi : iface w = IMU_MODE_I2C)
      by (rewrite <- (iface_globals w w' Hg); exact Hi').
    split; [exact Hi |]. split; [congruence |].
    eexists. split; [apply mag_wait_busy; [exact Hbit | rewrite <- Hg; exact Hw] |].
    rewrite Ht', Ht, Hi, <- app_assoc. reflexivity.
Qed.

(** One pass over the three axes moves every extreme toward the sample. *)
Lemma calibrateMag_track_spec (t mn mx : arr3 Z) :
  fold_left (calibrateMag_track t) [0; 1; 2] (mn, mx) =
  ((Z.min (fst3 mn) (fst3 t), Z.min (snd3 mn) (snd3 t), Z.min (thd3 mn) (thd3 t)),
   (Z.max (fst3 mx) (fst3 t), Z.max (snd3 mx) (snd3 t), Z.max (thd3 mx) (thd3 t))).
Proof.
  destruct t as [[t0 t1] t2], mn as [[n0 n1] n2], mx as [[x0 x1] x2].
  cbn [fold_left calibrateMag_track geti get3 set3 Z.eqb Pos.eqb
       fst3 snd3 thd3].
  destruct (Z.gtb_spec t0 x0), (Z.ltb_spec t0 n0);
    cbn [geti get3 set3 Z.eqb Pos.eqb];
    destruct (Z.gtb_spec t1 x1), (Z.ltb_spec t1 n1);
    cbn [geti get3 set3 Z.eqb Pos.eqb];
    destruct (Z.gtb_spec t2 x2), (Z.ltb_spec t2 n2);
    repeat match goal with |- (_, _) = (_, _) => apply f_equal2 end; lia.
Qed.

(** The sampling loop: [n] rounds in the log, the extremes of their samples
    in the two local arrays. *)
Lemma calibrateMag_sample_spec (fuel n : nat) :
  forall (mn mx mn' mx' : arr3 Z) (w w' : W),
    calibrateMag_sample bsp H fuel n mn mx w = Some ((mn', mx'), w') ->
    globals w' = globals w /\
    (n <> O -> iface w = IMU_MODE_I2C) /\
    exists tr samples,
      mag_rounds H IMU_MODE_I2C (_mAddress (globals w)) tr samples /\
      length samples = n /\
      Forall int16_triplet samples /\
      trace w' = trace w ++ tr /\
      (mn', mx') = extremes mn mx samples.
Proof.
  induction n as [| n IH]; intros mn mx mn' mx' w w'; cbn [calibrateMag_sample].
  - intros E. injection E as <- <- <-.
    split; [reflexivity |]. split; [congruence |].
    exists [], []. repeat split; try constructor.
    + rewrite app_nil_r. reflexivity.
    + destruct mn as [[? ?] ?], mx as [[? ?] ?]. reflexivity.
  - destruct (calibrateMag_wait bsp H fuel w) as [w1 |] eqn:Hwait;
      [| discriminate].
    destruct (calibrateMag_wait_spec fuel w w1 Hwait) as (Hi & Hg1 & tw & Hw & Ht1).
    assert (Hi1 : iface w1 = IMU_MODE_I2C)
      by (rewrite (iface_globals w w1 Hg1); exact Hi).
    destruct (readMag_spec uninit_triplet w1) as (Hg2 & Hw2 & Hv).
    destruct (mReadBytes_I2C (OUT_X_L_M H) (uninit_buffer 6) 6 w1 Hi1)
      as (Hrep & Hlen & Ht2).
    cbv zeta in Hg2, Hw2, Hv. unfold m_burst6 in Hg2, Hw2, Hv.
    set (r := LSM9DS1_mReadBytes bsp (OUT_X_L_M H) (uninit_buffer 6) 6 w1) in *.
    change (to_uint8 6) with 6 in Hrep, Hlen, Ht2.
    rewrite Hrep in Hv. cbn [Z.eqb Pos.eqb] in Hv.
    destruct (LSM9DS1_readMag bsp H uninit_triplet w1) as [magTemp w2].
    cbn [fst snd] in Hg2, Hw2, Hv.
    rewrite calibrateMag_track_spec.
    intros E. destruct (IH _ _ _ _ _ _ E) as (Hg' & _ & tr & ss & Hr & Hl & Hf & Ht & Hx).
    split; [congruence |]. split; [intros _; exact Hi |].
    exists ((tw ++ [EvRead IMU_MODE_I2C (_mAddress (globals w))
                           (to_uint8 (OUT_X_L_M H)) 6 (delivered r)]) ++ tr),
           (magTemp :: ss).
    split.
    { rewrite Hv. apply mag_rounds_cons.
      - apply mag_round_intro; [exact Hw | exact Hlen].
      - replace (globals w) with (globals w2) by congruence. exact Hr. }
    split; [cbn [length]; rewrite Hl; reflexivity |].
    split; [constructor; [rewrite Hv; apply int16_triplet_decode3 | exact Hf] |].
    split.
    { rewrite Ht, Hw2, Ht2, Ht1, Hg1, <- !app_assoc. reflexivity. }
    rewrite Hx. unfold extremes. cbn [map fold_left fst3 snd3 thd3].
    reflexivity.
Qed.

Lemma magOffset_globals (axis offset : Z) (w : W) :
  0 <= axis <= 2 ->
  globals (LSM9DS1_magOffset bsp H axis offset w) = globals w.
Proof. intros Ha. apply (magOffset_in_range axis offset w Ha). Qed.

Lemma magOffset_trace (axis offset : Z) (w : W) :
  0 <= axis <= 2 ->
  trace (LSM9DS1_magOffset bsp H axis offset w) =
    trace w ++
    [EvWrite (iface w) (_mAddress (globals w))
       (to_uint8 (OFFSET_X_REG_L_M H + 2 * axis)) (offset mod 256);
     EvWrite (iface w) (_mAddress (globals w))
       (to_uint8 (OFFSET_X_REG_H_M H + 2 * axis)) ((offset / 256) mod 256)].
Proof. intros Ha. apply (magOffset_in_range axis offset w Ha). Qed.

Lemma geti_set3 (a : arr3 Z) (j v : Z) :
  0 <= j <= 2 -> geti (set3 a j v) j = v.
Proof.
  intros Hj. destruct a as [[x y] z].
  assert (Hc : j = 0 \/ j = 1 \/ j = 2) by lia.
  destruct Hc as [-> | [-> | ->]]; reflexivity.
Qed.

(** One round of the magnetometer publishing loop. *)
Lemma calibrateMag_publish_round (loadIn : bool) (mn mx : arr3 Z) (w : W)
    (j : Z) :
  0 <= j <= 2 ->
  let v := to_int16 (c_div (geti mx j + geti mn j) 2) in
  let g := globals w in
  globals (calibrateMag_publish bsp H loadIn mn mx w j) =
    with_mBias (set3 (mBias g) j (F32.mul_int (mRes g) v))
      (with_mBiasRaw (set3 (mBiasRaw g) j v) g) /\
  trace (calibrateMag_publish bsp H loadIn mn mx w j) =
    trace w ++
    (if loadIn then
       [EvWrite (iface w) (_mAddress g)
          (to_uint8 (OFFSET_X_REG_L_M H + 2 * j)) (v mod 256);
        EvWrite (iface w) (_mAddress g)
          (to_uint8 (OFFSET_X_REG_H_M H + 2 * j)) ((v / 256) mod 256)]
     else []).
Proof.
  intros Hj v g.
  assert (Ev : to_int16 v = v) by apply to_int16_idem.
  unfold calibrateMag_publish, LSM9DS1_calcMag.
  cbn [globals upd_globals].
  assert (E1 : forall x g0, mBiasRaw (with_mBiasRaw x g0) = x) by reflexivity.
  assert (E2 : forall x g0, mBias (with_mBiasRaw x g0) = mBias g0)
    by reflexivity.
  assert (E3 : forall x g0, mRes (with_mBiasRaw x g0) = mRes g0) by reflexivity.
  assert (E4 : forall x g0, mBiasRaw (with_mBias x g0) = mBiasRaw g0)
    by reflexivity.
  assert (E5 : forall x g0, settings (with_mBias x g0) = settings g0)
    by reflexivity.
  assert (E6 : forall x g0, settings (with_mBiasRaw x g0) = settings g0)
    by reflexivity.
  assert (E7 : forall x g0, _mAddress (with_mBias x g0) = _mAddress g0)
    by reflexivity.
  assert (E8 : forall x g0, _mAddress (with_mBiasRaw x g0) = _mAddress g0)
    by reflexivity.
  destruct loadIn.
  - rewrite magOffset_globals, magOffset_trace by exact Hj.
    unfold iface. cbn [globals trace upd_globals].
    rewrite ?E4, ?E1, ?E2, ?E3, ?E5, ?E6, ?E7, ?E8. fold g. fold v.
    rewrite (geti_set3 (mBiasRaw g) j v Hj), Ev.
    split; reflexivity.
  - cbn [globals trace upd_globals].
    rewrite ?E4, ?E1, ?E2, ?E3. fold g. fold v.
    rewrite (geti_set3 (mBiasRaw g) j v Hj), Ev, app_nil_r.
    split; reflexivity.
Qed.

(** The three rounds of the magnetometer publishing loop, taken together. *)
Lemma calibrateMag_publish_spec (loadIn : bool) (mn mx : arr3 Z) (w : W) :
  let w' := fold_left (calibrateMag_publish bsp H loadIn mn mx) [0; 1; 2] w in
  let g := globals w in
  let raw :=
    (to_int16 (c_div (fst3 mx + fst3 mn) 2),
     to_int16 (c_div (snd3 mx + snd3 mn) 2),
     to_int16 (c_div (thd3 mx + thd3 mn) 2)) in
  globals w' =
    {| settings := settings g;
       gBias := gBias g; aBias := aBias g;
       mBias := map3 (F32.mul_int (mRes g)) raw;
       gBiasRaw := gBiasRaw g; aBiasRaw := aBiasRaw g; mBiasRaw := raw;
       _mAddress := _mAddress g; _xgAddress := _xgAddress g;
       gRes := gRes g; aRes := aRes g; mRes := mRes g;
       _autoCalc := _autoCalc g |} /\
  trace w' =
    trace w ++
    (if loadIn then offset_writes H (iface w) (_mAddress g) raw else []).
Proof.
  cbn [fold_left].
  set (w1 := calibrateMag_publish bsp H loadIn mn mx w 0).
  set (w2 := calibrateMag_publish bsp H loadIn mn mx w1 1).
  destruct (calibrateMag_publish_round loadIn mn mx w 0 ltac:(lia)) as (G0 & T0).
  destruct (calibrateMag_publish_round loadIn mn mx w1 1 ltac:(lia)) as (G1 & T1).
  destruct (calibrateMag_publish_round loadIn mn mx w2 2 ltac:(lia)) as (G2 & T2).
  cbv zeta in G0, T0, G1, T1, G2, T2. fold w1 in G0, T0, G1, T1. fold w2 in G1, T1, G2, T2.
  assert (I1 : iface w1 = iface w) by (unfold iface; rewrite G0; reflexivity).
  assert (I2 : iface w2 = iface w)
    by (rewrite <- I1; unfold iface; rewrite G1; reflexivity).
  cbv zeta. split.
  - rewrite G2, G1, G0.
    destruct (globals w) as [st gb ab mb gr ar mr ma xa rg ra rm ac].
    destruct mn as [[n0 n1] n2], mx as [[x0 x1] x2].
    destruct mb as [[? ?] ?], mr as [[? ?] ?].
    reflexivity.
  - rewrite T2, T1, T0, I2, I1, G1, G0.
    destruct (globals w) as [st gb ab mb gr ar mr ma xa rg ra rm ac].
    destruct mn as [[n0 n1] n2], mx as [[x0 x1] x2].
    destruct mb as [[? ?] ?], mr as [[? ?] ?].
    destruct loadIn; rewrite <- !app_assoc; reflexivity.
Qed.

Lemma fold_max_int16 (l : list Z) :
  forall init, is_int16 init -> Forall is_int16 l ->
               is_int16 (fold_left Z.max l init).
Proof.
  induction l as [| x l IH]; intros init Hi Hl; cbn [fold_left]; [exact Hi |].
  inversion Hl as [| ? ? Hx Hl']; subst.
  apply IH; [unfold is_int16 in *; lia | exact Hl'].
Qed.

Lemma fold_min_int16 (l : list Z) :
  forall init, is_int16 init -> Forall is_int16 l ->
               is_int16 (fold_left Z.min l init).
Proof.
  induction l as [| x l IH]; intros init Hi Hl; cbn [fold_left]; [exact Hi |].
  inversion Hl as [| ? ? Hx Hl']; subst.
  apply IH; [unfold is_int16 in *; lia | exact Hl'].
Qed.

(** The offset of an axis fits an [int16_t]. *)
Lemma mag_offset_int16 (axis : arr3 Z -> Z) (samples : list (arr3 Z)) :
  Forall (fun s => is_int16 (axis s)) samples ->
  is_int16 (mag_offset axis samples).
Proof.
  intros Hs. unfold mag_offset, running_max, running_min.
  assert (Hl : Forall is_int16 (map axis samples)).
  { induction Hs; constructor; assumption. }
  assert (H0 : is_int16 0) by (unfold is_int16; lia).
  pose proof (fold_max_int16 _ 0 H0 Hl) as Hmax.
  pose proof (fold_min_int16 _ 0 H0 Hl) as Hmin.
  apply c_div_mean_range; unfold is_int16 in *; lia.
Qed.

(** A returning magnetometer calibration, end to end. *)
Lemma calibrateMag_spec (fuel : nat) (loadIn : bool) (w w' : W) :
  LSM9DS1_calibrateMag bsp H fuel loadIn w = Some w' ->
  iface w = IMU_MODE_I2C /\
  exists tr samples,
    mag_rounds H IMU_MODE_I2C (_mAddress (globals w)) tr samples /\
    length samples = 128%nat /\
    let raw := (mag_offset fst3 samples, mag_offset snd3 samples,
                mag_offset thd3 samples) in
    let g := globals w in
    globals w' =
      {| settings := settings g;
         gBias := gBias g; aBias := aBias g;
         mBias := map3 (F32.mul_int (mRes g)) raw;
         gBiasRaw := gBiasRaw g; aBiasRaw := aBiasRaw g; mBiasRaw := raw;
         _mAddress := _mAddress g; _xgAddress := _xgAddress g;
         gRes := gRes g; aRes := aRes g; mRes := mRes g;
         _autoCalc := _autoCalc g |} /\
    trace w' =
      trace w ++ tr ++
      (if loadIn
       then offset_writes H IMU_MODE_I2C (_mAddress g) raw
       else []).
Proof.
  unfold LSM9DS1_calibrateMag.
  destruct (calibrateMag_sample bsp H fuel 128 (0, 0, 0) (0, 0, 0) w)
    as [[[mn mx] ws] |] eqn:Hs; [| discriminate].
  destruct (calibrateMag_sample_spec fuel 128 _ _ _ _ _ _ Hs)
    as (Hg & Hi & tr & samples & Hr & Hl & Hf & Ht & Hx).
  specialize (Hi ltac:(discriminate)).
  intros E.
  assert (Ew : w' = fold_left (calibrateMag_publish bsp H loadIn mn mx)
                              [0; 1; 2] ws) by congruence.
  clear E.
  split; [exact Hi |].
  exists tr, samples. split; [exact Hr |]. split; [exact Hl |].
  destruct (calibrateMag_publish_spec loadIn mn mx ws) as (Pg & Pt).
  cbv zeta in Pg, Pt. rewrite <- Ew in Pg, Pt.
  unfold extremes in Hx. cbn [fst3 snd3 thd3] in Hx.
  assert (Emn : mn = (fold_left Z.min (map fst3 samples) 0,
                      fold_left Z.min (map snd3 samples) 0,
                      fold_left Z.min (map thd3 samples) 0)) by congruence.
  assert (Emx : mx = (fold_left Z.max (map fst3 samples) 0,
                      fold_left Z.max (map snd3 samples) 0,
                      fold_left Z.max (map thd3 samples) 0)) by congruence.
  rewrite Emn, Emx in Pg, Pt. cbn [fst3 snd3 thd3] in Pg, Pt.
  assert (Hfit : forall axis,
            Forall (fun s => is_int16 (axis s)) samples ->
            to_int16 (c_div (fold_left Z.max (map axis samples) 0 +
                             fold_left Z.min (map axis samples) 0) 2) =
            mag_offset axis samples).
  { intros axis Ha. apply to_int16_id. apply (mag_offset_int16 axis samples Ha). }
  assert (H1 : Forall (fun s => is_int16 (fst3 s)) samples)
    by (eapply Forall_impl; [| exact Hf]; intros s (A & _ & _); exact A).
  assert (H2 : Forall (fun s => is_int16 (snd3 s)) samples)
    by (eapply Forall_impl; [| exact Hf]; intros s (_ & A & _); exact A).
  assert (H3 : Forall (fun s => is_int16 (thd3 s)) samples)
    by (eapply Forall_impl; [| exact Hf]; intros s (_ & _ & A); exact A).
  rewrite (Hfit _ H1), (Hfit _ H2), (Hfit _ H3) in Pg, Pt.
  cbv zeta. split.
  - rewrite Pg, Hg. reflexivity.
  - rewrite Pt, Ht, (iface_globals w ws Hg), Hi, Hg, <- app_assoc. reflexivity.
Qed.


(** ** Published biases *)

Lemma get3_map3 {A B : Type} (d : A) (d' : B) (f : A -> B) (a : arr3 A) (i : Z) :
  0 <= i <= 2 -> get3 d' (map3 f a) i = f (get3 d a i).
Proof.
  intros Hi. destruct a as [[x y] z]. unfold map3, get3. cbn [fst3 snd3 thd3].
  assert (Hc : i = 0 \/ i = 1 \/ i = 2) by lia.
  destruct Hc as [-> | [-> | ->]]; reflexivity.
Qed.

(** C7: at the end of a returning [LSM9DS1_calibrate] the physical
    gyroscope and accelerometer biases are the current resolution times the
    stored raw bias on every axis, and at the end of a returning
    [LSM9DS1_calibrateMag] the same holds of the magnetometer bias:
    [gBias[i] = gRes * gBiasRaw[i]], [aBias[i] = aRes * aBiasRaw[i]],
    [mBias[i] = mRes * mBiasRaw[i]]. *)
Theorem published_bias_is_resolution_times_raw (w w' : W) (i : Z) :
  0 <= i <= 2 ->
  (forall fuel autoCalc,
     LSM9DS1_calibrate bsp H fuel autoCalc w = Some w' ->
     get3 F32.zero (gBias (globals w')) i =
       F32.mul_int (gRes (globals w')) (geti (gBiasRaw (globals w')) i) /\
     get3 F32.zero (aBias (globals w')) i =
       F32.mul_int (aRes (globals w')) (geti (aBiasRaw (globals w')) i))
  /\
  (forall fuel loadIn,
     LSM9DS1_calibrateMag bsp H fuel loadIn w = Some w' ->
     get3 F32.zero (mBias (globals w')) i =
       F32.mul_int (mRes (globals w')) (geti (mBiasRaw (globals w')) i)).
Proof.
  intros Hi. split.
  - intros fuel autoCalc Hc.
    destruct (calibrate_spec fuel autoCalc w w' Hc) as (N & w0 & _ & _ & _ & Hg).
    cbv zeta in Hg. rewrite Hg. cbn [gBias aBias gBiasRaw aBiasRaw gRes aRes].
    unfold geti. split; apply get3_map3; exact Hi.
  - intros fuel loadIn Hc.
    destruct (calibrateMag_spec fuel loadIn w w' Hc)
      as (_ & tr & samples & _ & _ & Hg & _).
    cbv zeta in Hg. rewrite Hg. cbn [mBias mBiasRaw mRes].
    unfold geti. apply get3_map3. exact Hi.
Qed.

(** ** Scale and data-rate setters *)

(** Replacing the bits of [mask] in a byte: the result is a byte, has the new
    field in the bits of [mask], and agrees with the old byte elsewhere. *)
Lemma field_update (r f mask : Z) :
  Z.land (255 - mask) mask = 0 ->
  Z.land (255 - mask) 255 = 255 - mask ->
  Z.land mask 255 = mask ->
  Z.land f mask = f ->
  let v := Z.lor (Z.land r (255 - mask)) f in
  to_uint8 v = v /\ Z.land v mask = f /\
  Z.land v (255 - mask) = Z.land r (255 - mask).
Proof.
  intros Hdisj Hc Hm Hf v.
  assert (Hfc : Z.land f (255 - mask) = 0).
  { rewrite <- Hf, <- Z.land_assoc, (Z.land_comm mask), Hdisj, Z.land_0_r.
    reflexivity. }
  assert (Hf255 : Z.land f 255 = f).
  { rewrite <- Hf at 1. rewrite <- Z.land_assoc, Hm. exact Hf. }
  subst v. split; [| split].
  - unfold to_uint8. change 256 with (2 ^ 8). rewrite <- Z.land_ones by lia.
    change (Z.ones 8) with 255.
    rewrite Z.land_lor_distr_l, <- Z.land_assoc, Hc, Hf255. reflexivity.
  - rewrite Z.land_lor_distr_l, <- Z.land_assoc, Hdisj, Z.land_0_r, Hf.
    apply Z.lor_0_l.
  - rewrite Z.land_lor_distr_l, <- Z.land_assoc, Z.land_diag, Hfc.
    apply Z.lor_0_r.
Qed.

Lemma land7_cases (x : Z) :
  Z.land x 7 = 0 \/ Z.land x 7 = 1 \/ Z.land x 7 = 2 \/ Z.land x 7 = 3 \/
  Z.land x 7 = 4 \/ Z.land x 7 = 5 \/ Z.land x 7 = 6 \/ Z.land x 7 = 7.
Proof.
  assert (E : Z.land x 7 = x mod 8).
  { change 7 with (Z.ones 3). rewrite Z.land_ones by lia. reflexivity. }
  rewrite E. pose proof (Z.mod_pos_bound x 8 ltac:(lia)). lia.
Qed.

Lemma rate_field_5 (x : Z) :
  Z.land (Z.shiftl (Z.land x 7) 5) 0xE0 = Z.shiftl (Z.land x 7) 5.
Proof.
  destruct (land7_cases x) as [E | [E | [E | [E | [E | [E | [E | E]]]]]]];
    rewrite E; reflexivity.
Qed.

Lemma rate_field_2 (x : Z) :
  Z.land (Z.shiftl (Z.land x 7) 2) 0x1C = Z.shiftl (Z.land x 7) 2.
Proof.
  destruct (land7_cases x) as [E | [E | [E | [E | [E | [E | [E | E]]]]]]];
    rewrite E; reflexivity.
Qed.

Lemma gyro_scale_bits_field (scale : Z) :
  Z.land (gyro_scale_bits scale) 0x18 = gyro_scale_bits scale.
Proof.
  unfold gyro_scale_bits.
  destruct (scale =? 500); [| destruct (scale =? 2000)]; reflexivity.
Qed.

Lemma accel_scale_bits_field (scale : Z) :
  Z.land (accel_scale_bits scale) 0x18 = accel_scale_bits scale.
Proof.
  unfold accel_scale_bits.
  destruct (scale =? 4); [| destruct (scale =? 8); [| destruct (scale =? 16)]];
    reflexivity.
Qed.

Lemma mag_scale_bits_field (scale : Z) :
  Z.land (mag_scale_bits scale) 0x60 = mag_scale_bits scale.
Proof.
  unfold mag_scale_bits.
  destruct (scale =? 8); [| destruct (scale =? 12); [| destruct (scale =? 16)]];
    reflexivity.
Qed.

(** A read of a register followed by a write-back of the same register with
    one field replaced, as every setter performs it on the
    accelerometer/gyroscope. *)
Lemma xg_read_modify_write (reg mask f : Z) (upd : Globals -> Globals) (w : W) :
  Z.land (255 - mask) mask = 0 ->
  Z.land (255 - mask) 255 = 255 - mask ->
  Z.land mask 255 = mask ->
  Z.land f mask = f ->
  (forall g, settings (upd g) = settings g \/
             device (settings (upd g)) = device (settings g)) ->
  (forall g, _xgAddress (upd g) = _xgAddress g) ->
  let r := fst (LSM9DS1_xgReadByte bsp reg w) in
  let w1 := snd (LSM9DS1_xgReadByte bsp reg w) in
  let w' := LSM9DS1_xgWriteByte bsp reg (Z.lor (Z.land r (255 - mask)) f)
              (upd_globals upd w1) in
  rewrites_field w w' (_xgAddress (globals w)) reg r mask f /\
  globals w' = upd (globals w).
Proof.
  intros M1 M2 M3 Hf Hdev Hadr r w1 w'.
  destruct (field_update r f mask M1 M2 M3 Hf) as (Eu & Ef & Ec).
  pose proof (xgReadByte_globals reg w) as Hg.
  pose proof (xgReadByte_trace reg w) as Ht.
  fold w1 in Hg, Ht. fold r in Ht.
  split.
  - exists (Z.lor (Z.land r (255 - mask)) f).
    split; [| split; [exact Ef | exact Ec]].
    subst w'. rewrite xgWriteByte_trace, Eu.
    unfold iface. cbn [globals trace upd_globals].
    rewrite Ht, Hg, Hadr, <- app_assoc.
    assert (Ed : device (settings (upd (globals w))) =
                 device (settings (globals w))).
    { destruct (Hdev (globals w)) as [E | E]; [rewrite E |]; congruence. }
    rewrite Ed. reflexivity.
  - subst w'. rewrite xgWriteByte_globals. cbn [globals upd_globals].
    rewrite Hg. reflexivity.
Qed.

Lemma m_read_modify_write (reg mask f : Z) (upd : Globals -> Globals) (w : W) :
  Z.land (255 - mask) mask = 0 ->
  Z.land (255 - mask) 255 = 255 - mask ->
  Z.land mask 255 = mask ->
  Z.land f mask = f ->
  (forall g, settings (upd g) = settings g \/
             device (settings (upd g)) = device (settings g)) ->
  (forall g, _mAddress (upd g) = _mAddress g) ->
  let r := fst (LSM9DS1_mReadByte bsp reg w) in
  let w1 := snd (LSM9DS1_mReadByte bsp reg w) in
  let w' := LSM9DS1_mWriteByte bsp reg (Z.lor (Z.land r (255 - mask)) f)
              (upd_globals upd w1) in
  rewrites_field w w' (_mAddress (globals w)) reg r mask f /\
  globals w' = upd (globals w).
Proof.
  intros M1 M2 M3 Hf Hdev Hadr r w1 w'.
  destruct (field_update r f mask M1 M2 M3 Hf) as (Eu & Ef & Ec).
  pose proof (mReadByte_globals reg w) as Hg.
  pose proof (mReadByte_trace reg w) as Ht.
  fold w1 in Hg, Ht. fold r in Ht.
  split.
  - exists (Z.lor (Z.land r (255 - mask)) f).
    split; [| split; [exact Ef | exact Ec]].
    subst w'. rewrite mWriteByte_trace, Eu.
    unfold iface. cbn [globals trace upd_globals].
    rewrite Ht, Hg, Hadr, <- app_assoc.
    assert (Ed : device (settings (upd (globals w))) =
                 device (settings (globals w))).
    { destruct (Hdev (globals w)) as [E | E]; [rewrite E |]; congruence. }
    rewrite Ed. reflexivity.
  - subst w'. rewrite mWriteByte_globals. cbn [globals upd_globals].
    rewrite Hg. reflexivity.
Qed.

Lemma rewrites_field_trace (w w1 w2 : W) (address reg r mask f : Z) :
  trace w2 = trace w1 ->
  rewrites_field w w1 address reg r mask f ->
  rewrites_field w w2 address reg r mask f.
Proof. unfold rewrites_field. intros ->. exact (fun x => x). Qed.

Lemma setGyroScale_spec (gScl : Z) (w : W) :
  0 <= gScl <= 65535 ->
  let w' := LSM9DS1_setGyroScale bsp H gScl w in
  let scale := if gScl =? 500 then 500 else if gScl =? 2000 then 2000 else 245 in
  rewrites_field w w' (_xgAddress (globals w)) (CTRL_REG1_G H)
    (fst (LSM9DS1_xgReadByte bsp (CTRL_REG1_G H) w)) 0x18
    (gyro_scale_bits scale) /\
  gScale w' = scale /\
  gRes (globals w') = gyro_sensitivity scale.
Proof.
  intros Hx w' scale.
  destruct (xg_read_modify_write (CTRL_REG1_G H) 0x18 (gyro_scale_bits scale)
              (fun g => with_settings (set_g_scale scale (settings g)) g) w
              eq_refl eq_refl eq_refl (gyro_scale_bits_field scale)
              (fun g => or_intror eq_refl) (fun g => eq_refl)) as (Hrf & Hgl).
  cbv zeta in Hrf, Hgl.
  set (ww := LSM9DS1_xgWriteByte bsp (CTRL_REG1_G H) _ _) in Hrf, Hgl.
  assert (Ew : w' = snd (LSM9DS1_calcgRes ww)).
  { subst w' ww scale. unfold LSM9DS1_setGyroScale, to_uint16.
    rewrite (Z.mod_small gScl 65536) by lia.
    destruct (LSM9DS1_xgReadByte bsp (CTRL_REG1_G H) w) as [r w1].
    cbn [fst snd]. unfold gyro_scale_bits.
    destruct (gScl =? 500); [| destruct (gScl =? 2000)];
      cbv beta iota; cbn [Z.eqb Pos.eqb]; rewrite ?Z.lor_0_r; reflexivity. }
  assert (Hs : gScale ww = scale)
    by (unfold gScale; rewrite Hgl; reflexivity).
  assert (Hsup : gyro_scale_supported (gScale ww)).
  { rewrite Hs. subst scale. unfold gyro_scale_supported.
    destruct (gScl =? 500); [| destruct (gScl =? 2000)]; lia. }
  rewrite Ew, calcgRes_eq.
  split; [| split].
  - apply (rewrites_field_trace w ww); [reflexivity | exact Hrf].
  - exact Hs.
  - cbn [globals upd_globals with_gRes gRes].
    rewrite (calcgRes_sensitivity ww Hsup), Hs. reflexivity.
Qed.

Lemma setAccelScale_spec (aScl : Z) (w : W) :
  0 <= aScl <= 255 ->
  let w' := LSM9DS1_setAccelScale bsp H aScl w in
  let scale :=
    if aScl =? 4 then 4 else if aScl =? 8 then 8
    else if aScl =? 16 then 16 else 2 in
  rewrites_field w w' (_xgAddress (globals w)) (CTRL_REG6_XL H)
    (fst (LSM9DS1_xgReadByte bsp (CTRL_REG6_XL H) w)) 0x18
    (accel_scale_bits scale) /\
  aScale w' = scale /\
  aRes (globals w') = accel_sensitivity scale.
Proof.
  intros Hx w' scale.
  destruct (xg_read_modify_write (CTRL_REG6_XL H) 0x18 (accel_scale_bits scale)
              (fun g => with_settings (set_a_scale scale (settings g)) g) w
              eq_refl eq_refl eq_refl (accel_scale_bits_field scale)
              (fun g => or_intror eq_refl) (fun g => eq_refl)) as (Hrf & Hgl).
  cbv zeta in Hrf, Hgl.
  set (ww := LSM9DS1_xgWriteByte bsp (CTRL_REG6_XL H) _ _) in Hrf, Hgl.
  assert (Ew : w' = snd (LSM9DS1_calcaRes ww)).
  { subst w' ww scale. unfold LSM9DS1_setAccelScale.
    rewrite (to_uint8_id aScl Hx).
    destruct (LSM9DS1_xgReadByte bsp (CTRL_REG6_XL H) w) as [r w1].
    cbn [fst snd]. unfold accel_scale_bits.
    destruct (aScl =? 4); [| destruct (aScl =? 8); [| destruct (aScl =? 16)]];
      cbv beta iota; cbn [Z.eqb Pos.eqb]; rewrite ?Z.lor_0_r; reflexivity. }
  assert (Hs : aScale ww = scale)
    by (unfold aScale; rewrite Hgl; reflexivity).
  assert (Hsup : accel_scale_supported (aScale ww)).
  { rewrite Hs. subst scale. unfold accel_scale_supported.
    destruct (aScl =? 4); [| destruct (aScl =? 8); [| destruct (aScl =? 16)]];
      lia. }
  rewrite Ew, calcaRes_eq.
  split; [| split].
  - apply (rewrites_field_trace w ww); [reflexivity | exact Hrf].
  - exact Hs.
  - cbn [globals upd_globals with_aRes aRes].
    rewrite (calcaRes_sensitivity ww Hsup), Hs. reflexivity.
Qed.

Lemma setMagScale_spec (mScl : Z) (w : W) :
  0 <= mScl <= 255 ->
  let w' := LSM9DS1_setMagScale bsp H mScl w in
  let scale :=
    if mScl =? 8 then 8 else if mScl =? 12 then 12
    else if mScl =? 16 then 16 else 4 in
  rewrites_field w w' (_mAddress (globals w)) (CTRL_REG2_M H)
    (fst (LSM9DS1_mReadByte bsp (CTRL_REG2_M H) w)) 0x60
    (mag_scale_bits scale) /\
  mScale w' = scale /\
  mRes (globals w') = mag_sensitivity scale.
Proof.
  intros Hx w' scale.
  destruct (m_read_modify_write (CTRL_REG2_M H) 0x60 (mag_scale_bits scale)
              (fun g => with_settings (set_m_scale scale (settings g)) g) w
              eq_refl eq_refl eq_refl (mag_scale_bits_field scale)
              (fun g => or_intror eq_refl) (fun g => eq_refl)) as (Hrf & Hgl).
  cbv zeta in Hrf, Hgl.
  set (ww := LSM9DS1_mWriteByte bsp (CTRL_REG2_M H) _ _) in Hrf, Hgl.
  assert (Ew : w' = snd (LSM9DS1_calcmRes ww)).
  { subst w' ww scale. unfold LSM9DS1_setMagScale.
    rewrite (to_uint8_id mScl Hx).
    destruct (LSM9DS1_mReadByte bsp (CTRL_REG2_M H) w) as [r w1].
    cbn [fst snd]. unfold mag_scale_bits.
    destruct (mScl =? 8); [| destruct (mScl =? 12); [| destruct (mScl =? 16)]];
      cbv beta iota; cbn [Z.eqb Pos.eqb]; rewrite ?Z.lor_0_r; reflexivity. }
  assert (Hs : mScale ww = scale)
    by (unfold mScale; rewrite Hgl; reflexivity).
  assert (Hsup : mag_scale_supported (mScale ww)).
  { rewrite Hs. subst scale. unfold mag_scale_supported.
    destruct (mScl =? 8); [| destruct (mScl =? 12); [| destruct (mScl =? 16)]];
      lia. }
  rewrite Ew, calcmRes_eq.
  split; [| split].
  - apply (rewrites_field_trace w ww); [reflexivity | exact Hrf].
  - exact Hs.
  - cbn [globals upd_globals with_mRes mRes].
    rewrite (calcmRes_sensitivity ww Hsup), Hs. reflexivity.
Qed.

Lemma setGyroODR_spec (gRate : Z) (w : W) :
  0 <= gRate <= 255 ->
  let w' := LSM9DS1_setGyroODR bsp H gRate w in
  (Z.land gRate 0x07 <> 0 ->
   rewrites_field w w' (_xgAddress (globals w)) (CTRL_REG1_G H)
     (fst (LSM9DS1_xgReadByte bsp (CTRL_REG1_G H) w)) 0xE0
     (Z.shiftl (Z.land gRate 0x07) 5) /\
   g_sampleRate (gyro (settings (globals w'))) = Z.land gRate 0x07) /\
  (Z.land gRate 0x07 = 0 -> w' = w).
Proof.
  intros Hx w'. subst w'. unfold LSM9DS1_setGyroODR.
  rewrite (to_uint8_id gRate Hx).
  destruct (Z.eqb_spec (Z.land gRate 7) 0) as [E | N]; cbn [negb].
  - split; [intros C; contradiction | reflexivity].
  - split; [intros _ | intros C; contradiction].
    destruct (xg_read_modify_write (CTRL_REG1_G H) 0xE0
                (Z.shiftl (Z.land gRate 7) 5)
                (fun g => with_settings
                            (set_g_sampleRate (Z.land gRate 7) (settings g)) g)
                w eq_refl eq_refl eq_refl (rate_field_5 gRate)
                (fun g => or_intror eq_refl) (fun g => eq_refl)) as (Hrf & Hgl).
    cbv zeta in Hrf, Hgl.
    destruct (LSM9DS1_xgReadByte bsp (CTRL_REG1_G H) w) as [r w1].
    cbn [fst snd] in *.
    split; [exact Hrf | rewrite xgWriteByte_globals; reflexivity].
Qed.

Lemma setAccelODR_spec (aRate : Z) (w : W) :
  0 <= aRate <= 255 ->
  let w' := LSM9DS1_setAccelODR bsp H aRate w in
  (Z.land aRate 0x07 <> 0 ->
   rewrites_field w w' (_xgAddress (globals w)) (CTRL_REG6_XL H)
     (fst (LSM9DS1_xgReadByte bsp (CTRL_REG6_XL H) w)) 0xE0
     (Z.shiftl (Z.land aRate 0x07) 5) /\
   a_sampleRate (accel (settings (globals w'))) = Z.land aRate 0x07) /\
  (Z.land aRate 0x07 = 0 -> w' = w).
Proof.
  intros Hx w'. subst w'. unfold LSM9DS1_setAccelODR.
  rewrite (to_uint8_id aRate Hx).
  destruct (Z.eqb_spec (Z.land aRate 7) 0) as [E | N]; cbn [negb].
  - split; [intros C; contradiction | reflexivity].
  - split; [intros _ | intros C; contradiction].
    destruct (xg_read_modify_write (CTRL_REG6_XL H) 0xE0
                (Z.shiftl (Z.land aRate 7) 5)
                (fun g => with_settings
                            (set_a_sampleRate (Z.land aRate 7) (settings g)) g)
                w eq_refl eq_refl eq_refl (rate_field_5 aRate)
                (fun g => or_intror eq_refl) (fun g => eq_refl)) as (Hrf & Hgl).
    cbv zeta in Hrf, Hgl.
    destruct (LSM9DS1_xgReadByte bsp (CTRL_REG6_XL H) w) as [r w1].
    cbn [fst snd] in *.
    split; [exact Hrf | rewrite xgWriteByte_globals; reflexivity].
Qed.

Lemma setMagODR_spec (mRate : Z) (w : W) :
  0 <= mRate <= 255 ->
  let w' := LSM9DS1_setMagODR bsp H mRate w in
  rewrites_field w w' (_mAddress (globals w)) (CTRL_REG1_M H)
    (fst (LSM9DS1_mReadByte bsp (CTRL_REG1_M H) w)) 0x1C
    (Z.shiftl (Z.land mRate 0x07) 2) /\
  m_sampleRate (mag (settings (globals w'))) = Z.land mRate 0x07.
Proof.
  intros Hx w'. subst w'. unfold LSM9DS1_setMagODR.
  rewrite (to_uint8_id mRate Hx).
  destruct (m_read_modify_write (CTRL_REG1_M H) 0x1C
              (Z.shiftl (Z.land mRate 7) 2)
              (fun g => with_settings
                          (set_m_sampleRate (Z.land mRate 7) (settings g)) g)
              w eq_refl eq_refl eq_refl (rate_field_2 mRate)
              (fun g => or_intror eq_refl) (fun g => eq_refl)) as (Hrf & Hgl).
  cbv zeta in Hrf, Hgl.
  destruct (LSM9DS1_mReadByte bsp (CTRL_REG1_M H) w) as [r w1].
  cbn [fst snd] in *.
  split; [exact Hrf | rewrite mWriteByte_globals; reflexivity].
Qed.

(** C8, as the code has it: each scale setter and [LSM9DS1_setMagODR] reads
    its control register and writes it back with the bits of its own field
    replaced and every other bit as read; [LSM9DS1_setGyroODR] and
    [LSM9DS1_setAccelODR] do the same when the low three bits of the rate are
    not all zero, and otherwise return without touching the register or the
    settings.  A scale setter stores the scale it was asked for when that is
    a supported one and the default (245 dps, 2 g, 4 gauss) for any other
    request, and leaves the resolution equal to the documented sensitivity of
    the stored scale. *)
Theorem setters_rewrite_own_field_only
    (gScl aScl mScl gRate aRate mRate : Z) (w : W) :
  0 <= gScl <= 65535 -> 0 <= aScl <= 255 -> 0 <= mScl <= 255 ->
  0 <= gRate <= 255 -> 0 <= aRate <= 255 -> 0 <= mRate <= 255 ->
  (let w' := LSM9DS1_setGyroScale bsp H gScl w in
   rewrites_field w w' (_xgAddress (globals w)) (CTRL_REG1_G H)
     (fst (LSM9DS1_xgReadByte bsp (CTRL_REG1_G H) w)) 0x18
     (gyro_scale_bits (gScale w')) /\
   gyro_scale_supported (gScale w') /\
   (gyro_scale_supported gScl -> gScale w' = gScl) /\
   (~ gyro_scale_supported gScl -> gScale w' = 245) /\
   gRes (globals w') = gyro_sensitivity (gScale w'))
  /\
  (let w' := LSM9DS1_setAccelScale bsp H aScl w in
   rewrites_field w w' (_xgAddress (globals w)) (CTRL_REG6_XL H)
     (fst (LSM9DS1_xgReadByte bsp (CTRL_REG6_XL H) w)) 0x18
     (accel_scale_bits (aScale w')) /\
   accel_scale_supported (aScale w') /\
   (accel_scale_supported aScl -> aScale w' = aScl) /\
   (~ accel_scale_supported aScl -> aScale w' = 2) /\
   aRes (globals w') = accel_sensitivity (aScale w'))
  /\
  (let w' := LSM9DS1_setMagScale bsp H mScl w in
   rewrites_field w w' (_mAddress (globals w)) (CTRL_REG2_M H)
     (fst (LSM9DS1_mReadByte bsp (CTRL_REG2_M H) w)) 0x60
     (mag_scale_bits (mScale w')) /\
   mag_scale_supported (mScale w') /\
   (mag_scale_supported mScl -> mScale w' = mScl) /\
   (~ mag_scale_supported mScl -> mScale w' = 4) /\
   mRes (globals w') = mag_sensitivity (mScale w'))
  /\
  (let w' := LSM9DS1_setGyroODR bsp H gRate w in
   (Z.land gRate 0x07 <> 0 ->
    rewrites_field w w' (_xgAddress (globals w)) (CTRL_REG1_G H)
      (fst (LSM9DS1_xgReadByte bsp (CTRL_REG1_G H) w)) 0xE0
      (Z.shiftl (Z.land gRate 0x07) 5)) /\
   (Z.land gRate 0x07 = 0 -> w' = w))
  /\
  (let w' := LSM9DS1_setAccelODR bsp H aRate w in
   (Z.land aRate 0x07 <> 0 ->
    rewrites_field w w' (_xgAddress (globals w)) (CTRL_REG6_XL H)
      (fst (LSM9DS1_xgReadByte bsp (CTRL_REG6_XL H) w)) 0xE0
      (Z.shiftl (Z.land aRate 0x07) 5)) /\
   (Z.land aRate 0x07 = 0 -> w' = w))
  /\
  (let w' := LSM9DS1_setMagODR bsp H mRate w in
   rewrites_field w w' (_mAddress (globals w)) (CTRL_REG1_M H)
     (fst (LSM9DS1_mReadByte bsp (CTRL_REG1_M H) w)) 0x1C
     (Z.shiftl (Z.land mRate 0x07) 2)).
Proof.
  intros Hg Ha Hm Hgr Har Hmr.
  destruct (setGyroScale_spec gScl w Hg) as (G1 & G2 & G3).
  destruct (setAccelScale_spec aScl w Ha) as (A1 & A2 & A3).
  destruct (setMagScale_spec mScl w Hm) as (M1 & M2 & M3).
  destruct (setGyroODR_spec gRate w Hgr) as (GO1 & GO2).
  destruct (setAccelODR_spec aRate w Har) as (AO1 & AO2).
  destruct (setMagODR_spec mRate w Hmr) as (MO1 & _).
  cbv zeta in *.
  split; [| split; [| split; [| split; [| split]]]].
  - rewrite G2, G3. split; [exact G1 |].
    unfold gyro_scale_supported.
    destruct (Z.eqb_spec gScl 500); [| destruct (Z.eqb_spec gScl 2000)];
      repeat split; try reflexivity; lia.
  - rewrite A2, A3. split; [exact A1 |].
    unfold accel_scale_supported.
    destruct (Z.eqb_spec aScl 4);
      [| destruct (Z.eqb_spec aScl 8); [| destruct (Z.eqb_spec aScl 16)]];
      repeat split; try reflexivity; lia.
  - rewrite M2, M3. split; [exact M1 |].
    unfold mag_scale_supported.
    destruct (Z.eqb_spec mScl 8);
      [| destruct (Z.eqb_spec mScl 12); [| destruct (Z.eqb_spec mScl 16)]];
      repeat split; try reflexivity; lia.
  - split; [intros N; apply (GO1 N) | exact GO2].
  - split; [intros N; apply (AO1 N) | exact AO2].
  - exact MO1.
Qed.

(** ** The fuel only bounds the waits *)

(** A poll that succeeds within some fuel succeeds, with the same outcome,
    within any larger fuel: the result of a returning calibration does not
    depend on the bound. *)
Lemma calibrate_wait_more_fuel (fuel k : nat) :
  forall (samples : Z) (w : W) (r : Z * W),
    calibrate_wait bsp H fuel samples w = Some r ->
    calibrate_wait bsp H (fuel + k) samples w = Some r.
Proof.
  induction fuel as [| fuel IH]; intros samples w r.
  - cbn [calibrate_wait Nat.add].
    destruct (samples <? 31) eqn:E; [discriminate |].
    intros <-. destruct k; cbn [calibrate_wait]; rewrite E; reflexivity.
  - cbn [calibrate_wait Nat.add].
    destruct (samples <? 31); [| exact (fun x => x)].
    destruct (LSM9DS1_xgReadByte bsp (FIFO_SRC H) w) as [v w1].
    apply IH.
Qed.

Lemma calibrate_more_fuel (fuel k : nat) (autoCalc : bool) (w w' : W) :
  LSM9DS1_calibrate bsp H fuel autoCalc w = Some w' ->
  LSM9DS1_calibrate bsp H (fuel + k) autoCalc w = Some w'.
Proof.
  unfold LSM9DS1_calibrate.
  destruct (calibrate_wait bsp H fuel 0 _) as [r |] eqn:E; [| discriminate].
  rewrite (calibrate_wait_more_fuel fuel k _ _ _ E). exact (fun x => x).
Qed.

Lemma calibrateMag_wait_more_fuel (fuel k : nat) :
  forall w w1 : W,
    calibrateMag_wait bsp H fuel w = Some w1 ->
    calibrateMag_wait bsp H (fuel + k) w = Some w1.
Proof.
  induction fuel as [| fuel IH]; intros w w1; [discriminate |].
  cbn [calibrateMag_wait Nat.add].
  destruct (LSM9DS1_magAvailable bsp H (ALL_AXIS H) w) as [ready w'].
  destruct (ready =? 0); [apply IH | exact (fun x => x)].
Qed.

Lemma calibrateMag_sample_more_fuel (fuel k n : nat) :
  forall (mn mx : arr3 Z) (w : W) r,
    calibrateMag_sample bsp H fuel n mn mx w = Some r ->
    calibrateMag_sample bsp H (fuel + k) n mn mx w = Some r.
Proof.
  induction n as [| n IH]; intros mn mx w r; cbn [calibrateMag_sample];
    [exact (fun x => x) |].
  destruct (calibrateMag_wait bsp H fuel w) as [w1 |] eqn:E; [| discriminate].
  rewrite (calibrateMag_wait_more_fuel fuel k w w1 E).
  destruct (LSM9DS1_readMag bsp H uninit_triplet w1) as [t w2].
  destruct (fold_left (calibrateMag_track t) [0; 1; 2] (mn, mx)) as [mn' mx'].
  apply IH.
Qed.

Lemma calibrateMag_more_fuel (fuel k : nat) (loadIn : bool) (w w' : W) :
  LSM9DS1_calibrateMag bsp H fuel loadIn w = Some w' ->
  LSM9DS1_calibrateMag bsp H (fuel + k) loadIn w = Some w'.
Proof.
  unfold LSM9DS1_calibrateMag.
  destruct (calibrateMag_sample bsp H fuel 128 _ _ w) as [r |] eqn:E;
    [| discriminate].
  rewrite (calibrateMag_sample_more_fuel fuel k 128 _ _ _ _ E).
  exact (fun x => x).
Qed.

End Properties.

(** * Worked examples on the bench *)

Lemma begun_on_bench :
  LSM9DS1_begin bench datasheet w_on = Some (0x683D, w_begun).
Proof. vm_compute. reflexivity. Qed.

Lemma calibrated_on_bench :
  LSM9DS1_calibrate bench datasheet 1 true w_begun = Some w_calibrated.
Proof. vm_compute. reflexivity. Qed.

Lemma magcal_on_bench :
  LSM9DS1_calibrateMag bench datasheet 1 true w_begun = Some w_magcal.
Proof. vm_compute. reflexivity. Qed.


Example bench_mag_offsets :
  mBiasRaw (globals w_magcal) = (-50, 0, 0) /\
  skipn 266 (trace w_magcal) =
    [EvWrite IMU_MODE_I2C 0x1E 0x05 0xCE; EvWrite IMU_MODE_I2C 0x1E 0x06 0xFF;
     EvWrite IMU_MODE_I2C 0x1E 0x07 0; EvWrite IMU_MODE_I2C 0x1E 0x08 0;
     EvWrite IMU_MODE_I2C 0x1E 0x09 0; EvWrite IMU_MODE_I2C 0x1E 0x0A 0].
Proof. vm_compute. split; reflexivity. Qed.

Lemma filled_on_bench :
  exists w0,
    fifo_filled bench datasheet 1 w_begun = Some (31, w0) /\
    fst (fifo_batch bench datasheet 31 w0) =
      repeat ((5, 0, 0), (0, 0, -32768)) 31.
Proof.
  exists (after (option_map snd (fifo_filled bench datasheet 1 w_begun)) w_begun).
  vm_compute. split; reflexivity.
Qed.


Lemma recalibrated_on_bench :
  LSM9DS1_calibrate bench datasheet 1 false w_calibrated = Some w_recalibrated.
Proof. vm_compute. reflexivity. Qed.

Lemma refilled_on_bench :
  exists w0,
    fifo_filled bench datasheet 1 w_calibrated = Some (31, w0) /\
    raw_batch bench datasheet 31 w0 = repeat ((5, 0, 0), (0, 0, -32768)) 31.
Proof.
  exists (after (option_map snd (fifo_filled bench datasheet 1 w_calibrated))
                w_calibrated).
  vm_compute. split; reflexivity.
Qed.

Lemma bench_auto_calibration :
  _autoCalc (globals w_begun) = false /\
  _autoCalc (globals w_calibrated) = true /\
  gBiasRaw (globals w_calibrated) = (5, 0, 0).
Proof. vm_compute. repeat split. Qed.




(** Witness of C3: on the bench the gyroscope reads its own bias, so an
    auto-calibrated read is the zero triplet. *)
Lemma calibrate_auto_subtracts_bias_witness :
  LSM9DS1_calibrate bench datasheet 1 true w_begun = Some w_calibrated /\
  _autoCalc (globals w_calibrated) = true /\
  fst (LSM9DS1_readGyro bench datasheet (7, 7, 7) w_calibrated) = (0, 0, 0).
Proof.
  split; [exact calibrated_on_bench |].
  destruct (calibrate_auto_subtracts_bias bench datasheet 1 w_begun
              w_calibrated calibrated_on_bench) as (Hauto & Hread).
  split; [exact Hauto |].
  destruct (Hread w_calibrated (7, 7, 7) 0 eq_refl) as (Hg & _).
  apply (Hg ltac:(vm_compute; reflexivity)).
  vm_compute. reflexivity.
Defined.

(** Witness of C4: over the SPI stubs every burst comes back short. *)
Lemma short_read_keeps_triplet_and_zeroes_axis_witness :
  reported (xg_burst6 bench (OUT_X_L_XL datasheet) w_spi) < 6 /\
  fst (LSM9DS1_readAccel bench datasheet (1, 2, 3) w_spi) = (1, 2, 3) /\
  reported (m_burst2 bench (OUT_X_L_M datasheet) Z_AXIS w_spi) < 2 /\
  fst (LSM9DS1_readMagAxis bench datasheet Z_AXIS w_spi) = 0.
Proof.
  destruct (short_read_keeps_triplet_and_zeroes_axis bench datasheet
              (1, 2, 3) Z_AXIS w_spi) as (_ & Ha & _ & _ & _ & Hm).
  split; [vm_compute; reflexivity |].
  split; [apply Ha; vm_compute; reflexivity |].
  split; [vm_compute; reflexivity |].
  apply Hm. vm_compute. reflexivity.
Defined.

(** Counterexample to C4 as stated: on a short read the single-axis
    accelerometer reader hands the value 0 to its caller. *)
Lemma readAccelAxis_short_read_yields_zero :
  reported (xg_burst2 bench (OUT_X_L_XL datasheet) X_AXIS w_spi) < 2 /\
  fst (LSM9DS1_readAccelAxis bench datasheet X_AXIS w_spi) = 0.
Proof. vm_compute. split; reflexivity. Qed.

(** Witness of C5: on the bench the bus opens, so [LSM9DS1_begin] returns;
    it returns the expected identity and the log ends with the eight
    initialisation writes. *)
Lemma begin_returns_identity_and_initialises_witness :
  0 <= WHO_AM_I_AG_RSP datasheet <= 255 /\
  0 <= WHO_AM_I_M_RSP datasheet <= 255 /\
  LSM9DS1_begin bench datasheet w_on = Some (0x683D, w_begun) /\
  exists mTest xgTest vg va,
    0x683D = 256 * xgTest + mTest /\
    xgTest = 0x68 /\ mTest = 0x3D /\
    trace w_begun =
      trace w_on ++
      [EvRead IMU_MODE_I2C 0x1E 0x0F 1 [mTest];
       EvRead IMU_MODE_I2C 0x6B 0x0F 1 [xgTest]] ++
      writes_to IMU_MODE_I2C 0x6B (gyro_init_registers datasheet) vg ++
      writes_to IMU_MODE_I2C 0x6B (accel_init_registers datasheet) va.
Proof.
  assert (Hag : 0 <= WHO_AM_I_AG_RSP datasheet <= 255) by (cbn; lia).
  assert (Hm : 0 <= WHO_AM_I_M_RSP datasheet <= 255) by (cbn; lia).
  split; [exact Hag |]. split; [exact Hm |].
  split; [exact begun_on_bench |].
  destruct (begin_returns_identity_and_initialises bench datasheet w_on Hag Hm)
    as (_ & Hb & _).
  destruct (Hb _ _ begun_on_bench)
    as (mTest & xgTest & vg & va & _ & _ & Hr & Hiff & _ & _ & Ht).
  destruct (proj1 Hiff eq_refl) as (Ex & Em).
  exists mTest, xgTest, vg, va.
  split; [exact Hr |]. split; [exact Ex |]. split; [exact Em |]. exact Ht.
Defined.

(** Counterexample to C5 as stated: on a foreign device [LSM9DS1_begin]
    returns 257, a non-zero value that is not the expected identity, while
    [LSM9DS1_isConnected] reports the mismatch. *)
Lemma begin_returns_identity_not_verdict :
  exists w',
    LSM9DS1_begin foreign datasheet w_on = Some (257, w') /\
    257 <> 0 /\
    257 <> whoAmI_expected datasheet /\
    fst (LSM9DS1_isConnected foreign datasheet w') = false.
Proof.
  exists (after (option_map snd (LSM9DS1_begin foreign datasheet w_on)) w_on).
  vm_compute. repeat split; try reflexivity; discriminate.
Qed.

(** Witness of C6: the default scales are supported ones, and unsupported
    scales are replaced by the defaults. *)
Lemma resolution_is_documented_sensitivity_witness :
  gScale w_on = 245 /\
  fst (LSM9DS1_calcgRes w_on) = SENSITIVITY_GYROSCOPE_245 /\
  ~ accel_scale_supported (aScale w_odd_scales) /\
  aScale (LSM9DS1_constrainScales w_odd_scales) = 2 /\
  fst (LSM9DS1_calcaRes (LSM9DS1_constrainScales w_odd_scales)) =
    SENSITIVITY_ACCELEROMETER_2 /\
  LSM9DS1_begin bench datasheet w_on = Some (0x683D, w_begun) /\
  mRes (globals w_begun) = mag_sensitivity (mScale w_begun).
Proof.
  assert (Hodd : ~ accel_scale_supported (aScale w_odd_scales)).
  { unfold accel_scale_supported. cbn. lia. }
  destruct (resolution_is_documented_sensitivity bench datasheet w_on)
    as ((G245 & _) & _ & _ & _ & _ & _ & Hb).
  destruct (resolution_is_documented_sensitivity bench datasheet w_odd_scales)
    as (_ & _ & _ & _ & (_ & Ha) & _).
  destruct (Hb _ _ begun_on_bench) as (_ & _ & _ & Hm).
  split; [reflexivity |]. split; [apply G245; reflexivity |].
  split; [exact Hodd |].
  split; [apply (Ha Hodd) |]. split; [apply (Ha Hodd) |].
  split; [exact begun_on_bench | exact Hm].
Defined.

(** Witness of C7. *)
Lemma published_bias_is_resolution_times_raw_witness :
  0 <= 0 <= 2 /\
  LSM9DS1_calibrate bench datasheet 1 true w_begun = Some w_calibrated /\
  get3 F32.zero (gBias (globals w_calibrated)) 0 =
    F32.mul_int (gRes (globals w_calibrated))
                (geti (gBiasRaw (globals w_calibrated)) 0) /\
  get3 F32.zero (aBias (globals w_calibrated)) 0 =
    F32.mul_int (aRes (globals w_calibrated))
                (geti (aBiasRaw (globals w_calibrated)) 0).
Proof.
  assert (Hi : 0 <= 0 <= 2) by lia.
  split; [exact Hi |]. split; [exact calibrated_on_bench |].
  destruct (published_bias_is_resolution_times_raw bench datasheet w_begun
              w_calibrated 0 Hi) as (Hc & _).
  exact (Hc 1%nat true calibrated_on_bench).
Defined.

(** Witness of C8: a supported and an unsupported scale request, a rate
    that is written and a rate that is skipped. *)
Lemma setters_rewrite_own_field_only_witness :
  (0 <= 2000 <= 65535 /\ 0 <= 16 <= 255 /\ 0 <= 12 <= 255 /\
   0 <= 3 <= 255 /\ 0 <= 8 <= 255 /\ 0 <= 5 <= 255) /\
  gScale (LSM9DS1_setGyroScale bench datasheet 2000 w_begun) = 2000 /\
  gRes (globals (LSM9DS1_setGyroScale bench datasheet 2000 w_begun)) =
    SENSITIVITY_GYROSCOPE_2000 /\
  Z.land 3 0x07 <> 0 /\
  rewrites_field w_begun (LSM9DS1_setGyroODR bench datasheet 3 w_begun)
    0x6B 0x10 0 0xE0 0x60 /\
  Z.land 8 0x07 = 0 /\
  LSM9DS1_setAccelODR bench datasheet 8 w_begun = w_begun /\
  (0 <= 1000 <= 65535 /\ 0 <= 3 <= 255 /\ 0 <= 5 <= 255) /\
  (~ gyro_scale_supported 1000 /\ ~ accel_scale_supported 3 /\
   ~ mag_scale_supported 5) /\
  gScale (LSM9DS1_setGyroScale bench datasheet 1000 w_begun) = 245 /\
  aScale (LSM9DS1_setAccelScale bench datasheet 3 w_begun) = 2 /\
  mScale (LSM9DS1_setMagScale bench datasheet 5 w_begun) = 4.
Proof.
  assert (Hr : 0 <= 2000 <= 65535 /\ 0 <= 16 <= 255 /\ 0 <= 12 <= 255 /\
               0 <= 3 <= 255 /\ 0 <= 8 <= 255 /\ 0 <= 5 <= 255) by lia.
  split; [exact Hr |].
  destruct Hr as (R1 & R2 & R3 & R4 & R5 & R6).
  destruct (setters_rewrite_own_field_only bench datasheet 2000 16 12 3 8 5
              w_begun R1 R2 R3 R4 R5 R6)
    as ((_ & _ & Hs & _ & Hres) & _ & _ & (Hodr & _) & (_ & Hskip) & _).
  assert (Hs' : gScale (LSM9DS1_setGyroScale bench datasheet 2000 w_begun) = 2000).
  { apply Hs. unfold gyro_scale_supported. lia. }
  split; [exact Hs' |].
  split; [rewrite Hres, Hs'; reflexivity |].
  assert (N3 : Z.land 3 7 <> 0) by (cbn; lia).
  split; [exact N3 |]. split; [exact (Hodr N3) |].
  split; [reflexivity |]. split; [exact (Hskip eq_refl) |].
  assert (Hu : 0 <= 1000 <= 65535 /\ 0 <= 3 <= 255 /\ 0 <= 5 <= 255) by lia.
  split; [exact Hu |].
  destruct Hu as (U1 & U2 & U3).
  assert (Hn : ~ gyro_scale_supported 1000 /\ ~ accel_scale_supported 3 /\
               ~ mag_scale_supported 5).
  { unfold gyro_scale_supported, accel_scale_supported, mag_scale_supported.
    lia. }
  split; [exact Hn |].
  destruct Hn as (N1 & N2 & N4).
  destruct (setters_rewrite_own_field_only bench datasheet 1000 3 5 3 8 5
              w_begun U1 U2 U3 R4 R5 R6)
    as ((_ & _ & _ & Hg & _) & (_ & _ & _ & Ha & _) & (_ & _ & _ & Hm & _) & _).
  split; [exact (Hg N1) |]. split; [exact (Ha N2) | exact (Hm N4)].
Defined.

(** Counterexample to C8 as stated: asked for rate 0,
    [LSM9DS1_setGyroODR] returns the session as it found it; no register is
    read back and none is rewritten. *)
Lemma setGyroODR_zero_rate_writes_nothing :
  LSM9DS1_setGyroODR bench datasheet 0 w_begun = w_begun /\
  forall address reg r mask field,
    ~ rewrites_field w_begun (LSM9DS1_setGyroODR bench datasheet 0 w_begun)
        address reg r mask field.
Proof.
  assert (E : LSM9DS1_setGyroODR bench datasheet 0 w_begun = w_begun)
    by (vm_compute; reflexivity).
  split; [exact E |].
  intros address reg r mask field (v & Ht & _).
  rewrite E in Ht.
  apply (f_equal (@length Event)) in Ht.
  rewrite length_app in Ht. cbn [length] in Ht. lia.
Qed.

(** Witness of C9: mode 6 with a requested threshold of 40 writes 0xDF,
    mode bits 110 and threshold 31. *)
Lemma setFIFO_writes_mode_and_clamped_threshold_witness :
  0 <= 40 <= 255 /\
  trace (LSM9DS1_setFIFO bench datasheet 6 40 w_begun) =
    trace w_begun ++ [EvWrite IMU_MODE_I2C 0x6B 0x2E 0xDF].
Proof.
  assert (Hr : 0 <= 40 <= 255) by lia.
  split; [exact Hr |].
  exact (proj1 (setFIFO_writes_mode_and_clamped_threshold bench datasheet 6 40
                  w_begun Hr)).
Defined.

(** Witness of C10: axis 7 is ignored; axis 1 writes registers 0x07 and
    0x08. *)
Lemma magOffset_stays_in_trim_block_witness :
  (0 <= 7 <= 255 /\ 0 <= 1 <= 255 /\
   0 <= OFFSET_X_REG_L_M datasheet <= OFFSET_X_REG_H_M datasheet /\
   OFFSET_X_REG_H_M datasheet + 4 <= 255) /\
  LSM9DS1_magOffset bench datasheet 7 (-50) w_begun = w_begun /\
  exists lsb msb,
    trace (LSM9DS1_magOffset bench datasheet 1 (-50) w_begun) =
      trace w_begun ++ [EvWrite IMU_MODE_I2C 0x1E 0x07 lsb;
                        EvWrite IMU_MODE_I2C 0x1E 0x08 msb].
Proof.
  assert (Hr : 0 <= 7 <= 255 /\ 0 <= 1 <= 255 /\
               0 <= OFFSET_X_REG_L_M datasheet <= OFFSET_X_REG_H_M datasheet /\
               OFFSET_X_REG_H_M datasheet + 4 <= 255) by (cbn; lia).
  split; [exact Hr |].
  destruct Hr as (R7 & R1 & Rb & Rf).
  split.
  - apply (proj1 (magOffset_stays_in_trim_block bench datasheet 7 (-50) w_begun
                    R7 Rb Rf)). lia.
  - destruct (proj2 (magOffset_stays_in_trim_block bench datasheet 1 (-50)
                       w_begun R1 Rb Rf) ltac:(lia))
      as (rl & rh & lsb & msb & Ht & _ & -> & -> & _).
    exists lsb, msb. exact Ht.
Defined.

(** * Properties of the rest of the driver *)

(** ** Bytes *)

Lemma all_bytes_spec (P : Z -> bool) :
  forallb P all_bytes = true -> forall r, 0 <= r <= 255 -> P r = true.
Proof.
  intros Hall r Hr. rewrite forallb_forall in Hall. apply Hall.
  unfold all_bytes. apply in_map_iff. exists (Z.to_nat r).
  split; [lia | apply in_seq; lia].
Qed.

(** Setting or clearing bit [k] of a byte gives a byte that differs from it
    in that bit only. *)
Lemma bit_rmw (k r : Z) (b : bool) :
  0 <= k <= 7 -> 0 <= r <= 255 ->
  let m := Z.shiftl 1 k in
  let v := if b then Z.lor r m else Z.land r (Z.lnot m) in
  to_uint8 v = v /\ Z.land v m = (if b then m else 0) /\
  Z.land v (255 - m) = Z.land r (255 - m).
Proof.
  intros Hk Hr.
  assert (Hall :
    forallb (fun r =>
      forallb (fun k =>
        forallb (fun b : bool =>
          let m := Z.shiftl 1 k in
          let v := if b then Z.lor r m else Z.land r (Z.lnot m) in
          (to_uint8 v =? v) && (Z.land v m =? (if b then m else 0)) &&
          (Z.land v (255 - m) =? Z.land r (255 - m)))
          [true; false])
        [0; 1; 2; 3; 4; 5; 6; 7]) all_bytes = true)
    by (vm_compute; reflexivity).
  pose proof (all_bytes_spec _ Hall r Hr) as Hk'. cbv beta in Hk'.
  rewrite forallb_forall in Hk'.
  assert (Hin : In k [0; 1; 2; 3; 4; 5; 6; 7]) by (cbn [In]; lia).
  specialize (Hk' k Hin). rewrite forallb_forall in Hk'.
  assert (Hb : In b [true; false]) by (destruct b; cbn [In]; tauto).
  specialize (Hk' b Hb). cbv zeta in Hk'.
  apply andb_prop in Hk'. destruct Hk' as [Hk' E3].
  apply andb_prop in Hk'. destruct Hk' as [E1 E2].
  cbv zeta. repeat split; apply Z.eqb_eq; assumption.
Qed.

(** A 7-bit value with a flag in bit 7, as the duration and threshold
    registers take it. *)
Lemma flag7_byte (d : Z) (b : bool) :
  let t := Z.land (to_uint8 d) 0x7F in
  to_uint8 (if b then Z.lor t 0x80 else t) = d mod 128 + (if b then 128 else 0).
Proof.
  cbv zeta.
  assert (Hall :
    forallb (fun r =>
      forallb (fun b : bool =>
        to_uint8 (if b then Z.lor (Z.land r 127) 128 else Z.land r 127) =?
        r mod 128 + (if b then 128 else 0)) [true; false]) all_bytes = true)
    by (vm_compute; reflexivity).
  pose proof (all_bytes_spec _ Hall (to_uint8 d) (to_uint8_range d)) as Hd.
  cbv beta in Hd. rewrite forallb_forall in Hd.
  assert (Hb : In b [true; false]) by (destruct b; cbn [In]; tauto).
  specialize (Hd b Hb). apply Z.eqb_eq in Hd. rewrite Hd.
  assert (E : to_uint8 d mod 128 = d mod 128).
  { unfold to_uint8. change 256 with (128 * 2).
    rewrite Z.rem_mul_r by lia.
    rewrite (Z.mul_comm 128), Z.mod_add by lia.
    apply Z.mod_mod. lia. }
  rewrite E. reflexivity.
Qed.

(** The two bytes a 15-bit threshold is split into. *)
Lemma threshold_bytes (t : Z) :
  let hi := to_uint8 (Z.shiftr (Z.land t 0x7F00) 8) in
  let lo := to_uint8 (Z.land t 0x00FF) in
  0 <= hi <= 127 /\ 0 <= lo <= 255 /\ 256 * hi + lo = t mod 32768.
Proof.
  intros hi lo.
  assert (Hl : Z.land t 255 = t mod 256).
  { change 255 with (Z.ones 8). apply Z.land_ones. lia. }
  assert (Hm : Z.shiftr (Z.land t 32512) 8 = (t / 256) mod 128).
  { rewrite Z.shiftr_land. change (Z.shiftr 32512 8) with (Z.ones 7).
    rewrite Z.land_ones by lia. rewrite Z.shiftr_div_pow2 by lia.
    reflexivity. }
  pose proof (Z.mod_pos_bound t 256 ltac:(lia)) as Bl.
  pose proof (Z.mod_pos_bound (t / 256) 128 ltac:(lia)) as Bh.
  assert (Hlo : lo = t mod 256).
  { subst lo. rewrite Hl. apply to_uint8_id. lia. }
  assert (Hhi : hi = (t / 256) mod 128).
  { subst hi. rewrite Hm. apply to_uint8_id. lia. }
  rewrite Hlo, Hhi. repeat split; try lia.
  change 32768 with (256 * 128). rewrite Z.rem_mul_r by lia. lia.
Qed.

Lemma to_int16_mod_32768 (t : Z) : to_int16 t mod 32768 = t mod 32768.
Proof.
  unfold to_int16.
  rewrite (Z.mod_eq (t + 32768) 65536) by lia.
  replace (t + 32768 - 65536 * ((t + 32768) / 65536) - 32768)
    with (t + (- 2 * ((t + 32768) / 65536)) * 32768) by lia.
  apply Z.mod_add. lia.
Qed.

Lemma to_uint16_mod_32768 (t : Z) : to_uint16 t mod 32768 = t mod 32768.
Proof.
  unfold to_uint16.
  rewrite (Z.mod_eq t 65536) by lia.
  replace (t - 65536 * (t / 65536))
    with (t + (- 2 * (t / 65536)) * 32768) by lia.
  apply Z.mod_add. lia.
Qed.

Section MoreProperties.

Context {Dev : Type} (bsp : I2C_IF Dev) (H : Headers) (X : MoreHeaders).

Local Abbreviation W := (World Dev).


(** ** Bring-up *)

(** [LSM9DS1_begin] changes the driver's variables before it opens the bus
    and not after. *)
Lemma begin_globals (w w' : W) (r : Z) :
  LSM9DS1_begin bsp H w = Some (r, w') ->
  globals w' =
  globals
    (snd (LSM9DS1_calcaRes (snd (LSM9DS1_calcmRes (snd (LSM9DS1_calcgRes
       (LSM9DS1_constrainScales
          (upd_globals
             (fun g => with_mAddress (mAddress (device (settings g)))
                         (with_xgAddress (agAddress (device (settings g))) g))
             w)))))))).
Proof.
  unfold LSM9DS1_begin.
  set (wr := snd (LSM9DS1_calcaRes _)). clearbody wr.
  assert (Hopen : forall wo,
            match iface wr with
            | IMU_MODE_SPI => Some (LSM9DS1_initSPI wr)
            | IMU_MODE_I2C => LSM9DS1_initI2C bsp H wr
            end = Some wo -> globals wo = globals wr).
  { intros wo. destruct (iface wr).
    - unfold LSM9DS1_initSPI. intros E. injection E as <-. reflexivity.
    - unfold LSM9DS1_initI2C.
      destruct (I2C_IF_Open bsp (bus wr) (I2C_MASTER_MODE_STD H)) as [rc d].
      destruct (rc <? 0); [discriminate |].
      intros E. injection E as <-. reflexivity. }
  destruct (match iface wr with
            | IMU_MODE_SPI => _ | IMU_MODE_I2C => _ end) as [wo |];
    [| discriminate].
  specialize (Hopen wo eq_refl).
  pose proof (mReadByte_globals bsp (WHO_AM_I_M H) wo) as Hm.
  destruct (LSM9DS1_mReadByte bsp (WHO_AM_I_M H) wo) as [mTest w1].
  pose proof (xgReadByte_globals bsp (WHO_AM_I_XG H) w1) as Hx.
  destruct (LSM9DS1_xgReadByte bsp (WHO_AM_I_XG H) w1) as [xgTest w2].
  cbn [fst snd] in Hm, Hx.
  intros E. injection E as _ <-.
  rewrite initAccel_globals, initGyro_globals. congruence.
Qed.

(** X1: a returning [LSM9DS1_begin] called right after [LSM9DS1_init] runs
    on the defaults: the settings are the default settings with the
    interface and addresses given to [LSM9DS1_init], the three resolutions
    are the sensitivities of 245 dps, 2 g and 4 gauss, the bus addresses are
    the two address arguments as bytes, the raw biases are zero and
    auto-calibration is off, whatever the driver's variables held before. *)
Theorem begin_after_init_runs_on_defaults
    (interface : interface_mode) (xgAddr mAddr r : Z) (w w' : W) :
  LSM9DS1_begin bsp H (LSM9DS1_init interface xgAddr mAddr w) = Some (r, w') ->
  settings (globals w') = default_settings interface xgAddr mAddr /\
  gRes (globals w') = SENSITIVITY_GYROSCOPE_245 /\
  aRes (globals w') = SENSITIVITY_ACCELEROMETER_2 /\
  mRes (globals w') = SENSITIVITY_MAGNETOMETER_4 /\
  _xgAddress (globals w') = to_uint8 xgAddr /\
  _mAddress (globals w') = to_uint8 mAddr /\
  gBiasRaw (globals w') = (0, 0, 0) /\
  aBiasRaw (globals w') = (0, 0, 0) /\
  mBiasRaw (globals w') = (0, 0, 0) /\
  _autoCalc (globals w') = false.
Proof.
  intros Hb. rewrite (begin_globals _ _ _ Hb).
  repeat split.
Qed.

(** X2: [LSM9DS1_init] stores the new addresses in the settings only.  The
    bus addresses the transport uses and the three resolutions are left as
    they were, and nothing is sent: a register access made between
    [LSM9DS1_init] and [LSM9DS1_begin] goes through the new interface to the
    address in force before, and a conversion made there uses the resolution
    in force before. *)
Theorem init_defers_addresses_and_resolutions
    (interface : interface_mode) (xgAddr mAddr s d raw : Z) (w : W) :
  let w' := LSM9DS1_init interface xgAddr mAddr w in
  trace w' = trace w /\
  trace (LSM9DS1_xgWriteByte bsp s d w') =
    trace w ++ [EvWrite interface (_xgAddress (globals w)) (to_uint8 s)
                        (to_uint8 d)] /\
  trace (LSM9DS1_mWriteByte bsp s d w') =
    trace w ++ [EvWrite interface (_mAddress (globals w)) (to_uint8 s)
                        (to_uint8 d)] /\
  LSM9DS1_calcGyro raw w' = LSM9DS1_calcGyro raw w /\
  LSM9DS1_calcAccel raw w' = LSM9DS1_calcAccel raw w /\
  LSM9DS1_calcMag raw w' = LSM9DS1_calcMag raw w.
Proof.
  intros w'. subst w'.
  rewrite xgWriteByte_trace, mWriteByte_trace.
  repeat split.
Qed.

(** X3: [LSM9DS1_set_xgAddress] and [LSM9DS1_set_mAddress] redirect the
    register accesses that follow, each its own device, but
    [LSM9DS1_begin] overwrites both addresses from the settings first: a
    call of [LSM9DS1_begin] behaves the same whether or not the setters were
    called before it. *)
Theorem begin_overrides_set_addresses (a b s d : Z) (w : W) :
  trace (LSM9DS1_xgWriteByte bsp s d (LSM9DS1_set_xgAddress a w)) =
    trace w ++ [EvWrite (iface w) (to_uint8 a) (to_uint8 s) (to_uint8 d)] /\
  trace (LSM9DS1_mWriteByte bsp s d (LSM9DS1_set_xgAddress a w)) =
    trace (LSM9DS1_mWriteByte bsp s d w) /\
  trace (LSM9DS1_mWriteByte bsp s d (LSM9DS1_set_mAddress b w)) =
    trace w ++ [EvWrite (iface w) (to_uint8 b) (to_uint8 s) (to_uint8 d)] /\
  trace (LSM9DS1_xgWriteByte bsp s d (LSM9DS1_set_mAddress b w)) =
    trace (LSM9DS1_xgWriteByte bsp s d w) /\
  LSM9DS1_begin bsp H (LSM9DS1_set_xgAddress a (LSM9DS1_set_mAddress b w)) =
    LSM9DS1_begin bsp H w.
Proof.
  rewrite !xgWriteByte_trace, !mWriteByte_trace.
  split; [reflexivity |]. split; [reflexivity |].
  split; [reflexivity |]. split; [reflexivity |].
  unfold LSM9DS1_begin.
  change (upd_globals ?f (LSM9DS1_set_xgAddress a (LSM9DS1_set_mAddress b w)))
    with (upd_globals f w).
  reflexivity.
Qed.

(** X4: [LSM9DS1_constrainScales] changes nothing when the three scales are
    supported ones, and applying it twice is applying it once. *)
Theorem constrainScales_is_a_projection (w : W) :
  (gyro_scale_supported (gScale w) -> accel_scale_supported (aScale w) ->
   mag_scale_supported (mScale w) -> LSM9DS1_constrainScales w = w) /\
  LSM9DS1_constrainScales (LSM9DS1_constrainScales w) =
    LSM9DS1_constrainScales w.
Proof.
  assert (Hid : forall v : W,
            gyro_scale_supported (gScale v) -> accel_scale_supported (aScale v) ->
            mag_scale_supported (mScale v) -> LSM9DS1_constrainScales v = v).
  { intros v Hg Ha Hm. unfold LSM9DS1_constrainScales.
    unfold gScale, aScale, mScale in Hg, Ha, Hm.
    pose proof (gyro_guard (g_scale (gyro (settings (globals v))))) as Gg.
    destruct (negb (g_scale (gyro (settings (globals v))) =? 245) && _ && _);
      [exfalso; apply (proj1 Gg eq_refl); exact Hg |].
    pose proof (accel_guard (a_scale (accel (settings (globals v))))) as Ga.
    destruct (negb (a_scale (accel (settings (globals v))) =? 2) && _ && _ && _);
      [exfalso; apply (proj1 Ga eq_refl); exact Ha |].
    pose proof (mag_guard (m_scale (mag (settings (globals v))))) as Gm.
    destruct (negb (m_scale (mag (settings (globals v))) =? 4) && _ && _ && _);
      [exfalso; apply (proj1 Gm eq_refl); exact Hm |].
    reflexivity. }
  split; [apply Hid |].
  destruct (constrainScales_supported w) as (Hg & Ha & Hm).
  apply Hid; assumption.
Qed.

Lemma land3_cases (x : Z) :
  Z.land x 3 = 0 \/ Z.land x 3 = 1 \/ Z.land x 3 = 2 \/ Z.land x 3 = 3.
Proof.
  assert (E : Z.land x 3 = x mod 4).
  { change 3 with (Z.ones 2). rewrite Z.land_ones by lia. reflexivity. }
  rewrite E. pose proof (Z.mod_pos_bound x 4 ltac:(lia)). lia.
Qed.

(** X5: the initialisation writes, and the field layout they share with
    the setters.  [LSM9DS1_initGyro] issues exactly five writes, to
    CTRL_REG1_G, CTRL_REG2_G, CTRL_REG3_G, CTRL_REG4 and ORIENT_CFG_G in that
    order; [LSM9DS1_initAccel] exactly three, to CTRL_REG5_XL, CTRL_REG6_XL
    and CTRL_REG7_XL; [LSM9DS1_initMag] exactly five, to CTRL_REG1_M ..
    CTRL_REG5_M.  The CTRL_REG1_G byte and the CTRL_REG6_XL byte carry in
    bits 4..3 the scale encoding that [LSM9DS1_setGyroScale] and
    [LSM9DS1_setAccelScale] write, and in bits 7..5 the sample rate modulo 8
    when the sensor is enabled and 0 when it is not; the CTRL_REG1_M byte
    carries the sample rate modulo 8 in bits 4..2, and the CTRL_REG2_M byte is
    exactly the scale encoding of [LSM9DS1_setMagScale].  A scale that is not
    a supported one is encoded as the default scale. *)
Theorem init_writes_use_setter_encodings (w : W) :
  let g := gyro (settings (globals w)) in
  let a := accel (settings (globals w)) in
  let m := mag (settings (globals w)) in
  (exists v v2 v3 v4 v5,
     trace (LSM9DS1_initGyro bsp H w) =
       trace w ++
       writes_to (iface w) (_xgAddress (globals w)) (gyro_init_registers H)
                 [v; v2; v3; v4; v5] /\
     Z.land v 0x18 = gyro_scale_bits (g_scale g) /\
     Z.land v 0xE0 =
       (if g_enabled g then Z.shiftl (Z.land (g_sampleRate g) 7) 5 else 0)) /\
  (exists u v v3,
     trace (LSM9DS1_initAccel bsp H w) =
       trace w ++
       writes_to (iface w) (_xgAddress (globals w)) (accel_init_registers H)
                 [u; v; v3] /\
     Z.land v 0x18 = accel_scale_bits (a_scale a) /\
     Z.land v 0xE0 =
       (if a_enabled a then Z.shiftl (Z.land (a_sampleRate a) 7) 5 else 0)) /\
  (exists u v v3 v4 v5,
     trace (LSM9DS1_initMag bsp H X w) =
       trace w ++
       writes_to (iface w) (_mAddress (globals w)) (mag_init_registers H X)
                 [u; v; v3; v4; v5] /\
     v = mag_scale_bits (m_scale m) /\
     Z.land u 0x1C = Z.shiftl (Z.land (m_sampleRate m) 7) 2).
Proof.
  intros g a m. split; [| split].
  - unfold LSM9DS1_initGyro. cbv zeta. fold g.
    rewrite !xgWriteByte_trace, !xgWriteByte_iface, !xgWriteByte_globals.
    rewrite <- !app_assoc. cbn [app].
    unfold writes_to, gyro_init_registers. cbn [combine map fst snd].
    do 5 eexists. split; [reflexivity |].
    unfold gyro_scale_bits.
    destruct (land7_cases (g_sampleRate g)) as [E | [E | [E | [E | [E | [E | [E | E]]]]]]];
      rewrite E;
      destruct (land3_cases (g_bandwidth g)) as [B | [B | [B | B]]];
      rewrite B;
      destruct (g_enabled g); destruct (g_scale g =? 500);
      destruct (g_scale g =? 2000); split; reflexivity.
  - unfold LSM9DS1_initAccel. cbv zeta. fold a.
    rewrite !xgWriteByte_trace, !xgWriteByte_iface, !xgWriteByte_globals.
    rewrite <- !app_assoc. cbn [app].
    unfold writes_to, accel_init_registers. cbn [combine map fst snd].
    do 3 eexists. split; [reflexivity |].
    unfold accel_scale_bits.
    destruct (land7_cases (a_sampleRate a)) as [E | [E | [E | [E | [E | [E | [E | E]]]]]]];
      rewrite E;
      destruct (land3_cases (a_bandwidth a)) as [B | [B | [B | B]]];
      rewrite B;
      destruct (a_enabled a); destruct (a_bandwidth a >=? 0);
      destruct (a_scale a =? 4); destruct (a_scale a =? 8);
      destruct (a_scale a =? 16); split; reflexivity.
  - unfold LSM9DS1_initMag. cbv zeta. fold m.
    rewrite !mWriteByte_trace, !mWriteByte_iface, !mWriteByte_globals.
    rewrite <- !app_assoc. cbn [app].
    unfold writes_to, mag_init_registers. cbn [combine map fst snd].
    do 5 eexists. split; [reflexivity |].
    unfold mag_scale_bits. split.
    + destruct (m_scale m =? 8); [| destruct (m_scale m =? 12);
        [| destruct (m_scale m =? 16)]]; reflexivity.
    + destruct (land7_cases (m_sampleRate m)) as [E | [E | [E | [E | [E | [E | [E | E]]]]]]];
        rewrite E;
        destruct (land3_cases (m_XYPerformance m)) as [B | [B | [B | B]]];
        rewrite B;
        destruct (m_tempCompensationEnable m); reflexivity.
Qed.

(** ** Single-bit read-modify-write *)

Lemma bit_rmw_session (reg k : Z) (b : bool) (w : W) :
  0 <= k <= 7 ->
  let r := fst (LSM9DS1_xgReadByte bsp reg w) in
  let w1 := snd (LSM9DS1_xgReadByte bsp reg w) in
  let m := Z.shiftl 1 k in
  let w' :=
    LSM9DS1_xgWriteByte bsp reg
      (if b then Z.lor r m else Z.land r (Z.lnot m)) w1 in
  rewrites_field w w' (_xgAddress (globals w)) reg r m (if b then m else 0) /\
  globals w' = globals w.
Proof.
  intros Hk r w1 m w'.
  pose proof (xgReadByte_range bsp reg w) as Hr. fold r in Hr.
  destruct (bit_rmw k r b Hk Hr) as (Eu & Ef & Ec).
  fold m in Eu, Ef, Ec.
  pose proof (xgReadByte_globals bsp reg w) as Hg.
  pose proof (xgReadByte_trace bsp reg w) as Ht.
  fold w1 in Hg, Ht. fold r in Ht.
  split.
  - exists (if b then Z.lor r m else Z.land r (Z.lnot m)).
    split; [| split; assumption].
    subst w'. rewrite xgWriteByte_trace, Eu, Ht, <- app_assoc.
    unfold iface. rewrite Hg. reflexivity.
  - subst w'. rewrite xgWriteByte_globals. exact Hg.
Qed.

(** X6: [LSM9DS1_enableFIFO] and [LSM9DS1_sleepGyro] each read CTRL_REG9 and
    write it back with one bit replaced, bit 1 (FIFO enable) and bit 6 (gyro
    sleep) respectively: the bit written is the argument, every other bit of
    the register is written back as it was read, so neither call disturbs
    the other's bit, and the driver's variables are untouched. *)
Theorem fifo_and_sleep_bits_are_independent (enable : bool) (w : W) :
  let r := fst (LSM9DS1_xgReadByte bsp (CTRL_REG9 H) w) in
  (rewrites_field w (LSM9DS1_enableFIFO bsp H enable w)
     (_xgAddress (globals w)) (CTRL_REG9 H) r 0x02
     (if enable then 0x02 else 0) /\
   globals (LSM9DS1_enableFIFO bsp H enable w) = globals w) /\
  (rewrites_field w (LSM9DS1_sleepGyro bsp H enable w)
     (_xgAddress (globals w)) (CTRL_REG9 H) r 0x40
     (if enable then 0x40 else 0) /\
   globals (LSM9DS1_sleepGyro bsp H enable w) = globals w).
Proof.
  intros r. split.
  - pose proof (bit_rmw_session (CTRL_REG9 H) 1 enable w ltac:(lia)) as Hb.
    cbv zeta in Hb. unfold LSM9DS1_enableFIFO. subst r.
    destruct (LSM9DS1_xgReadByte bsp (CTRL_REG9 H) w) as [t w1].
    cbn [fst snd] in Hb |- *. exact Hb.
  - pose proof (bit_rmw_session (CTRL_REG9 H) 6 enable w ltac:(lia)) as Hb.
    cbv zeta in Hb. unfold LSM9DS1_sleepGyro. subst r.
    destruct (LSM9DS1_xgReadByte bsp (CTRL_REG9 H) w) as [t w1].
    cbn [fst snd] in Hb |- *. exact Hb.
Qed.


(** ** Interrupt configuration *)

Lemma polarity_drive_byte (r : Z) (a p : bool) :
  0 <= r <= 255 ->
  let t := if a then Z.lor r (Z.shiftl 1 5)
           else Z.land r (Z.lnot (Z.shiftl 1 5)) in
  let v := if p then Z.land t (Z.lnot (Z.shiftl 1 4))
           else Z.lor t (Z.shiftl 1 4) in
  to_uint8 v = v /\ Z.testbit v 5 = a /\ Z.testbit v 4 = negb p /\
  Z.land v 0xCF = Z.land r 0xCF.
Proof.
  intros Hr.
  assert (Hall :
    forallb (fun r =>
      forallb (fun a : bool =>
        forallb (fun p : bool =>
          let t := if a then Z.lor r (Z.shiftl 1 5)
                   else Z.land r (Z.lnot (Z.shiftl 1 5)) in
          let v := if p then Z.land t (Z.lnot (Z.shiftl 1 4))
                   else Z.lor t (Z.shiftl 1 4) in
          (to_uint8 v =? v) && Bool.eqb (Z.testbit v 5) a &&
          Bool.eqb (Z.testbit v 4) (negb p) &&
          (Z.land v 0xCF =? Z.land r 0xCF))
          [true; false]) [true; false]) all_bytes = true)
    by (vm_compute; reflexivity).
  pose proof (all_bytes_spec _ Hall r Hr) as Ha. cbv beta in Ha.
  rewrite forallb_forall in Ha.
  assert (Hb : forall b : bool, In b [true; false])
    by (intros [|]; cbn [In]; tauto).
  specialize (Ha a (Hb a)). rewrite forallb_forall in Ha.
  specialize (Ha p (Hb p)). cbv zeta in Ha.
  apply andb_prop in Ha. destruct Ha as [Ha E4].
  apply andb_prop in Ha. destruct Ha as [Ha E3].
  apply andb_prop in Ha. destruct Ha as [E1 E2].
  cbv zeta. repeat split;
    first [apply Z.eqb_eq; assumption | apply Bool.eqb_prop; assumption].
Qed.

(** X7: [LSM9DS1_configInt] writes the generator byte to the register named
    by its first argument, then reads CTRL_REG8 and writes it back with two
    bits replaced: bit 5 is set exactly when [activeLow] is non-zero, bit 4
    is set exactly when [pushPull] is zero, and the six other bits are
    written back as read.  The driver's variables are untouched. *)
Theorem configInt_sets_polarity_and_drive
    (_interrupt generator activeLow pushPull : Z) (w : W) :
  let w0 := LSM9DS1_xgWriteByte bsp _interrupt generator w in
  let r := fst (LSM9DS1_xgReadByte bsp (CTRL_REG8 X) w0) in
  let w' := LSM9DS1_configInt bsp X _interrupt generator activeLow pushPull w in
  exists v,
    trace w' =
      trace w ++
      [EvWrite (iface w) (_xgAddress (globals w)) (to_uint8 _interrupt)
               (to_uint8 generator);
       EvRead (iface w) (_xgAddress (globals w)) (to_uint8 (CTRL_REG8 X)) 1 [r];
       EvWrite (iface w) (_xgAddress (globals w)) (to_uint8 (CTRL_REG8 X)) v] /\
    Z.testbit v 5 = negb (activeLow =? 0) /\
    Z.testbit v 4 = (pushPull =? 0) /\
    Z.land v 0xCF = Z.land r 0xCF /\
    globals w' = globals w.
Proof.
  intros w0 r w'. subst w'. unfold LSM9DS1_configInt. fold w0.
  pose proof (xgReadByte_range bsp (CTRL_REG8 X) w0) as Hr.
  pose proof (xgReadByte_globals bsp (CTRL_REG8 X) w0) as Hg.
  pose proof (xgReadByte_trace bsp (CTRL_REG8 X) w0) as Ht.
  fold r in Hr, Ht.
  destruct (LSM9DS1_xgReadByte bsp (CTRL_REG8 X) w0) as [t w1].
  cbn [fst snd] in *. subst r.
  destruct (polarity_drive_byte t (negb (activeLow =? 0))
              (negb (pushPull =? 0)) Hr) as (Eu & E5 & E4 & Ec).
  cbv zeta in Eu, E5, E4, Ec.
  match goal with
  | |- context [LSM9DS1_xgWriteByte bsp (CTRL_REG8 X) ?b w1] => set (v := b) in *
  end.
  assert (Hg0 : globals w0 = globals w) by apply xgWriteByte_globals.
  exists v. split; [| split; [exact E5 | split; [| split; [exact Ec |]]]].
  - rewrite xgWriteByte_trace, Eu, (iface_globals _ _ Hg), Hg, Ht.
    subst w0.
    rewrite !xgWriteByte_trace, !xgWriteByte_iface, !xgWriteByte_globals.
    rewrite <- !app_assoc. reflexivity.
  - rewrite E4. apply Bool.negb_involutive.
  - rewrite xgWriteByte_globals, Hg. exact Hg0.
Qed.

(** X8: the duration byte of [LSM9DS1_configAccelThs] and the threshold byte
    of [LSM9DS1_configInactivity] carry the argument modulo 128 in bits 6..0
    and the flag in bit 7: bit 7 of the argument is dropped.  Each call is
    two register writes, the threshold register of the axis before the
    duration register, the activity threshold before the activity
    duration. *)
Theorem duration_bytes_drop_bit7
    (threshold axis duration : Z) (flag : bool) (w : W) :
  trace (LSM9DS1_configAccelThs bsp X threshold axis duration flag w) =
    trace w ++
    [EvWrite (iface w) (_xgAddress (globals w))
             (to_uint8 (INT_GEN_THS_X_XL X + axis)) (to_uint8 threshold);
     EvWrite (iface w) (_xgAddress (globals w)) (to_uint8 (INT_GEN_DUR_XL X))
             (duration mod 128 + (if flag then 128 else 0))] /\
  trace (LSM9DS1_configInactivity bsp X duration threshold flag w) =
    trace w ++
    [EvWrite (iface w) (_xgAddress (globals w)) (to_uint8 (ACT_THS X))
             (threshold mod 128 + (if flag then 128 else 0));
     EvWrite (iface w) (_xgAddress (globals w)) (to_uint8 (ACT_DUR X))
             (to_uint8 duration)].
Proof.
  split.
  - unfold LSM9DS1_configAccelThs.
    rewrite !xgWriteByte_trace, xgWriteByte_iface, xgWriteByte_globals.
    rewrite (flag7_byte duration flag), <- app_assoc. reflexivity.
  - unfold LSM9DS1_configInactivity.
    rewrite !xgWriteByte_trace, xgWriteByte_iface, xgWriteByte_globals.
    change (Z.shiftl 1 7) with 128.
    rewrite (flag7_byte threshold flag), <- app_assoc. reflexivity.
Qed.

(** X9: [LSM9DS1_configGyroThs] and [LSM9DS1_configMagThs] split the
    threshold into a high byte of seven bits and a low byte, written high
    byte first; together they hold the threshold modulo 32768, so bit 15 of
    the argument (the sign of the gyroscope threshold) is dropped. *)
Theorem threshold_bytes_hold_15_bits
    (threshold axis duration : Z) (wait : bool) (w : W) :
  exists hi lo,
    0 <= hi <= 127 /\ 0 <= lo <= 255 /\
    256 * hi + lo = threshold mod 32768 /\
    trace (LSM9DS1_configGyroThs bsp X threshold axis duration wait w) =
      trace w ++
      [EvWrite (iface w) (_xgAddress (globals w))
               (to_uint8 (INT_GEN_THS_XH_G X + axis * 2)) hi;
       EvWrite (iface w) (_xgAddress (globals w))
               (to_uint8 (INT_GEN_THS_XH_G X + 1 + axis * 2)) lo;
       EvWrite (iface w) (_xgAddress (globals w)) (to_uint8 (INT_GEN_DUR_G X))
               (duration mod 128 + (if wait then 128 else 0))] /\
    trace (LSM9DS1_configMagThs bsp X threshold w) =
      trace w ++
      [EvWrite (iface w) (_mAddress (globals w)) (to_uint8 (INT_THS_H_M X)) hi;
       EvWrite (iface w) (_mAddress (globals w)) (to_uint8 (INT_THS_L_M X)) lo].
Proof.
  destruct (threshold_bytes (to_int16 threshold)) as (Hh & Hl & Hs).
  destruct (threshold_bytes (to_uint16 threshold)) as (_ & _ & Hs').
  cbv zeta in Hh, Hl, Hs, Hs'.
  rewrite to_int16_mod_32768 in Hs. rewrite to_uint16_mod_32768 in Hs'.
  set (hi := to_uint8 (Z.shiftr (Z.land (to_int16 threshold) 32512) 8)) in *.
  set (lo := to_uint8 (Z.land (to_int16 threshold) 255)) in *.
  set (hi' := to_uint8 (Z.shiftr (Z.land (to_uint16 threshold) 32512) 8)) in *.
  set (lo' := to_uint8 (Z.land (to_uint16 threshold) 255)) in *.
  destruct (threshold_bytes (to_uint16 threshold)) as (Hh' & Hl' & _).
  cbv zeta in Hh', Hl'. fold hi' lo' in Hh', Hl'.
  assert (E : hi' = hi /\ lo' = lo) by lia.
  destruct E as [Eh El].
  exists hi, lo. split; [exact Hh |]. split; [exact Hl |]. split; [exact Hs |].
  split.
  - unfold LSM9DS1_configGyroThs. fold hi lo.
    rewrite !xgWriteByte_trace, !xgWriteByte_iface, !xgWriteByte_globals.
    rewrite (flag7_byte duration wait), <- !app_assoc.
    rewrite (to_uint8_id hi), (to_uint8_id lo) by lia. reflexivity.
  - unfold LSM9DS1_configMagThs.
    rewrite !mWriteByte_trace, mWriteByte_iface, mWriteByte_globals.
    fold hi' lo'. rewrite Eh, El, <- app_assoc. reflexivity.
Qed.

Lemma gate6_byte (r : Z) :
  0 <= r <= 255 ->
  (if negb (Z.land r (Z.shiftl 1 6) =? 0) then Z.land r 0x3F else 0) =
  (if Z.testbit r 6 then r mod 64 else 0).
Proof.
  intros Hr.
  assert (Hall :
    forallb (fun r =>
      (if negb (Z.land r (Z.shiftl 1 6) =? 0) then Z.land r 0x3F else 0) =?
      (if Z.testbit r 6 then r mod 64 else 0)) all_bytes = true)
    by (vm_compute; reflexivity).
  apply Z.eqb_eq. exact (all_bytes_spec _ Hall r Hr).
Qed.

Lemma gate0_byte (r : Z) :
  0 <= r <= 255 ->
  (if negb (Z.land r (Z.shiftl 1 0) =? 0) then Z.land r 0xFE else 0) =
  (if Z.testbit r 0 then r - 1 else 0).
Proof.
  intros Hr.
  assert (Hall :
    forallb (fun r =>
      (if negb (Z.land r (Z.shiftl 1 0) =? 0) then Z.land r 0xFE else 0) =?
      (if Z.testbit r 0 then r - 1 else 0)) all_bytes = true)
    by (vm_compute; reflexivity).
  apply Z.eqb_eq. exact (all_bytes_spec _ Hall r Hr).
Qed.

(** X10: the interrupt-source queries hand the flags back only behind the
    interrupt-active bit.  [LSM9DS1_getAccelIntSrc] and
    [LSM9DS1_getGyroIntSrc] return the low six bits of their source register
    when its bit 6 is set and 0 otherwise; [LSM9DS1_getMagIntSrc] returns
    the register with bit 0 cleared when bit 0 is set and 0 otherwise.  Each
    is one register read that leaves the driver's variables alone. *)
Theorem interrupt_sources_are_gated (w : W) :
  let xl := LSM9DS1_xgReadByte bsp (INT_GEN_SRC_XL X) w in
  let g := LSM9DS1_xgReadByte bsp (INT_GEN_SRC_G X) w in
  let m := LSM9DS1_mReadByte bsp (INT_SRC_M X) w in
  (fst (LSM9DS1_getAccelIntSrc bsp X w) =
     (if Z.testbit (fst xl) 6 then fst xl mod 64 else 0) /\
   snd (LSM9DS1_getAccelIntSrc bsp X w) = snd xl) /\
  (fst (LSM9DS1_getGyroIntSrc bsp X w) =
     (if Z.testbit (fst g) 6 then fst g mod 64 else 0) /\
   snd (LSM9DS1_getGyroIntSrc bsp X w) = snd g) /\
  (fst (LSM9DS1_getMagIntSrc bsp X w) =
     (if Z.testbit (fst m) 0 then fst m - 1 else 0) /\
   snd (LSM9DS1_getMagIntSrc bsp X w) = snd m).
Proof.
  intros xl g m.
  pose proof (xgReadByte_range bsp (INT_GEN_SRC_XL X) w) as Hxl.
  pose proof (xgReadByte_range bsp (INT_GEN_SRC_G X) w) as Hg.
  pose proof (mReadByte_range bsp (INT_SRC_M X) w) as Hm.
  fold xl in Hxl. fold g in Hg. fold m in Hm.
  unfold LSM9DS1_getAccelIntSrc, LSM9DS1_getGyroIntSrc, LSM9DS1_getMagIntSrc.
  fold xl g m.
  destruct xl as [r1 w1], g as [r2 w2], m as [r3 w3]. cbn [fst snd] in *.
  rewrite <- (gate6_byte r1 Hxl), <- (gate6_byte r2 Hg), <- (gate0_byte r3 Hm).
  repeat split;
    match goal with |- context [if ?c then _ else _] => destruct c end;
    reflexivity.
Qed.

Lemma mag_int_byte (g : Z) (high latch : bool) :
  0 <= g <= 255 ->
  let c := Z.land g 0xE0 in
  let c := if high then Z.lor c (Z.shiftl 1 2) else c in
  let c := if negb latch then Z.lor c (Z.shiftl 1 1) else c in
  let v := if negb (g =? 0) then Z.lor c (Z.shiftl 1 0) else c in
  to_uint8 v = v /\ Z.land v 0xE0 = Z.land g 0xE0 /\ Z.land v 0x18 = 0 /\
  Z.testbit v 2 = high /\ Z.testbit v 1 = negb latch /\
  Z.testbit v 0 = negb (g =? 0).
Proof.
  intros Hg.
  assert (Hall :
    forallb (fun g =>
      forallb (fun high : bool =>
        forallb (fun latch : bool =>
          let c := Z.land g 0xE0 in
          let c := if high then Z.lor c (Z.shiftl 1 2) else c in
          let c := if negb latch then Z.lor c (Z.shiftl 1 1) else c in
          let v := if negb (g =? 0) then Z.lor c (Z.shiftl 1 0) else c in
          (to_uint8 v =? v) && (Z.land v 0xE0 =? Z.land g 0xE0) &&
          (Z.land v 0x18 =? 0) && Bool.eqb (Z.testbit v 2) high &&
          Bool.eqb (Z.testbit v 1) (negb latch) &&
          Bool.eqb (Z.testbit v 0) (negb (g =? 0)))
          [true; false]) [true; false]) all_bytes = true)
    by (vm_compute; reflexivity).
  pose proof (all_bytes_spec _ Hall g Hg) as Ha. cbv beta in Ha.
  rewrite forallb_forall in Ha.
  assert (Hb : forall b : bool, In b [true; false])
    by (intros [|]; cbn [In]; tauto).
  specialize (Ha high (Hb high)). rewrite forallb_forall in Ha.
  specialize (Ha latch (Hb latch)). cbv zeta in Ha.
  repeat (apply andb_prop in Ha; let E := fresh "E" in destruct Ha as [Ha E]).
  cbv zeta. repeat split;
    first [apply Z.eqb_eq; assumption | apply Bool.eqb_prop; assumption].
Qed.

Lemma or_flags_byte (g : Z) (f7 f6 : bool) :
  0 <= g <= 255 ->
  let t := if f7 then Z.lor g 0x80 else g in
  let v := if f6 then Z.lor t 0x40 else t in
  to_uint8 v = v /\ Z.land v 0x3F = Z.land g 0x3F /\
  Z.testbit v 7 = Z.testbit g 7 || f7 /\
  Z.testbit v 6 = Z.testbit g 6 || f6.
Proof.
  intros Hg.
  assert (Hall :
    forallb (fun g =>
      forallb (fun f7 : bool =>
        forallb (fun f6 : bool =>
          let t := if f7 then Z.lor g 0x80 else g in
          let v := if f6 then Z.lor t 0x40 else t in
          (to_uint8 v =? v) && (Z.land v 0x3F =? Z.land g 0x3F) &&
          Bool.eqb (Z.testbit v 7) (Z.testbit g 7 || f7) &&
          Bool.eqb (Z.testbit v 6) (Z.testbit g 6 || f6))
          [true; false]) [true; false]) all_bytes = true)
    by (vm_compute; reflexivity).
  pose proof (all_bytes_spec _ Hall g Hg) as Ha. cbv beta in Ha.
  rewrite forallb_forall in Ha.
  assert (Hb : forall b : bool, In b [true; false])
    by (intros [|]; cbn [In]; tauto).
  specialize (Ha f7 (Hb f7)). rewrite forallb_forall in Ha.
  specialize (Ha f6 (Hb f6)). cbv zeta in Ha.
  repeat (apply andb_prop in Ha; let E := fresh "E" in destruct Ha as [Ha E]).
  cbv zeta. repeat split;
    first [apply Z.eqb_eq; assumption | apply Bool.eqb_prop; assumption].
Qed.

Lemma or_flag7_byte (g : Z) (f7 : bool) :
  0 <= g <= 255 ->
  let v := if f7 then Z.lor g 0x80 else g in
  to_uint8 v = v /\ Z.land v 0x7F = Z.land g 0x7F /\
  Z.testbit v 7 = Z.testbit g 7 || f7.
Proof.
  intros Hg.
  assert (Hall :
    forallb (fun g =>
      forallb (fun f7 : bool =>
        let v := if f7 then Z.lor g 0x80 else g in
        (to_uint8 v =? v) && (Z.land v 0x7F =? Z.land g 0x7F) &&
        Bool.eqb (Z.testbit v 7) (Z.testbit g 7 || f7))
        [true; false]) all_bytes = true)
    by (vm_compute; reflexivity).
  pose proof (all_bytes_spec _ Hall g Hg) as Ha. cbv beta in Ha.
  rewrite forallb_forall in Ha.
  assert (Hb : forall b : bool, In b [true; false])
    by (intros [|]; cbn [In]; tauto).
  specialize (Ha f7 (Hb f7)). cbv zeta in Ha.
  repeat (apply andb_prop in Ha; let E := fresh "E" in destruct Ha as [Ha E]).
  cbv zeta. repeat split;
    first [apply Z.eqb_eq; assumption | apply Bool.eqb_prop; assumption].
Qed.

(** X11: the generator configuration bytes.  [LSM9DS1_configMagInt] writes
    one byte to INT_CFG_M that keeps bits 7..5 of the generator argument,
    has bits 4 and 3 clear, bit 2 set exactly for active-high, bit 1 set
    exactly when not latched, and bit 0 set exactly when the generator
    argument (as a byte) is non-zero, be it in its low five bits only.
    [LSM9DS1_configAccelInt] and [LSM9DS1_configGyroInt] write the generator
    byte with their flags OR-ed into bit 7 (and bit 6): a flag can set its
    bit but never clears one given in the generator. *)
Theorem generator_config_bytes
    (generator activeLow : Z) (f7 f6 latch : bool) (w : W) :
  let g := to_uint8 generator in
  (exists v,
     trace (LSM9DS1_configMagInt bsp X generator activeLow latch w) =
       trace w ++ [EvWrite (iface w) (_mAddress (globals w))
                           (to_uint8 (INT_CFG_M X)) v] /\
     Z.land v 0xE0 = Z.land g 0xE0 /\ Z.land v 0x18 = 0 /\
     Z.testbit v 2 = (activeLow =? INT_ACTIVE_HIGH X) /\
     Z.testbit v 1 = negb latch /\
     Z.testbit v 0 = negb (g =? 0)) /\
  (exists v,
     trace (LSM9DS1_configAccelInt bsp X generator f7 w) =
       trace w ++ [EvWrite (iface w) (_xgAddress (globals w))
                           (to_uint8 (INT_GEN_CFG_XL X)) v] /\
     Z.land v 0x7F = Z.land g 0x7F /\
     Z.testbit v 7 = Z.testbit g 7 || f7) /\
  (exists v,
     trace (LSM9DS1_configGyroInt bsp X generator f7 f6 w) =
       trace w ++ [EvWrite (iface w) (_xgAddress (globals w))
                           (to_uint8 (INT_GEN_CFG_G X)) v] /\
     Z.land v 0x3F = Z.land g 0x3F /\
     Z.testbit v 7 = Z.testbit g 7 || f7 /\
     Z.testbit v 6 = Z.testbit g 6 || f6).
Proof.
  intros g. pose proof (to_uint8_range generator) as Hg. fold g in Hg.
  split; [| split].
  - destruct (mag_int_byte g (activeLow =? INT_ACTIVE_HIGH X) latch Hg)
      as (Eu & E1 & E2 & E3 & E4 & E5).
    cbv zeta in Eu, E1, E2, E3, E4, E5.
    match type of Eu with to_uint8 ?b = _ => exists b end.
    split; [| repeat (split; [assumption |]); assumption].
    unfold LSM9DS1_configMagInt. fold g.
    rewrite mWriteByte_trace, Eu. reflexivity.
  - destruct (or_flag7_byte g f7 Hg) as (Eu & E1 & E2).
    cbv zeta in Eu, E1, E2.
    exists (if f7 then Z.lor g 0x80 else g).
    split; [| split; assumption].
    unfold LSM9DS1_configAccelInt. fold g.
    rewrite xgWriteByte_trace, Eu. reflexivity.
  - destruct (or_flags_byte g f7 f6 Hg) as (Eu & E1 & E2 & E3).
    cbv zeta in Eu, E1, E2, E3.
    match type of Eu with to_uint8 ?b = _ => exists b end.
    split; [| repeat (split; [assumption |]); assumption].
    unfold LSM9DS1_configGyroInt. fold g.
    rewrite xgWriteByte_trace, Eu. reflexivity.
Qed.

(** ** Temperature and status *)

Lemma burst_two (data : list Z) :
  burst data 2 = [to_uint8 (nth 0 data 0); to_uint8 (nth 1 data 0)].
Proof. reflexivity. Qed.

Lemma temperature_value (hi lo : Z) :
  0 <= hi <= 255 -> 0 <= lo <= 255 ->
  to_int16 (25 + Z.shiftr (Z.lor (Z.shiftl (to_int16 hi) 8) lo) 8) = 25 + hi.
Proof.
  intros Hhi Hlo.
  rewrite (to_int16_id hi) by (unfold is_int16; lia).
  rewrite lor_shiftl_byte by lia.
  rewrite Z.shiftr_div_pow2 by lia. change (2 ^ 8) with 256.
  replace (256 * hi + lo) with (lo + hi * 256) by lia.
  rewrite Z.div_add by lia. rewrite Z.div_small by lia.
  apply to_int16_id. unfold is_int16. lia.
Qed.

(** X12: over I2C [LSM9DS1_readTemp] returns 25 plus the high byte of the
    two-byte burst from OUT_TEMP_L, taken as an unsigned byte: the low byte
    does not enter the result, and the result lies between 25 and 280, never
    below the offset.  Over the SPI stubs the burst is short and the function
    returns its uninitialised local.  In both cases the call is the one
    burst read. *)
Theorem readTemp_is_offset_plus_high_byte (temperature : Z) (w : W) :
  let r := LSM9DS1_xgReadBytes bsp (OUT_TEMP_L X) (uninit_buffer 2) 2 w in
  let t := LSM9DS1_readTemp bsp X temperature w in
  snd t = snd r /\
  (iface w = IMU_MODE_I2C ->
   fst t = 25 + nth 1 (delivered r) 0 /\ 25 <= fst t <= 280) /\
  (iface w = IMU_MODE_SPI -> fst t = temperature).
Proof.
  intros r t. subst t r.
  unfold LSM9DS1_readTemp, LSM9DS1_xgReadBytes, delivered.
  destruct (iface w).
  - unfold LSM9DS1_SPIreadBytes. cbn [fst snd Z.eqb].
    split; [reflexivity |]. split; [discriminate | reflexivity].
  - unfold LSM9DS1_I2CreadBytes.
    destruct (I2C_IF_ReadFrom bsp (bus w) (_xgAddress (globals w))
                [to_uint8 (OUT_TEMP_L X)] (to_uint8 2)) as [[rc data] d].
    change (to_uint8 2) with 2. rewrite burst_two.
    cbn [fst snd Z.eqb Pos.eqb nth].
    pose proof (to_uint8_range (nth 0 data 0)) as Hlo.
    pose proof (to_uint8_range (nth 1 data 0)) as Hhi.
    rewrite (temperature_value _ _ Hhi Hlo).
    split; [reflexivity |]. split; [| discriminate].
    intros _. split; [reflexivity | lia].
Qed.

Lemma available_b2z (status axis : Z) :
  to_uint8 (Z.shiftr (Z.land status (Z.shiftl 1 axis)) axis) =
  Z.b2z (Z.testbit status axis).
Proof.
  destruct (Z.lt_ge_cases axis 0) as [Hneg | Hpos].
  - rewrite Z.testbit_neg_r by lia.
    assert (E : Z.shiftl 1 axis = 0).
    { rewrite <- (Z.opp_involutive axis), Z.shiftl_opp_r.
      rewrite Z.shiftr_div_pow2 by lia.
      apply Z.div_small. split; [lia |].
      apply Z.pow_gt_1; lia. }
    rewrite E, Z.land_0_r, Z.shiftr_0_l. reflexivity.
  - rewrite Z.shiftr_land, Z.shiftr_shiftl_l by lia.
    rewrite Z.sub_diag, Z.shiftl_0_r.
    change 1 with (Z.ones 1). rewrite Z.land_ones by lia.
    rewrite Z.shiftr_div_pow2 by lia. change (2 ^ 1) with 2.
    rewrite <- Z.testbit_spec' by lia.
    destruct (Z.testbit status axis); reflexivity.
Qed.

Lemma inactivity_byte (r : Z) :
  0 <= r <= 255 -> Z.land r 0x10 = 16 * Z.b2z (Z.testbit r 4).
Proof.
  intros Hr.
  assert (Hall :
    forallb (fun r => Z.land r 0x10 =? 16 * Z.b2z (Z.testbit r 4)) all_bytes
    = true) by (vm_compute; reflexivity).
  apply Z.eqb_eq. exact (all_bytes_spec _ Hall r Hr).
Qed.

(** X13: the status queries.  [LSM9DS1_accelAvailable],
    [LSM9DS1_gyroAvailable] and [LSM9DS1_tempAvailable] return bit 0, 1 and
    2 of STATUS_REG_1 as 0 or 1, and [LSM9DS1_magAvailable] returns the bit
    of STATUS_REG_M numbered by its argument as 0 or 1, for an argument in
    0..7 (the bits of the status byte; the enumerators are 0..3);
    [LSM9DS1_getInactivity] returns bit 4 of STATUS_REG_0 in place, that is 0
    or 16; [LSM9DS1_getFIFOSamples] returns FIFO_SRC modulo 64.  Each is one
    register read. *)
Theorem status_queries_return_their_bit (axis : Z) (w : W) :
  let s1 := LSM9DS1_xgReadByte bsp (STATUS_REG_1 X) w in
  let sm := LSM9DS1_mReadByte bsp (STATUS_REG_M H) w in
  let s0 := LSM9DS1_xgReadByte bsp (STATUS_REG_0 X) w in
  let fs := LSM9DS1_xgReadByte bsp (FIFO_SRC H) w in
  LSM9DS1_accelAvailable bsp X w = (Z.b2z (Z.testbit (fst s1) 0), snd s1) /\
  LSM9DS1_gyroAvailable bsp X w = (Z.b2z (Z.testbit (fst s1) 1), snd s1) /\
  LSM9DS1_tempAvailable bsp X w = (Z.b2z (Z.testbit (fst s1) 2), snd s1) /\
  (0 <= axis <= 7 ->
   LSM9DS1_magAvailable bsp H axis w =
     (Z.b2z (Z.testbit (fst sm) axis), snd sm)) /\
  LSM9DS1_getInactivity bsp X w = (16 * Z.b2z (Z.testbit (fst s0) 4), snd s0) /\
  LSM9DS1_getFIFOSamples bsp H w = (fst fs mod 64, snd fs).
Proof.
  intros s1 sm s0 fs.
  pose proof (xgReadByte_range bsp (STATUS_REG_0 X) w) as H0. fold s0 in H0.
  unfold LSM9DS1_accelAvailable, LSM9DS1_gyroAvailable, LSM9DS1_tempAvailable,
    LSM9DS1_magAvailable, LSM9DS1_getInactivity, LSM9DS1_getFIFOSamples.
  fold s1 sm s0 fs.
  destruct s1 as [r1 w1], sm as [rm wm], s0 as [r0 w0], fs as [rf wf].
  cbn [fst snd] in *.
  rewrite <- (Z.shiftr_0_r (Z.land r1 (Z.shiftl 1 0))).
  rewrite !available_b2z, (inactivity_byte r0 H0).
  change 0x3F with (Z.ones 6). rewrite Z.land_ones by lia.
  repeat split.
Qed.

(** ** The two transports *)

Lemma begin_frame (w : W) :
  let wr :=
    snd (LSM9DS1_calcaRes (snd (LSM9DS1_calcmRes (snd (LSM9DS1_calcgRes
      (LSM9DS1_constrainScales
         (upd_globals
            (fun g => with_mAddress (mAddress (device (settings g)))
                        (with_xgAddress (agAddress (device (settings g))) g))
            w))))))) in
  iface wr = iface w.
Proof.
  intros wr. subst wr.
  rewrite calcaRes_eq, calcmRes_eq, calcgRes_eq.
  match goal with
  | |- context [LSM9DS1_constrainScales ?x] =>
      destruct (constrainScales_frame x) as (_ & _ & Hc & _);
      set (wc := LSM9DS1_constrainScales x) in *
  end.
  clearbody wc. unfold iface in *. cbn [globals upd_globals].
  destruct (globals wc). cbn in Hc |- *. exact Hc.
Qed.

Lemma begin_SPI (w : W) :
  iface w = IMU_MODE_SPI -> exists w', LSM9DS1_begin bsp H w = Some (0, w').
Proof.
  intros Hi. pose proof (begin_frame w) as Hir. cbv zeta in Hir.
  unfold LSM9DS1_begin.
  set (wr := snd (LSM9DS1_calcaRes _)) in *. clearbody wr.
  rewrite Hi in Hir. rewrite Hir.
  unfold LSM9DS1_initSPI, LSM9DS1_mReadByte. rewrite Hir.
  unfold LSM9DS1_SPIreadByte, LSM9DS1_xgReadByte.
  assert (Hit : forall d e, iface (transported d e wr) = IMU_MODE_SPI)
    by (intros d e; exact Hir).
  rewrite Hit. unfold LSM9DS1_SPIreadByte.
  eexists. reflexivity.
Qed.

(** X14: over the SPI stubs nothing is delivered.  Both calibrations wait
    for ever, whatever the fuel; [LSM9DS1_begin] returns 0 as the identity;
    and every burst is reported short, so the triplet readers leave the
    caller's values as they were. *)
Theorem spi_stubs_never_deliver
    (fuel : nat) (flag : bool) (out : arr3 Z) (w : W) :
  iface w = IMU_MODE_SPI ->
  LSM9DS1_calibrate bsp H fuel flag w = None /\
  LSM9DS1_calibrateMag bsp H fuel flag w = None /\
  (exists w', LSM9DS1_begin bsp H w = Some (0, w')) /\
  fst (LSM9DS1_readGyro bsp H out w) = out /\
  fst (LSM9DS1_readAccel bsp H out w) = out /\
  fst (LSM9DS1_readMag bsp H out w) = out.
Proof.
  intros Hi. split; [apply calibrate_SPI; exact Hi |]. split.
  { destruct (LSM9DS1_calibrateMag bsp H fuel flag w) as [w' |] eqn:E;
      [| reflexivity].
    destruct (calibrateMag_spec bsp H fuel flag w w' E) as (Hi' & _).
    congruence. }
  split; [apply begin_SPI; exact Hi |].
  destruct (readGyro_spec bsp H out w) as (_ & _ & Eg).
  destruct (readAccel_spec bsp H out w) as (_ & _ & Ea).
  destruct (readMag_spec bsp H out w) as (_ & _ & Em).
  cbv zeta in Eg, Ea, Em.
  unfold xg_burst6, m_burst6, reported in Eg, Ea, Em.
  rewrite xgReadBytes_count, Hi in Eg, Ea.
  rewrite mReadBytes_count, Hi in Em.
  repeat split; assumption.
Qed.

Lemma xgReadBytes_I2C (s : Z) (dest : list Z) (c : Z) (w : W) :
  iface w = IMU_MODE_I2C ->
  let r := LSM9DS1_xgReadBytes bsp s dest c w in
  reported r = to_uint8 c /\
  length (delivered r) = Z.to_nat (to_uint8 c) /\
  trace (snd r) =
    trace w ++ [EvRead IMU_MODE_I2C (_xgAddress (globals w)) (to_uint8 s)
                       (to_uint8 c) (delivered r)].
Proof.
  unfold LSM9DS1_xgReadBytes, LSM9DS1_I2CreadBytes, reported, delivered,
    transported.
  intros ->.
  destruct (I2C_IF_ReadFrom bsp (bus w) (_xgAddress (globals w)) [to_uint8 s]
              (to_uint8 c)) as [[rc data] d].
  cbn [fst snd trace]. repeat split.
  unfold burst. rewrite length_map, length_seq. reflexivity.
Qed.

(** X15: over I2C every burst counts as complete, the status of the bus
    call being dropped: the triplet readers always replace the caller's
    values by the decoded burst (less the stored bias under
    auto-calibration, for the gyroscope and the accelerometer; the
    magnetometer is never corrected), and the single-axis readers, for an
    axis in 0..2, return the decoded burst of their axis (less the stored
    bias of that axis under auto-calibration). *)
Theorem i2c_bursts_always_count_as_complete
    (out : arr3 Z) (axis : Z) (w : W) :
  iface w = IMU_MODE_I2C ->
  0 <= axis <= 2 ->
  let auto := _autoCalc (globals w) in
  let g := decode3 (delivered (xg_burst6 bsp (OUT_X_L_G H) w)) in
  let a := decode3 (delivered (xg_burst6 bsp (OUT_X_L_XL H) w)) in
  let m := decode3 (delivered (m_burst6 bsp (OUT_X_L_M H) w)) in
  let g1 := le16 (delivered (xg_burst2 bsp (OUT_X_L_G H) axis w)) 0 in
  let a1 := le16 (delivered (xg_burst2 bsp (OUT_X_L_XL H) axis w)) 0 in
  let m1 := le16 (delivered (m_burst2 bsp (OUT_X_L_M H) axis w)) 0 in
  fst (LSM9DS1_readGyro bsp H out w) =
    (if auto then sub_bias g (gBiasRaw (globals w)) else g) /\
  fst (LSM9DS1_readAccel bsp H out w) =
    (if auto then sub_bias a (aBiasRaw (globals w)) else a) /\
  fst (LSM9DS1_readMag bsp H out w) = m /\
  fst (LSM9DS1_readGyroAxis bsp H axis w) =
    (if auto then to_int16 (g1 - geti (gBiasRaw (globals w)) axis) else g1) /\
  fst (LSM9DS1_readAccelAxis bsp H axis w) =
    (if auto then to_int16 (a1 - geti (aBiasRaw (globals w)) axis) else a1) /\
  fst (LSM9DS1_readMagAxis bsp H axis w) = m1.
Proof.
  intros Hi _ auto g a m g1 a1 m1.
  destruct (readGyro_spec bsp H out w) as (_ & _ & Eg).
  destruct (readAccel_spec bsp H out w) as (_ & _ & Ea).
  destruct (readMag_spec bsp H out w) as (_ & _ & Em).
  destruct (readGyroAxis_spec bsp H axis w) as (_ & Eg1).
  destruct (readAccelAxis_spec bsp H axis w) as (_ & Ea1).
  destruct (readMagAxis_spec bsp H axis w) as (_ & Em1).
  cbv zeta in Eg, Ea, Em, Eg1, Ea1, Em1.
  fold g in Eg. fold a in Ea. fold m in Em.
  fold g1 in Eg1. fold a1 in Ea1. fold m1 in Em1. fold auto in Eg, Ea, Eg1, Ea1.
  unfold xg_burst6, m_burst6, xg_burst2, m_burst2, reported
    in Eg, Ea, Em, Eg1, Ea1, Em1.
  rewrite xgReadBytes_count, Hi in Eg, Ea, Eg1, Ea1.
  rewrite mReadBytes_count, Hi in Em, Em1.
  repeat split; assumption.
Qed.

(** ** Magnetometer offsets *)

Lemma to_int16_to_uint16 (z : Z) : to_int16 (to_uint16 z) = to_int16 z.
Proof.
  unfold to_int16, to_uint16. rewrite Z.add_mod_idemp_l by lia. reflexivity.
Qed.

(** X16: the two bytes [LSM9DS1_magOffset] writes for an axis in 0..2 are
    the little-endian two's-complement form of the offset: decoded the way
    the readers decode a sample they give the offset back (as an [int16_t]),
    so a negative offset reaches the sensor as a negative offset. *)
Theorem magOffset_bytes_decode_to_offset (axis offset : Z) (w : W) :
  0 <= axis <= 2 ->
  exists lsb msb,
    trace (LSM9DS1_magOffset bsp H axis offset w) =
      trace w ++
      [EvWrite (iface w) (_mAddress (globals w))
               (to_uint8 (OFFSET_X_REG_L_M H + 2 * axis)) lsb;
       EvWrite (iface w) (_mAddress (globals w))
               (to_uint8 (OFFSET_X_REG_H_M H + 2 * axis)) msb] /\
    le16 [lsb; msb] 0 = to_int16 offset /\
    (is_int16 offset -> le16 [lsb; msb] 0 = offset).
Proof.
  intros Hax.
  destruct (magOffset_in_range bsp H axis offset w Hax) as (_ & Ht).
  exists (offset mod 256), ((offset / 256) mod 256).
  split; [exact Ht |].
  assert (E : le16 [offset mod 256; (offset / 256) mod 256] 0 = to_int16 offset).
  { unfold le16. cbn [nth].
    pose proof (Z.mod_pos_bound offset 256 ltac:(lia)).
    rewrite lor_shiftl_byte by lia.
    rewrite <- (to_int16_to_uint16 offset). f_equal.
    unfold to_uint16. change 65536 with (256 * 256).
    rewrite Z.rem_mul_r by lia. lia. }
  split; [exact E |].
  intros Hfit. rewrite E. apply to_int16_id. exact Hfit.
Qed.

(** ** Calibration: what is sent, and what is kept *)

Lemma writes_of_app (a b : list Event) :
  writes_of (a ++ b) = writes_of a ++ writes_of b.
Proof. apply filter_app. Qed.

Lemma enableFIFO_rewrites (enable : bool) (w : W) :
  rewrites_field w (LSM9DS1_enableFIFO bsp H enable w)
    (_xgAddress (globals w)) (CTRL_REG9 H)
    (fst (LSM9DS1_xgReadByte bsp (CTRL_REG9 H) w)) 0x02
    (if enable then 0x02 else 0).
Proof.
  pose proof (bit_rmw_session (CTRL_REG9 H) 1 enable w ltac:(lia)) as Hb.
  cbv zeta in Hb. unfold LSM9DS1_enableFIFO.
  destruct (LSM9DS1_xgReadByte bsp (CTRL_REG9 H) w) as [t w1].
  cbn [fst snd] in Hb |- *. exact (proj1 Hb).
Qed.

Lemma setFIFO_trace (m t : Z) (w : W) :
  0 <= t <= 31 ->
  trace (LSM9DS1_setFIFO bsp H m t w) =
    trace w ++ [EvWrite (iface w) (_xgAddress (globals w))
                        (to_uint8 (FIFO_CTRL H))
                        (Z.lor (Z.shiftl (Z.land m 7) 5) t)].
Proof.
  intros Ht. unfold LSM9DS1_setFIFO.
  rewrite (to_uint8_id t) by lia.
  destruct (Z.leb_spec t 31) as [_ | Hgt]; [| lia].
  assert (Hmask : Z.land t 31 = t).
  { change 31 with (Z.ones 5). rewrite Z.land_ones by lia.
    apply Z.mod_small. change (2 ^ 5) with 32. lia. }
  rewrite Hmask, xgWriteByte_trace.
  destruct (fifo_byte_bits m t Ht) as (Hv & _).
  rewrite (to_uint8_id _ Hv). reflexivity.
Qed.

Lemma calibrate_wait_reads (fuel : nat) :
  forall (samples N : Z) (w w0 : W),
    calibrate_wait bsp H fuel samples w = Some (N, w0) ->
    exists tr, trace w0 = trace w ++ tr /\ writes_of tr = [].
Proof.
  induction fuel as [| fuel IH]; intros samples N w w0; cbn [calibrate_wait].
  - destruct (samples <? 31); [discriminate |].
    intros E. assert (Ew : w0 = w) by congruence. subst w0.
    exists []. split; [symmetry; apply app_nil_r | reflexivity].
  - destruct (samples <? 31).
    + pose proof (xgReadByte_trace bsp (FIFO_SRC H) w) as Ht.
      destruct (LSM9DS1_xgReadByte bsp (FIFO_SRC H) w) as [v w1].
      cbn [fst snd] in Ht.
      intros E. destruct (IH _ _ _ _ E) as (tr & Ht' & Hw).
      eexists (_ :: tr). split.
      * rewrite Ht', Ht, <- app_assoc. reflexivity.
      * cbn [writes_of filter is_write]. exact Hw.
    + intros E. assert (Ew : w0 = w) by congruence. subst w0.
      exists []. split; [symmetry; apply app_nil_r | reflexivity].
Qed.

Lemma xgReadBytes_reads (s : Z) (dest : list Z) (c : Z) (w : W) :
  exists e,
    trace (snd (LSM9DS1_xgReadBytes bsp s dest c w)) = trace w ++ [e] /\
    is_write e = false.
Proof.
  unfold LSM9DS1_xgReadBytes, LSM9DS1_I2CreadBytes, LSM9DS1_SPIreadBytes,
    transported.
  destruct (iface w).
  - eexists. split; reflexivity.
  - destruct (I2C_IF_ReadFrom bsp (bus w) (_xgAddress (globals w))
                [to_uint8 s] (to_uint8 c)) as [[rc data] d].
    eexists. split; reflexivity.
Qed.

Lemma fifo_batch_reads (n : nat) :
  forall w : W,
    exists tr,
      trace (snd (fifo_batch bsp H n w)) = trace w ++ tr /\ writes_of tr = [].
Proof.
  induction n as [| n IH]; intros w; cbn [fifo_batch].
  - exists []. split; [symmetry; apply app_nil_r | reflexivity].
  - destruct (readGyro_spec bsp H uninit_triplet w) as (_ & Hw1 & _).
    destruct (LSM9DS1_readGyro bsp H uninit_triplet w) as [g w1].
    destruct (readAccel_spec bsp H uninit_triplet w1) as (_ & Hw2 & _).
    destruct (LSM9DS1_readAccel bsp H uninit_triplet w1) as [a w2].
    cbv zeta in Hw1, Hw2. cbn [fst snd] in Hw1, Hw2.
    unfold xg_burst6 in Hw1, Hw2.
    destruct (xgReadBytes_reads (OUT_X_L_G H) (uninit_buffer 6) 6 w)
      as (e1 & T1 & R1).
    destruct (xgReadBytes_reads (OUT_X_L_XL H) (uninit_buffer 6) 6 w1)
      as (e2 & T2 & R2).
    rewrite <- Hw1 in T1. rewrite <- Hw2 in T2.
    destruct (IH w2) as (tr & Ht & Hw).
    destruct (fifo_batch bsp H n w2) as [rest w3]. cbn [fst snd] in *.
    exists (e1 :: e2 :: tr). split.
    + rewrite Ht, T2, T1, <- !app_assoc. reflexivity.
    + cbn [writes_of filter]. rewrite R1, R2. exact Hw.
Qed.

(** X17: a returning [LSM9DS1_calibrate] sends exactly four register
    writes.  It opens with a read-modify-write of CTRL_REG9 that sets the
    FIFO-enable bit and a write of FIFO_CTRL with mode FIFO_THS and threshold
    31, and closes with a read-modify-write of CTRL_REG9 that clears the
    FIFO-enable bit and a write of FIFO_CTRL with mode FIFO_OFF and threshold
    0; everything in between is a read.  The FIFO is left disabled whatever
    its state before the call. *)
Theorem calibrate_brackets_reads_with_fifo_writes
    (fuel : nat) (autoCalc : bool) (w w' : W) :
  LSM9DS1_calibrate bsp H fuel autoCalc w = Some w' ->
  exists r1 v1 reads r2 v2,
    trace w' =
      trace w ++
      [EvRead (iface w) (_xgAddress (globals w)) (to_uint8 (CTRL_REG9 H)) 1 [r1];
       EvWrite (iface w) (_xgAddress (globals w)) (to_uint8 (CTRL_REG9 H)) v1;
       EvWrite (iface w) (_xgAddress (globals w)) (to_uint8 (FIFO_CTRL H))
               (Z.lor (Z.shiftl (Z.land (FIFO_THS H) 7) 5) 31)] ++
      reads ++
      [EvRead (iface w) (_xgAddress (globals w)) (to_uint8 (CTRL_REG9 H)) 1 [r2];
       EvWrite (iface w) (_xgAddress (globals w)) (to_uint8 (CTRL_REG9 H)) v2;
       EvWrite (iface w) (_xgAddress (globals w)) (to_uint8 (FIFO_CTRL H))
               (Z.lor (Z.shiftl (Z.land (FIFO_OFF H) 7) 5) 0)] /\
    writes_of reads = [] /\
    Z.land v1 0x02 = 0x02 /\ Z.land v1 0xFD = Z.land r1 0xFD /\
    Z.land v2 0x02 = 0 /\ Z.land v2 0xFD = Z.land r2 0xFD.
Proof.
  unfold LSM9DS1_calibrate.
  set (we := LSM9DS1_enableFIFO bsp H true w).
  set (ws := LSM9DS1_setFIFO bsp H (FIFO_THS H) 31 we).
  destruct (enableFIFO_rewrites true w) as (v1 & Te & F1 & C1).
  fold we in Te. set (r1 := fst (LSM9DS1_xgReadByte bsp (CTRL_REG9 H) w)) in *.
  assert (Ge : globals we = globals w) by apply enableFIFO_globals.
  assert (Gs : globals ws = globals w)
    by (subst ws; rewrite setFIFO_globals; exact Ge).
  pose proof (setFIFO_trace (FIFO_THS H) 31 we ltac:(lia)) as Ts. fold ws in Ts.
  destruct (calibrate_wait bsp H fuel 0 ws) as [[N w0] |] eqn:Hwait;
    [| discriminate].
  destruct (calibrate_wait_spec bsp H fuel 0 N ws w0 Hwait) as (G0 & HN & Hlast).
  assert (HN63 : N <= 63).
  { destruct Hlast as [[-> _] | (v & tr & _ & -> & _)]; [lia |].
    apply land_0x3F_range. }
  destruct (calibrate_wait_reads fuel 0 N ws w0 Hwait) as (tr0 & T0 & W0).
  pose proof (calibrate_accumulate_spec bsp H (Z.to_nat N) 0 0 0 0 0 0 0 w0)
    as Hacc.
  cbv zeta in Hacc. rewrite Hacc by lia. clear Hacc.
  destruct (fifo_batch_spec bsp H (Z.to_nat N) w0) as (_ & Gb & _).
  destruct (fifo_batch_reads (Z.to_nat N) w0) as (trb & Tb & Wb).
  set (batch := fst (fifo_batch bsp H (Z.to_nat N) w0)) in *.
  set (wb := snd (fifo_batch bsp H (Z.to_nat N) w0)) in *.
  clearbody batch wb. cbv beta iota zeta.
  match goal with
  | |- context [fold_left (calibrate_publish ?gT ?aT N) _ wb] =>
      pose proof (calibrate_publish_spec gT aT N wb) as Hp;
      cbv zeta in Hp;
      set (wp := fold_left (calibrate_publish gT aT N) [0; 1; 2] wb) in *
  end.
  assert (Tp : trace wp = trace wb) by (rewrite Hp; reflexivity).
  assert (Ip : iface wp = iface w).
  { unfold iface. rewrite Hp. cbn [globals settings]. congruence. }
  assert (Ap : _xgAddress (globals wp) = _xgAddress (globals w)).
  { rewrite Hp. cbn [globals _xgAddress]. congruence. }
  clearbody wp.
  set (wd := LSM9DS1_enableFIFO bsp H false wp).
  destruct (enableFIFO_rewrites false wp) as (v2 & Td & F2 & C2).
  fold wd in Td. set (r2 := fst (LSM9DS1_xgReadByte bsp (CTRL_REG9 H) wp)) in *.
  assert (Gd : globals wd = globals wp) by apply enableFIFO_globals.
  pose proof (setFIFO_trace (FIFO_OFF H) 0 wd ltac:(lia)) as Tf.
  set (wf := LSM9DS1_setFIFO bsp H (FIFO_OFF H) 0 wd) in *.
  assert (Tw : forall wx, Some (if autoCalc
                                then upd_globals (with_autoCalc true) wf
                                else wf) = Some wx -> trace wx = trace wf).
  { intros wx E. injection E as <-. destruct autoCalc; reflexivity. }
  clearbody wf. intros E. apply Tw in E.
  exists r1, v1, (tr0 ++ trb), r2, v2.
  split; [| split; [rewrite writes_of_app, W0, Wb; reflexivity |
                    repeat split; assumption]].
  rewrite E, Tf, Td, Tp, Tb, T0, Ts, Te.
  change (commInterface (device (settings (globals wp)))) with (iface wp).
  rewrite (iface_globals _ _ Gd), Gd, Ip, Ap.
  rewrite (iface_globals _ _ Ge), Ge.
  fold (iface w). rewrite <- !app_assoc. reflexivity.
Qed.

(** X18: what the calibrations keep.  A returning [LSM9DS1_calibrate]
    leaves the settings, the bus addresses, the three resolutions and both
    magnetometer biases as they were, and never lowers the auto-calibration
    flag: the flag afterwards is the disjunction of the argument and the flag
    before.  A returning [LSM9DS1_calibrateMag] leaves everything but the two
    magnetometer biases as it was. *)
Theorem calibrations_keep_the_rest (fuel : nat) (flag : bool) (w w' : W) :
  (LSM9DS1_calibrate bsp H fuel flag w = Some w' ->
   settings (globals w') = settings (globals w) /\
   _xgAddress (globals w') = _xgAddress (globals w) /\
   _mAddress (globals w') = _mAddress (globals w) /\
   gRes (globals w') = gRes (globals w) /\
   aRes (globals w') = aRes (globals w) /\
   mRes (globals w') = mRes (globals w) /\
   mBias (globals w') = mBias (globals w) /\
   mBiasRaw (globals w') = mBiasRaw (globals w) /\
   _autoCalc (globals w') = flag || _autoCalc (globals w)) /\
  (LSM9DS1_calibrateMag bsp H fuel flag w = Some w' ->
   settings (globals w') = settings (globals w) /\
   _xgAddress (globals w') = _xgAddress (globals w) /\
   _mAddress (globals w') = _mAddress (globals w) /\
   gRes (globals w') = gRes (globals w) /\
   aRes (globals w') = aRes (globals w) /\
   mRes (globals w') = mRes (globals w) /\
   gBias (globals w') = gBias (globals w) /\
   aBias (globals w') = aBias (globals w) /\
   gBiasRaw (globals w') = gBiasRaw (globals w) /\
   aBiasRaw (globals w') = aBiasRaw (globals w) /\
   _autoCalc (globals w') = _autoCalc (globals w)).
Proof.
  split.
  - intros Hc.
    destruct (calibrate_spec bsp H fuel flag w w' Hc) as (N & w0 & _ & _ & _ & Hg).
    cbv zeta in Hg. rewrite Hg.
    cbn [settings _xgAddress _mAddress gRes aRes mRes mBias mBiasRaw _autoCalc].
    destruct flag; repeat split.
  - intros Hc.
    destruct (calibrateMag_spec bsp H fuel flag w w' Hc)
      as (_ & tr & samples & _ & _ & Hg & _).
    cbv zeta in Hg. rewrite Hg.
    cbn [settings _xgAddress _mAddress gRes aRes mRes gBias aBias gBiasRaw
         aBiasRaw _autoCalc].
    repeat split.
Qed.

Lemma map3_to_int16_sub_bias (raw bias : arr3 Z) :
  map3 to_int16 (sub_bias raw bias) = sub_bias raw bias.
Proof.
  unfold map3, sub_bias. cbn [fst3 snd3 thd3].
  rewrite !(to_int16_id (to_int16 _)) by apply to_int16_range.
  reflexivity.
Qed.

(** X19: calibrating while auto-calibration is active measures the residual,
    not the bias.  The samples [LSM9DS1_calibrate] averages are then the raw
    FIFO samples less the biases stored by the previous calibration, so on a
    FIFO filled with one raw triplet pair the new raw gyroscope bias is that
    triplet less the old bias (and likewise the accelerometer bias on X and
    Y); a sensor that still reads its old gyroscope bias is given the bias
    zero. *)
Theorem recalibration_measures_the_residual
    (fuel : nat) (flag : bool) (w w' : W) :
  LSM9DS1_calibrate bsp H fuel flag w = Some w' ->
  _autoCalc (globals w) = true ->
  exists N w0,
    fifo_filled bsp H fuel w = Some (N, w0) /\
    fst (fifo_batch bsp H (Z.to_nat N) w0) =
      map (fun s => (sub_bias (fst s) (gBiasRaw (globals w)),
                     sub_bias (snd s) (aBiasRaw (globals w))))
          (raw_batch bsp H (Z.to_nat N) w0) /\
    forall g a,
      (forall s, In s (raw_batch bsp H (Z.to_nat N) w0) -> s = (g, a)) ->
      gBiasRaw (globals w') = sub_bias g (gBiasRaw (globals w)) /\
      fst3 (aBiasRaw (globals w')) = fst3 (sub_bias a (aBiasRaw (globals w))) /\
      snd3 (aBiasRaw (globals w')) = snd3 (sub_bias a (aBiasRaw (globals w))) /\
      (g = gBiasRaw (globals w) -> gBiasRaw (globals w') = (0, 0, 0)).
Proof.
  intros Hc Hauto.
  assert (Hi : iface w = IMU_MODE_I2C).
  { destruct (iface w) eqn:E; [| reflexivity].
    rewrite (calibrate_SPI bsp H fuel flag w E) in Hc. discriminate. }
  destruct (calibrate_spec bsp H fuel flag w w' Hc)
    as (N & w0 & Hf & HN & G0 & Hgl).
  cbv zeta in Hgl.
  assert (Hi0 : iface w0 = IMU_MODE_I2C)
    by (rewrite (iface_globals _ _ G0); exact Hi).
  pose proof (fifo_batch_raw bsp H (Z.to_nat N) w0 Hi0) as Hraw.
  rewrite G0, Hauto in Hraw.
  destruct (fifo_batch_spec bsp H (Z.to_nat N) w0) as (Hlen & _ & _).
  exists N, w0. split; [exact Hf |]. split; [exact Hraw |].
  intros g a Hsame.
  set (batch := fst (fifo_batch bsp H (Z.to_nat N) w0)) in *.
  set (x := (sub_bias g (gBiasRaw (globals w)),
             sub_bias a (aBiasRaw (globals w)))).
  assert (Hconst : forall s, In s batch -> s = x).
  { intros s Hin. rewrite Hraw in Hin. apply in_map_iff in Hin.
    destruct Hin as (s0 & <- & Hin0). rewrite (Hsame s0 Hin0). reflexivity. }
  assert (HlenZ : Z.of_nat (length batch) = N) by lia.
  assert (Hgraw : gBiasRaw (globals w') = sub_bias g (gBiasRaw (globals w))).
  { rewrite Hgl. cbn [gBiasRaw].
    rewrite !(sum_of_const _ x batch Hconst), HlenZ.
    unfold map3 at 1. cbn [fst3 snd3 thd3].
    rewrite !c_div_mul by lia.
    unfold gyro_x, gyro_y, gyro_z, x. cbn [fst].
    apply (map3_to_int16_sub_bias g (gBiasRaw (globals w))). }
  split; [exact Hgraw |].
  split; [| split].
  - rewrite Hgl. cbn [aBiasRaw]. unfold map3 at 1. cbn [fst3 snd3 thd3].
    rewrite (sum_of_const _ x batch Hconst), HlenZ, c_div_mul by lia.
    unfold accel_x, x. cbn [snd].
    apply to_int16_id, to_int16_range.
  - rewrite Hgl. cbn [aBiasRaw]. unfold map3 at 1. cbn [fst3 snd3 thd3].
    rewrite (sum_of_const _ x batch Hconst), HlenZ, c_div_mul by lia.
    unfold accel_y, x. cbn [snd].
    apply to_int16_id, to_int16_range.
  - intros ->. rewrite Hgraw. apply sub_bias_self.
Qed.

(** ** Conversions to physical units *)

Lemma binary_round_aux_negb (p e : Z) (s : bool) (m x : Z) (l : location) :
  binary_round_aux p e (negb s) m x l = SFopp (binary_round_aux p e s m x l).
Proof.
  unfold binary_round_aux.
  destruct (shr_fexp p e m x l) as [mrs' e'].
  destruct (shr_fexp p e _ e' loc_Exact) as [mrs'' e''].
  destruct (shr_m mrs''); [reflexivity | | reflexivity].
  destruct (e'' <=? e - p); reflexivity.
Qed.

Lemma of_int_opp (z : Z) :
  z <> 0 -> F32.of_int (- z) = SFopp (F32.of_int z).
Proof.
  intros Hz. unfold F32.of_int, binary_normalize, binary_round.
  destruct z as [| q | q]; [contradiction | |]; cbn [Z.opp];
    destruct (shl_align q 0 _) as [mz ez].
  - apply (binary_round_aux_negb F32.prec F32.emax false).
  - rewrite (binary_round_aux_negb F32.prec F32.emax false). 
    destruct (binary_round_aux F32.prec F32.emax false (Z.pos mz) ez loc_Exact)
      as [[|] | [|] | | [|] ? ?]; reflexivity.
Qed.

Lemma SFmul_opp_r (p e : Z) (x y : spec_float) :
  SFmul p e x (SFopp y) = SFopp (SFmul p e x y).
Proof.
  destruct x as [sx | sx | | sx mx ex], y as [sy | sy | | sy my ey];
    cbn [SFmul SFopp]; try reflexivity;
    try (destruct sx, sy; reflexivity).
  replace (xorb sx (negb sy)) with (negb (xorb sx sy))
    by (destruct sx, sy; reflexivity).
  apply binary_round_aux_negb.
Qed.

Lemma mul_int_opp (r : F32.float) (raw : Z) :
  raw <> 0 -> F32.mul_int r (- raw) = SFopp (F32.mul_int r raw).
Proof.
  intros Hraw. unfold F32.mul_int.
  rewrite (of_int_opp raw Hraw). apply SFmul_opp_r.
Qed.

(** X20: the conversions to physical units are odd on the symmetric part
    of the [int16_t] range.  For a raw value between -32767 and 32767 other
    than 0, [LSM9DS1_calcGyro], [LSM9DS1_calcAccel] and [LSM9DS1_calcMag]
    applied to its negation give the negation of what they give on the raw
    value, whatever the resolution in force: rounding is symmetric.  The
    value -32768 is left out: its negation does not fit the [int16_t]
    parameter. *)
Theorem conversions_are_odd (raw : Z) (w : W) :
  -32767 <= raw <= 32767 ->
  raw <> 0 ->
  LSM9DS1_calcGyro (- raw) w = SFopp (LSM9DS1_calcGyro raw w) /\
  LSM9DS1_calcAccel (- raw) w = SFopp (LSM9DS1_calcAccel raw w) /\
  LSM9DS1_calcMag (- raw) w = SFopp (LSM9DS1_calcMag raw w).
Proof.
  intros Hfit Hraw.
  unfold LSM9DS1_calcGyro, LSM9DS1_calcAccel, LSM9DS1_calcMag. cbv zeta.
  rewrite (to_int16_id raw), (to_int16_id (- raw)) by (unfold is_int16; lia).
  repeat split; apply mul_int_opp; exact Hraw.
Qed.

End MoreProperties.

(** * Further worked examples on the bench *)

(** Witness of X1: the bench session is brought up right after
    [LSM9DS1_init]. *)
Lemma begin_after_init_runs_on_defaults_witness :
  LSM9DS1_begin bench datasheet w_on = Some (0x683D, w_begun) /\
  gRes (globals w_begun) = SENSITIVITY_GYROSCOPE_245 /\
  _xgAddress (globals w_begun) = 0x6B /\
  _autoCalc (globals w_begun) = false.
Proof.
  split; [exact begun_on_bench |].
  destruct (begin_after_init_runs_on_defaults bench datasheet IMU_MODE_I2C
              0x6B 0x1E 0x683D (mkWorld zeroed O []) w_begun begun_on_bench)
    as (_ & Hg & _ & _ & Hx & _ & _ & _ & _ & Ha).
  split; [exact Hg |]. split; [exact Hx | exact Ha].
Defined.

(** Witness of X4: the default scales are supported ones. *)
Lemma constrainScales_is_a_projection_witness :
  gyro_scale_supported (gScale w_on) /\
  accel_scale_supported (aScale w_on) /\
  mag_scale_supported (mScale w_on) /\
  LSM9DS1_constrainScales w_on = w_on.
Proof.
  assert (Hg : gyro_scale_supported (gScale w_on)) by (left; reflexivity).
  assert (Ha : accel_scale_supported (aScale w_on)) by (left; reflexivity).
  assert (Hm : mag_scale_supported (mScale w_on)) by (left; reflexivity).
  split; [exact Hg |]. split; [exact Ha |]. split; [exact Hm |].
  exact (proj1 (constrainScales_is_a_projection w_on) Hg Ha Hm).
Defined.

(** Witness of X12: the bench answers 0 in both temperature registers, and
    over SPI the caller sees whatever the local held. *)
Lemma readTemp_is_offset_plus_high_byte_witness :
  iface w_begun = IMU_MODE_I2C /\
  25 <= fst (LSM9DS1_readTemp bench datasheet_rest 7 w_begun) <= 280 /\
  iface w_spi = IMU_MODE_SPI /\
  fst (LSM9DS1_readTemp bench datasheet_rest 7 w_spi) = 7.
Proof.
  destruct (readTemp_is_offset_plus_high_byte bench datasheet_rest 7 w_begun)
    as (_ & Hi2c & _).
  destruct (readTemp_is_offset_plus_high_byte bench datasheet_rest 7 w_spi)
    as (_ & _ & Hspi).
  assert (Ei : iface w_begun = IMU_MODE_I2C) by (vm_compute; reflexivity).
  assert (Es : iface w_spi = IMU_MODE_SPI) by (vm_compute; reflexivity).
  split; [exact Ei |]. split; [exact (proj2 (Hi2c Ei)) |].
  split; [exact Es | exact (Hspi Es)].
Defined.

(** Witness of X13: the any-axis bit of the bench magnetometer is set. *)
Lemma status_queries_return_their_bit_witness :
  0 <= 3 <= 7 /\
  fst (LSM9DS1_magAvailable bench datasheet 3 w_begun) =
    Z.b2z (Z.testbit
             (fst (LSM9DS1_mReadByte bench (STATUS_REG_M datasheet) w_begun)) 3).
Proof.
  assert (Ha : 0 <= 3 <= 7) by lia.
  split; [exact Ha |].
  destruct (status_queries_return_their_bit bench datasheet datasheet_rest 3
              w_begun) as (_ & _ & _ & Hm & _).
  rewrite (Hm Ha). reflexivity.
Defined.

(** Witness of X14: the bench session powered on over SPI. *)
Lemma spi_stubs_never_deliver_witness :
  iface w_spi = IMU_MODE_SPI /\
  LSM9DS1_calibrate bench datasheet 5 true w_spi = None /\
  LSM9DS1_calibrateMag bench datasheet 5 true w_spi = None /\
  exists w', LSM9DS1_begin bench datasheet w_spi = Some (0, w').
Proof.
  assert (Es : iface w_spi = IMU_MODE_SPI) by (vm_compute; reflexivity).
  destruct (spi_stubs_never_deliver bench datasheet 5 true (0, 0, 0) w_spi Es)
    as (Hc & Hm & Hb & _).
  split; [exact Es |]. split; [exact Hc |]. split; [exact Hm | exact Hb].
Defined.

(** Witness of X15: the bench session brought up over I2C. *)
Lemma i2c_bursts_always_count_as_complete_witness :
  iface w_begun = IMU_MODE_I2C /\ 0 <= 0 <= 2 /\
  fst (LSM9DS1_readMag bench datasheet (1, 2, 3) w_begun) =
    decode3 (delivered (m_burst6 bench (OUT_X_L_M datasheet) w_begun)) /\
  fst (LSM9DS1_readGyroAxis bench datasheet 0 w_begun) =
    le16 (delivered (xg_burst2 bench (OUT_X_L_G datasheet) 0 w_begun)) 0.
Proof.
  assert (Ei : iface w_begun = IMU_MODE_I2C) by (vm_compute; reflexivity).
  assert (Ha : 0 <= 0 <= 2) by lia.
  destruct (i2c_bursts_always_count_as_complete bench datasheet (1, 2, 3) 0
              w_begun Ei Ha) as (_ & _ & Hm & Hg & _).
  split; [exact Ei |]. split; [exact Ha |]. split; [exact Hm |].
  destruct bench_auto_calibration as (Hoff & _).
  rewrite Hoff in Hg. exact Hg.
Defined.

(** Witness of X16: the offset -100 on the Y axis. *)
Lemma magOffset_bytes_decode_to_offset_witness :
  0 <= 1 <= 2 /\ is_int16 (-100) /\
  exists lsb msb,
    trace (LSM9DS1_magOffset bench datasheet 1 (-100) w_begun) =
      trace w_begun ++
      [EvWrite IMU_MODE_I2C 0x1E 0x07 lsb; EvWrite IMU_MODE_I2C 0x1E 0x08 msb] /\
    le16 [lsb; msb] 0 = -100.
Proof.
  assert (Ha : 0 <= 1 <= 2) by lia.
  assert (Hf : is_int16 (-100)) by (unfold is_int16; lia).
  split; [exact Ha |]. split; [exact Hf |].
  destruct (magOffset_bytes_decode_to_offset bench datasheet 1 (-100) w_begun Ha)
    as (lsb & msb & Ht & _ & Hd).
  exists lsb, msb. split; [exact Ht | exact (Hd Hf)].
Defined.

(** Witness of X17: the calibration of the bench session. *)
Lemma calibrate_brackets_reads_with_fifo_writes_witness :
  LSM9DS1_calibrate bench datasheet 1 true w_begun = Some w_calibrated /\
  exists v1 reads v2,
    writes_of reads = [] /\ Z.land v1 0x02 = 0x02 /\ Z.land v2 0x02 = 0.
Proof.
  split; [exact calibrated_on_bench |].
  destruct (calibrate_brackets_reads_with_fifo_writes bench datasheet 1 true
              w_begun w_calibrated calibrated_on_bench)
    as (r1 & v1 & reads & r2 & v2 & _ & Hr & H1 & _ & H2 & _).
  exists v1, reads, v2. split; [exact Hr |]. split; [exact H1 | exact H2].
Defined.

(** Witness of X18: both calibrations of the bench session. *)
Lemma calibrations_keep_the_rest_witness :
  LSM9DS1_calibrate bench datasheet 1 true w_begun = Some w_calibrated /\
  mBiasRaw (globals w_calibrated) = mBiasRaw (globals w_begun) /\
  LSM9DS1_calibrateMag bench datasheet 1 true w_begun = Some w_magcal /\
  gBiasRaw (globals w_magcal) = gBiasRaw (globals w_begun).
Proof.
  destruct (calibrations_keep_the_rest bench datasheet 1 true w_begun
              w_calibrated) as (Hc & _).
  destruct (calibrations_keep_the_rest bench datasheet 1 true w_begun
              w_magcal) as (_ & Hm).
  destruct (Hc calibrated_on_bench) as (_ & _ & _ & _ & _ & _ & _ & Hc' & _).
  destruct (Hm magcal_on_bench) as (_ & _ & _ & _ & _ & _ & _ & _ & Hm' & _).
  split; [exact calibrated_on_bench |]. split; [exact Hc' |].
  split; [exact magcal_on_bench | exact Hm'].
Defined.

(** Witness of X19: the bench gyroscope still reads the bias stored by the
    first calibration, so the second calibration stores the bias zero. *)
Lemma recalibration_measures_the_residual_witness :
  LSM9DS1_calibrate bench datasheet 1 false w_calibrated = Some w_recalibrated /\
  _autoCalc (globals w_calibrated) = true /\
  gBiasRaw (globals w_calibrated) = (5, 0, 0) /\
  gBiasRaw (globals w_recalibrated) = (0, 0, 0).
Proof.
  assert (Ha : _autoCalc (globals w_calibrated) = true)
    by (vm_compute; reflexivity).
  assert (Hb : gBiasRaw (globals w_calibrated) = (5, 0, 0))
    by (vm_compute; reflexivity).
  split; [exact recalibrated_on_bench |]. split; [exact Ha |].
  split; [exact Hb |].
  destruct (recalibration_measures_the_residual bench datasheet 1 false
              w_calibrated w_recalibrated recalibrated_on_bench Ha)
    as (N & w0 & Hf & _ & Hsame).
  destruct refilled_on_bench as (w0' & Hf' & Hraw).
  rewrite Hf' in Hf. injection Hf as <- <-.
  destruct (Hsame (5, 0, 0) (0, 0, -32768)) as (_ & _ & _ & Hz).
  - intros s Hin. change (Z.to_nat 31) with 31%nat in Hin.
    rewrite Hraw in Hin. apply repeat_spec in Hin. exact Hin.
  - apply Hz. symmetry. exact Hb.
Defined.

(** Witness of X20. *)
Lemma conversions_are_odd_witness :
  -32767 <= 5 <= 32767 /\ 5 <> 0 /\
  LSM9DS1_calcGyro (- 5) w_begun = SFopp (LSM9DS1_calcGyro 5 w_begun).
Proof.
  assert (Hfit : -32767 <= 5 <= 32767) by lia.
  assert (H5 : 5 <> 0) by discriminate.
  split; [exact Hfit |]. split; [exact H5 |].
  exact (proj1 (conversions_are_odd 5 w_begun Hfit H5)).
Defined.
